(** * ccp: protocol translation and session continuity

    A shallow embedding of the core of the proxy: the content-addressed
    session store ([session.ts]), the working-directory confirmation logic
    and the stream translators of the completions handler
    ([handleChatCompletions], [handleStreaming], [handleNonStreaming]).

    JavaScript strings are modelled as byte strings ([string]), the
    numbers that the code handles (token counts, millisecond timestamps)
    as [Z], the session [Map] as a [gmap], and module-level mutable state
    as an explicit record threaded through the operations. *)

From Stdlib Require Import ZArith String Ascii List Lia Bool.
From stdpp Require Import gmap strings list fin_maps.

Local Open Scope string_scope.
Local Open Scope Z_scope.

(** ** OpenAI-compatible message types ([types.ts]) *)

Inductive Role := system | user | assistant.

Record ImageUrl := { url : string; detail : option string }.

Inductive PartType := type_text | type_image_url.

Record OAIContentPart := {
  part_type : PartType;
  part_text : option string;
  part_image_url : option ImageUrl
}.

Inductive Content :=
| ContentString (s : string)
| ContentParts (parts : list OAIContentPart).

Record OAIMessage := { role : Role; content : Content }.

(** ** JavaScript string primitives used by the code *)

(** Truthiness of a string: every string but the empty one. *)
Definition truthy (s : string) : bool :=
  match s with EmptyString => false | String _ _ => true end.

(** [s.startsWith(p)] *)
Fixpoint startsWith (p s : string) : bool :=
  match p with
  | EmptyString => true
  | String a p' =>
      match s with
      | String b s' => Ascii.eqb a b && startsWith p' s'
      | EmptyString => false
      end
  end.

(** [s.includes(p)] *)
Fixpoint includes (p s : string) : bool :=
  startsWith p s ||
  match s with
  | EmptyString => false
  | String _ s' => includes p s'
  end.

(** White space removed by [trim], on the ASCII range: tab, line feed,
    vertical tab, form feed, carriage return and space. *)
Definition is_space (c : ascii) : bool :=
  let n := nat_of_ascii c in
  ((9 <=? n)%nat && (n <=? 13)%nat) || (n =? 32)%nat.

Fixpoint trimStart (s : string) : string :=
  match s with
  | EmptyString => EmptyString
  | String c s' => if is_space c then trimStart s' else s
  end.

Fixpoint trimEnd (s : string) : string :=
  match s with
  | EmptyString => EmptyString
  | String c s' =>
      match trimEnd s' with
      | EmptyString => if is_space c then EmptyString else String c EmptyString
      | t => String c t
      end
  end.

Definition trim (s : string) : string := trimEnd (trimStart s).

(** [xs.join(sep)] *)
Fixpoint join (sep : string) (xs : list string) : string :=
  match xs with
  | [] => ""
  | [x] => x
  | x :: rest => x ++ sep ++ join sep rest
  end.

Definition LF : string := String (ascii_of_nat 10) EmptyString.

(** ** [utils.ts]: getTextContent *)

Definition is_text_part (p : OAIContentPart) : bool :=
  match part_type p, part_text p with
  | type_text, Some t => truthy t
  | _, _ => false
  end.

Definition getTextContent (c : Content) : string :=
  match c with
  | ContentString s => s
  | ContentParts parts =>
      join LF (map (fun p => default "" (part_text p)) (filter is_text_part parts))
  end.

(** ** [JSON.stringify] on message lists

    The serializers are written with an explicit remainder [k]: [ser x k]
    is the text of [x] followed by [k]. Object keys are written in the
    order of the type declarations. *)

Definition hex_digit (n : Z) : ascii :=
  ascii_of_nat (Z.to_nat (if n <? 10 then 48 + n else 87 + n)).

Definition BS : ascii := ascii_of_nat 92.
Definition DQ : ascii := ascii_of_nat 34.

(** The escape of one character inside a string literal. *)
Definition quote_char (c : ascii) (k : string) : string :=
  let n := Z.of_nat (nat_of_ascii c) in
  if n =? 34 then String BS (String DQ k)
  else if n =? 92 then String BS (String BS k)
  else if n =? 8 then String BS (String "b" k)
  else if n =? 12 then String BS (String "f" k)
  else if n =? 10 then String BS (String "n" k)
  else if n =? 13 then String BS (String "r" k)
  else if n =? 9 then String BS (String "t" k)
  else if n <? 32 then
    String BS (String "u" (String "0" (String "0"
      (String (hex_digit (n / 16)) (String (hex_digit (n mod 16)) k)))))
  else String c k.

Fixpoint quote_body (s : string) (k : string) : string :=
  match s with
  | EmptyString => String DQ k
  | String c s' => quote_char c (quote_body s' k)
  end.

Definition ser_string (s : string) (k : string) : string :=
  String DQ (quote_body s k).

Fixpoint ser_tail {A} (f : A -> string -> string) (xs : list A) (k : string) : string :=
  match xs with
  | [] => "]" ++ k
  | x :: xs' => "," ++ f x (ser_tail f xs' k)
  end.

Definition ser_array {A} (f : A -> string -> string) (xs : list A) (k : string) : string :=
  match xs with
  | [] => "[]" ++ k
  | x :: xs' => "[" ++ f x (ser_tail f xs' k)
  end.

Definition ser_image (i : ImageUrl) (k : string) : string :=
  "{" ++ ser_string "url" (":" ++ ser_string (url i)
    (match detail i with
     | Some d => "," ++ ser_string "detail" (":" ++ ser_string d ("}" ++ k))
     | None => "}" ++ k
     end)).

Definition ser_part_type (t : PartType) : string :=
  match t with type_text => "text" | type_image_url => "image_url" end.

Definition ser_part (p : OAIContentPart) (k : string) : string :=
  let close_image :=
    match part_image_url p with
    | Some i => "," ++ ser_string "image_url" (":" ++ ser_image i ("}" ++ k))
    | None => "}" ++ k
    end in
  "{" ++ ser_string "type" (":" ++ ser_string (ser_part_type (part_type p))
    (match part_text p with
     | Some t => "," ++ ser_string "text" (":" ++ ser_string t close_image)
     | None => close_image
     end)).

Definition ser_role (r : Role) : string :=
  match r with system => "system" | user => "user" | assistant => "assistant" end.

Definition ser_content (c : Content) (k : string) : string :=
  match c with
  | ContentString s => ser_string s k
  | ContentParts ps => ser_array ser_part ps k
  end.

Definition ser_message (m : OAIMessage) (k : string) : string :=
  "{" ++ ser_string "role" (":" ++ ser_string (ser_role (role m))
    ("," ++ ser_string "content" (":" ++ ser_content (content m) ("}" ++ k)))).

Definition JSON_stringify (messages : list OAIMessage) : string :=
  ser_array ser_message messages "".

(** ** SHA-256 (FIPS 180-4), as [createHash("sha256")] computes it

    Words are 32-bit, held in [Z] and reduced modulo [2^32]. *)

Module SHA256.

Definition mask32 (x : Z) : Z := x mod 4294967296.
Definition add32 (x y : Z) : Z := mask32 (x + y).
Definition rotr (n x : Z) : Z :=
  Z.lor (Z.shiftr x n) (mask32 (Z.shiftl x (32 - n))).
Definition Ch (x y z : Z) : Z :=
  Z.lxor (Z.land x y) (Z.land (Z.lnot x) z).
Definition Maj (x y z : Z) : Z :=
  Z.lxor (Z.lxor (Z.land x y) (Z.land x z)) (Z.land y z).
Definition bsig0 (x : Z) : Z := Z.lxor (Z.lxor (rotr 2 x) (rotr 13 x)) (rotr 22 x).
Definition bsig1 (x : Z) : Z := Z.lxor (Z.lxor (rotr 6 x) (rotr 11 x)) (rotr 25 x).
Definition ssig0 (x : Z) : Z := Z.lxor (Z.lxor (rotr 7 x) (rotr 18 x)) (Z.shiftr x 3).
Definition ssig1 (x : Z) : Z := Z.lxor (Z.lxor (rotr 17 x) (rotr 19 x)) (Z.shiftr x 10).

Definition round_constants : list Z :=
  [ 1116352408; 1899447441; 3049323471; 3921009573;
    961987163; 1508970993; 2453635748; 2870763221;
    3624381080; 310598401; 607225278; 1426881987;
    1925078388; 2162078206; 2614888103; 3248222580;
    3835390401; 4022224774; 264347078; 604807628;
    770255983; 1249150122; 1555081692; 1996064986;
    2554220882; 2821834349; 2952996808; 3210313671;
    3336571891; 3584528711; 113926993; 338241895;
    666307205; 773529912; 1294757372; 1396182291;
    1695183700; 1986661051; 2177026350; 2456956037;
    2730485921; 2820302411; 3259730800; 3345764771;
    3516065817; 3600352804; 4094571909; 275423344;
    430227734; 506948616; 659060556; 883997877;
    958139571; 1322822218; 1537002063; 1747873779;
    1955562222; 2024104815; 2227730452; 2361852424;
    2428436474; 2756734187; 3204031479; 3329325298 ].

(** The eight working words. *)
Record state := mk_state {
  wa : Z; wb : Z; wc : Z; wd : Z; we : Z; wf : Z; wg : Z; wh : Z
}.

Definition initial : state :=
  mk_state 1779033703 3144134277 1013904242 2773480762
           1359893119 2600822924 528734635 1541459225.

Definition bytes_of_string (s : string) : list Z :=
  map (fun c => Z.of_nat (nat_of_ascii c)) (list_ascii_of_string s).

(** Big-endian bytes of [x], [n] of them. *)
Fixpoint be_bytes (n : nat) (x : Z) : list Z :=
  match n with
  | O => []
  | S n' => (Z.shiftr x (8 * Z.of_nat n')) mod 256 :: be_bytes n' x
  end.

Definition pad (msg : list Z) : list Z :=
  let len := Z.of_nat (length msg) in
  msg ++ [128] ++ repeat 0 (Z.to_nat ((55 - len) mod 64)) ++ be_bytes 8 (8 * len).

Fixpoint words (fuel : nat) (bs : list Z) : list Z :=
  match fuel, bs with
  | S fuel', b0 :: b1 :: b2 :: b3 :: rest =>
      (((b0 * 256 + b1) * 256 + b2) * 256 + b3) :: words fuel' rest
  | _, _ => []
  end.

(** The message schedule, extended from the 16 words of a block. *)
Fixpoint schedule (n : nat) (w : list Z) : list Z :=
  match n with
  | O => w
  | S n' =>
      let t := length w in
      let at_ i := nth (t - i) w 0 in
      schedule n' (w ++ [add32 (add32 (ssig1 (at_ 2%nat)) (at_ 7%nat))
                               (add32 (ssig0 (at_ 15%nat)) (at_ 16%nat))])
  end.

Definition round (s : state) (kw : Z * Z) : state :=
  let t1 := add32 (add32 (add32 (wh s) (bsig1 (we s)))
                         (add32 (Ch (we s) (wf s) (wg s)) (fst kw))) (snd kw) in
  let t2 := add32 (bsig0 (wa s)) (Maj (wa s) (wb s) (wc s)) in
  mk_state (add32 t1 t2) (wa s) (wb s) (wc s) (add32 (wd s) t1) (we s) (wf s) (wg s).

Definition compress (h : state) (block : list Z) : state :=
  let w := schedule 48 (words 16 block) in
  let s := fold_left round (combine round_constants w) h in
  mk_state (add32 (wa h) (wa s)) (add32 (wb h) (wb s))
           (add32 (wc h) (wc s)) (add32 (wd h) (wd s))
           (add32 (we h) (we s)) (add32 (wf h) (wf s))
           (add32 (wg h) (wg s)) (add32 (wh h) (wh s)).

Fixpoint blocks (fuel : nat) (h : state) (bs : list Z) : state :=
  match fuel, bs with
  | S fuel', _ :: _ => blocks fuel' (compress h (firstn 64 bs)) (skipn 64 bs)
  | _, _ => h
  end.

Definition hex32 (x : Z) (k : string) : string :=
  String (hex_digit (Z.shiftr x 28 mod 16))
 (String (hex_digit (Z.shiftr x 24 mod 16))
 (String (hex_digit (Z.shiftr x 20 mod 16))
 (String (hex_digit (Z.shiftr x 16 mod 16))
 (String (hex_digit (Z.shiftr x 12 mod 16))
 (String (hex_digit (Z.shiftr x 8 mod 16))
 (String (hex_digit (Z.shiftr x 4 mod 16))
 (String (hex_digit (x mod 16)) k))))))).

Definition hex_of_state (s : state) : string :=
  hex32 (wa s) (hex32 (wb s) (hex32 (wc s) (hex32 (wd s)
 (hex32 (we s) (hex32 (wf s) (hex32 (wg s) (hex32 (wh s) ""))))))).

(** [createHash("sha256").update(payload).digest("hex")] *)
Definition hexdigest (payload : string) : string :=
  let bs := pad (bytes_of_string payload) in
  hex_of_state (blocks (length bs) initial bs).

End SHA256.

(** ** The session store ([session.ts])

    The module-level [sessions] map and [dirty] flag form the store
    state; [Date.now()] is passed in as [now]. *)

Record SessionEntry := { sessionId : string; createdAt : Z }.

Record Store := {
  sessions : gmap string SessionEntry;
  dirty : bool
}.

Definition empty_store : Store := {| sessions := ∅; dirty := false |}.

Definition hashMessages (messages : list OAIMessage) : string :=
  let payload := JSON_stringify messages in
  SHA256.hexdigest payload.

#[global] Arguments hashMessages : simpl never.

(** Operations on the store return their result and the store they
    leave behind. *)
Definition lookupSession (contextMessages : list OAIMessage) (st : Store)
  : option string * Store :=
  if (length contextMessages =? 0)%nat then (None, st)
  else
    let hash := hashMessages contextMessages in
    match sessions st !! hash with
    | Some entry => (Some (sessionId entry), st)
    | None => (None, st)
    end.

Definition storeSession (contextMessages : list OAIMessage) (sid : string)
  (now : Z) (st : Store) : Store :=
  let hash := hashMessages contextMessages in
  {| sessions := <[hash := {| sessionId := sid; createdAt := now |}]> (sessions st);
     dirty := true |}.

(** One iteration of the sweep loop: the map being swept and the count
    of removed entries. *)
Definition cleanup_step (ttlMs now : Z) (acc : gmap string SessionEntry * nat)
  (he : string * SessionEntry) : gmap string SessionEntry * nat :=
  if now - createdAt he.2 >? ttlMs then (delete he.1 acc.1, S acc.2) else acc.

(** The loop visits every entry present when it starts; deleting the
    entry being visited does not disturb the iteration. *)
Definition cleanupSessions (ttlMs now : Z) (st : Store) : Store :=
  let r := fold_left (cleanup_step ttlMs now) (map_to_list (sessions st))
                     (sessions st, O) in
  {| sessions := r.1;
     dirty := if (0 <? r.2)%nat then true else dirty st |}.

(** ** Working-directory confirmation ([handleChatCompletions]) *)

(** What the handler needs from the process environment and the file
    system: [HOME], [resolve(normalize(p))] of [node:path], and
    [existsSync], [statSync(p).isDirectory()] and [realpathSync], the last
    two failing with [None] where the calls throw. *)
Record Env := {
  HOME : string;
  path_resolve : string -> string;
  existsSync : string -> bool;
  statIsDirectory : string -> option bool;
  realpathSync : string -> option string
}.

Record Config := { claudeWorkingDir : string }.

Definition isValidDirectory (env : Env) (path : string) : bool :=
  existsSync env path &&
  match statIsDirectory env path with
  | Some b => b
  | None => false
  end.

Definition blockedPrefixes : list string := ["/proc"; "/sys"; "/dev"].

Definition resolvePath (env : Env) (text : string) : option string :=
  let start :=
    if startsWith "~" text then
      match text with
      | String _ rest => Some (HOME env ++ rest)
      | EmptyString => None
      end
    else if startsWith "/" text then Some text
    else None in
  match start with
  | None => None
  | Some r0 =>
      let resolved := path_resolve env r0 in
      if existsb (fun prefix => startsWith prefix resolved) blockedPrefixes then None
      else if existsSync env resolved then
        match realpathSync env resolved with
        | Some real => Some real
        | None => Some resolved
        end
      else Some resolved
  end.

Definition PATH_PROMPT : string := "ðŸ“ Please enter the working directory path (e.g.: ~/projects/myapp)".
Definition PATH_INVALID : string := "âŒ Invalid directory path. Please enter a valid existing directory path (e.g.: ~/projects/myapp)".
Definition PATH_CONFIRMED (p : string) : string :=
  "âœ… Working directory set: `" ++ p ++ "`" ++ LF ++ LF ++ "Now working in this directory. How can I help you?".

Definition MARK_CONFIRMED : string := "âœ…".
Definition MARK_PROMPT : string := "ðŸ“".
Definition MARK_INVALID : string := "âŒ".

Definition is_system (m : OAIMessage) : bool :=
  match role m with system => true | _ => false end.
Definition is_user (m : OAIMessage) : bool :=
  match role m with user => true | _ => false end.
Definition is_assistant (m : OAIMessage) : bool :=
  match role m with assistant => true | _ => false end.

(** The resolved path of a user text when it is non-empty and names a
    valid directory: the test [!resolved || !isValidDirectory(resolved)]. *)
Definition resolveValid (env : Env) (text : string) : option string :=
  match resolvePath env text with
  | Some resolved =>
      if truthy resolved && isValidDirectory env resolved then Some resolved else None
  | None => None
  end.

(** The scan for the confirmed pair, from index [i], over at most [n]
    further messages; the result is [(confirmedPath, pathUserIdx)], the
    assistant index being the next one. *)
Fixpoint findConfirmed (env : Env) (userAssistantMessages : list OAIMessage)
  (n i : nat) : option (string * nat) :=
  match n with
  | O => None
  | S n' =>
      match userAssistantMessages !! i with
      | None => None
      | Some msg =>
          if negb (is_user msg) then findConfirmed env userAssistantMessages n' (S i)
          else
            match resolveValid env (trim (getTextContent (content msg))) with
            | None => findConfirmed env userAssistantMessages n' (S i)
            | Some resolved =>
                match userAssistantMessages !! (S i) with
                | Some nextMsg =>
                    if is_assistant nextMsg then Some (resolved, i)
                    else findConfirmed env userAssistantMessages n' (S i)
                | None => findConfirmed env userAssistantMessages n' (S i)
                end
            end
      end
  end.

(** The messages at indices other than the two of the pair, from index [i]. *)
Fixpoint stripPair (pathUserIdx pathAssistantIdx i : nat)
  (userAssistantMessages : list OAIMessage) : list OAIMessage :=
  match userAssistantMessages with
  | [] => []
  | m :: rest =>
      if (i =? pathUserIdx)%nat || (i =? pathAssistantIdx)%nat
      then stripPair pathUserIdx pathAssistantIdx (S i) rest
      else m :: stripPair pathUserIdx pathAssistantIdx (S i) rest
  end.

Definition hasRealAssistantResponse (userAssistantMessages : list OAIMessage) : bool :=
  existsb (fun m =>
    is_assistant m
    && negb (startsWith MARK_CONFIRMED (getTextContent (content m)))
    && negb (startsWith MARK_PROMPT (getTextContent (content m)))
    && negb (startsWith MARK_INVALID (getTextContent (content m))))
    userAssistantMessages.

(** [xs.slice(0, -1)] *)
Definition slice_init {A} (xs : list A) : list A := removelast xs.

(** What the handler does with a request, up to the translation of the
    agent's output: reject it, answer with a synthetic assistant turn, or
    spawn the agent in [cwd] on [claudeMessages], resuming [sessionId]. *)
Inductive Outcome :=
| BadRequest
| FakeResponse (content : string)
| Invoke (cwd : string) (claudeMessages : list OAIMessage) (sessionId : option string).

(** [workingDir || config.claudeWorkingDir] in [spawnClaude] *)
Definition spawn_cwd (config : Config) (workingDir : option string) : string :=
  match workingDir with
  | Some w => if truthy w then w else claudeWorkingDir config
  | None => claudeWorkingDir config
  end.

Definition lastUserText (userAssistantMessages : list OAIMessage) : string :=
  match last (filter is_user userAssistantMessages) with
  | Some lastUserMsg => trim (getTextContent (content lastUserMsg))
  | None => ""
  end.

Definition handleChatCompletions (env : Env) (config : Config) (st : Store)
  (messages : list OAIMessage) : Outcome :=
  if (length messages =? 0)%nat then BadRequest
  else
    let userAssistantMessages := filter (fun m => negb (is_system m)) messages in
    match findConfirmed env userAssistantMessages (length userAssistantMessages) O with
    | None =>
        if hasRealAssistantResponse userAssistantMessages then
          let claudeMessages := messages in
          let contextMessages := slice_init claudeMessages in
          Invoke (spawn_cwd config None) claudeMessages (lookupSession contextMessages st).1
        else
          match resolvePath env (lastUserText userAssistantMessages) with
          | Some resolved =>
              if truthy resolved && isValidDirectory env resolved
              then FakeResponse (PATH_CONFIRMED resolved)
              else FakeResponse PATH_INVALID
          | None => FakeResponse PATH_PROMPT
          end
    | Some (confirmedPath, pathUserIdx) =>
        let pathAssistantIdx := S pathUserIdx in
        let workingDir := confirmedPath in
        let claudeMessages :=
          (filter is_system messages
           ++ stripPair pathUserIdx pathAssistantIdx O userAssistantMessages)%list in
        let contextMessages := slice_init claudeMessages in
        Invoke (spawn_cwd config (Some workingDir)) claudeMessages
               (lookupSession contextMessages st).1
    end.

(** ** The agent's stream events ([types.ts]) *)

(** The token counts read from a usage object. *)
Record UsageFields := { input_tokens : option Z; output_tokens : option Z }.

Record EventDelta := {
  delta_type : option string;
  delta_text : option string;
  stop_reason : option string
}.

Record EventMessage := { message_usage : option UsageFields }.

Record InnerEvent := {
  event_type : string;
  event_delta : option EventDelta;
  event_message : option EventMessage;
  event_usage : option UsageFields
}.

Inductive ClaudeStreamLine :=
| stream_event (event : InnerEvent)
| result (session_id : string) (is_error : bool) (result_text : option string)
| other_event.

(** The line emitter: the events it yields and whether it throws once
    they are consumed. *)
Record LineEmitter := { lines : list ClaudeStreamLine; throws : bool }.

(** ** Caller-facing responses *)

Inductive FinishReason := finish_stop | finish_length.

Record Usage := { prompt_tokens : Z; completion_tokens : Z; total_tokens : Z }.

Record ChunkDelta := { delta_role : option Role; delta_content : option string }.

(** The [usage] field of a chunk: absent, [null], or the counters. *)
Inductive ChunkUsage := usage_absent | usage_null | usage_some (u : Usage).

Record OAIChatCompletionChunk := {
  chunk_delta : ChunkDelta;
  chunk_finish_reason : option FinishReason;
  chunk_usage : ChunkUsage
}.

(** A frame written on the event stream: [data: <chunk>] or [data: [DONE]]. *)
Inductive Frame :=
| data (chunk : OAIChatCompletionChunk)
| DONE.

Record OAIChatCompletionResponse := {
  message_content : string;
  finish_reason : FinishReason;
  usage : option Usage
}.

Inductive HttpResponse :=
| ok_200 (response : OAIChatCompletionResponse)
| error_500.

Definition roleChunk : OAIChatCompletionChunk :=
  {| chunk_delta := {| delta_role := Some assistant; delta_content := None |};
     chunk_finish_reason := None; chunk_usage := usage_absent |}.

Definition contentChunk (text : string) : OAIChatCompletionChunk :=
  {| chunk_delta := {| delta_role := None; delta_content := Some text |};
     chunk_finish_reason := None; chunk_usage := usage_absent |}.

Definition stopChunk : OAIChatCompletionChunk :=
  {| chunk_delta := {| delta_role := None; delta_content := None |};
     chunk_finish_reason := Some finish_stop; chunk_usage := usage_absent |}.

Definition usageChunk (u : Usage) : OAIChatCompletionChunk :=
  {| chunk_delta := {| delta_role := None; delta_content := None |};
     chunk_finish_reason := Some finish_stop;
     chunk_usage := if total_tokens u >? 0 then usage_some u else usage_null |}.

Definition errorAnnotation (text : string) : string :=
  LF ++ LF ++ "[Error: " ++ text ++ "]".

Definition STREAM_INTERRUPTED : string :=
  LF ++ LF ++ "[Stream interrupted due to an internal error]".

(** ** Translation state shared by the two modes *)

Definition truthy_opt (o : option string) : bool :=
  match o with Some s => truthy s | None => false end.

(** A number that is present and not zero. *)
Definition truthy_num (o : option Z) : option Z :=
  match o with
  | Some n => if n =? 0 then None else Some n
  | None => None
  end.

Definition usage0 : Usage :=
  {| prompt_tokens := 0; completion_tokens := 0; total_tokens := 0 |}.

(** The two usage updates made for every stream event, from
    [message_start] and from [message_delta]. *)
Definition capture_usage (ev : InnerEvent) (u : Usage) : Usage :=
  let u1 :=
    match (event_type ev =? "message_start")%string, event_message ev with
    | true, Some {| message_usage := Some mu |} =>
        let p := match truthy_num (input_tokens mu) with
                 | Some n => prompt_tokens u + n | None => prompt_tokens u end in
        let c := match truthy_num (output_tokens mu) with
                 | Some n => completion_tokens u + n | None => completion_tokens u end in
        {| prompt_tokens := p; completion_tokens := c; total_tokens := total_tokens u |}
    | _, _ => u
    end in
  match (event_type ev =? "message_delta")%string, event_usage ev with
  | true, Some eu =>
      match truthy_num (output_tokens eu) with
      | Some n => {| prompt_tokens := prompt_tokens u1; completion_tokens := n;
                     total_tokens := total_tokens u1 |}
      | None => u1
      end
  | _, _ => u1
  end.

(** The text of a [content_block_delta] of [text_delta] type, when it is
    not empty. *)
Definition text_delta (ev : InnerEvent) : option string :=
  if (event_type ev =? "content_block_delta")%string then
    match event_delta ev with
    | Some d =>
        match delta_type d, delta_text d with
        | Some ty, Some t => if (ty =? "text_delta")%string && truthy t then Some t else None
        | _, _ => None
        end
    | None => None
    end
  else None.

(** The stop reason of a [message_delta], when it is not empty. *)
Definition stop_delta (ev : InnerEvent) : option string :=
  if (event_type ev =? "message_delta")%string then
    match event_delta ev with
    | Some d =>
        match stop_reason d with
        | Some r => if truthy r then Some r else None
        | None => None
        end
    | None => None
    end
  else None.

(** ** [handleStreaming] *)

Record StreamState := {
  s_resultSessionId : option string;
  s_assistantContent : string;
  s_usage : Usage;
  s_written : list Frame
}.

Definition write (f : Frame) (s : StreamState) : StreamState :=
  {| s_resultSessionId := s_resultSessionId s;
     s_assistantContent := s_assistantContent s;
     s_usage := s_usage s;
     s_written := (s_written s ++ [f])%list |}.

Definition stream_line (line : ClaudeStreamLine) (s : StreamState) : StreamState :=
  match line with
  | stream_event ev =>
      let u := capture_usage ev (s_usage s) in
      match text_delta ev with
      | Some t =>
          write (data (contentChunk t))
            {| s_resultSessionId := s_resultSessionId s;
               s_assistantContent := s_assistantContent s ++ t;
               s_usage := u;
               s_written := s_written s |}
      | None =>
          match stop_delta ev with
          | Some _ =>
              let u' := {| prompt_tokens := prompt_tokens u;
                           completion_tokens := completion_tokens u;
                           total_tokens := prompt_tokens u + completion_tokens u |} in
              write (data (usageChunk u'))
                {| s_resultSessionId := s_resultSessionId s;
                   s_assistantContent := s_assistantContent s;
                   s_usage := u';
                   s_written := s_written s |}
          | None =>
              {| s_resultSessionId := s_resultSessionId s;
                 s_assistantContent := s_assistantContent s;
                 s_usage := u;
                 s_written := s_written s |}
          end
      end
  | result sid is_err res =>
      let s1 := {| s_resultSessionId := Some sid;
                   s_assistantContent := s_assistantContent s;
                   s_usage := s_usage s;
                   s_written := s_written s |} in
      match res with
      | Some r =>
          if is_err && truthy r then
            let s2 := write (data (contentChunk (errorAnnotation r))) s1 in
            {| s_resultSessionId := s_resultSessionId s2;
               s_assistantContent := s_assistantContent s2 ++ errorAnnotation r;
               s_usage := s_usage s2;
               s_written := s_written s2 |}
          else s1
      | None => s1
      end
  | other_event => s
  end.

(** The client's side of the connection: [None] when it stays open,
    [Some n] when the response is seen destroyed once [n] lines have been
    handled (or at the end of the stream, if it has fewer); nothing is
    written from then on. *)
Definition Disconnect := option nat.

Definition stream_loop (em : LineEmitter) (disconnect : Disconnect)
  (s : StreamState) : StreamState :=
  match disconnect with
  | Some n => fold_left (fun s l => stream_line l s) (firstn n (lines em)) s
  | None =>
      let s' := fold_left (fun s l => stream_line l s) (lines em) s in
      if throws em then write (data (contentChunk STREAM_INTERRUPTED)) s' else s'
  end.

Definition stream_epilogue (stderr : string) (destroyed : bool)
  (s : StreamState) : StreamState :=
  let s1 :=
    if negb (truthy (s_assistantContent s)) && truthy stderr && negb destroyed then
      let errMsg := trim stderr in
      let s' := write (data (contentChunk ("Error: " ++ errMsg))) s in
      {| s_resultSessionId := s_resultSessionId s';
         s_assistantContent := "Error: " ++ errMsg;
         s_usage := s_usage s';
         s_written := s_written s' |}
    else s in
  if negb destroyed then
    let s2 :=
      if negb (includes "[Error:" (s_assistantContent s1))
         || startsWith "Error:" (s_assistantContent s1)
      then write (data stopChunk) s1 else s1 in
    write DONE s2
  else s1.

Definition stream_init : StreamState :=
  {| s_resultSessionId := None; s_assistantContent := "";
     s_usage := usage0; s_written := [data roleChunk] |}.

Definition stream_final (em : LineEmitter) (stderr : string)
  (disconnect : Disconnect) : StreamState :=
  stream_epilogue stderr (bool_decide (is_Some disconnect))
    (stream_loop em disconnect stream_init).

(** The session stored once the response is complete. *)
Definition store_result (messages : list OAIMessage) (sid : option string)
  (assistantContent : string) (now : Z) (st : Store) : Store :=
  match sid with
  | Some resultSessionId =>
      if truthy resultSessionId then
        let fullContext :=
          (messages
           ++ [ {| role := assistant; content := ContentString assistantContent |} ])%list in
        storeSession fullContext resultSessionId now st
      else st
  | None => st
  end.

(** The frames written and the store left behind. *)
Definition handleStreaming (messages : list OAIMessage) (em : LineEmitter)
  (stderr : string) (disconnect : Disconnect) (now : Z) (st : Store)
  : list Frame * Store :=
  let s := stream_final em stderr disconnect in
  (s_written s,
   store_result messages (s_resultSessionId s) (s_assistantContent s) now st).

(** ** [handleNonStreaming] *)

Record AggState := {
  a_assistantContent : string;
  a_resultSessionId : option string;
  a_finishReason : FinishReason;
  a_usage : Usage
}.

Definition agg_line (line : ClaudeStreamLine) (s : AggState) : AggState :=
  match line with
  | stream_event ev =>
      let u := capture_usage ev (a_usage s) in
      match text_delta ev with
      | Some t =>
          {| a_assistantContent := a_assistantContent s ++ t;
             a_resultSessionId := a_resultSessionId s;
             a_finishReason := a_finishReason s;
             a_usage := u |}
      | None =>
          match stop_delta ev with
          | Some r =>
              {| a_assistantContent := a_assistantContent s;
                 a_resultSessionId := a_resultSessionId s;
                 a_finishReason :=
                   if (r =? "end_turn")%string then finish_stop else finish_length;
                 a_usage := u |}
          | None =>
              {| a_assistantContent := a_assistantContent s;
                 a_resultSessionId := a_resultSessionId s;
                 a_finishReason := a_finishReason s;
                 a_usage := u |}
          end
      end
  | result sid is_err res =>
      {| a_assistantContent :=
           match res with
           | Some r => if is_err && truthy r then r else a_assistantContent s
           | None => a_assistantContent s
           end;
         a_resultSessionId := Some sid;
         a_finishReason := a_finishReason s;
         a_usage := a_usage s |}
  | other_event => s
  end.

Definition agg_init : AggState :=
  {| a_assistantContent := ""; a_resultSessionId := None;
     a_finishReason := finish_stop; a_usage := usage0 |}.

Definition agg_loop (ls : list ClaudeStreamLine) : AggState :=
  fold_left (fun s l => agg_line l s) ls agg_init.

(** The content after the stderr fallback. *)
Definition agg_content (stderr : string) (s : AggState) : string :=
  if negb (truthy (a_assistantContent s)) && truthy stderr
  then "Error: " ++ trim stderr
  else a_assistantContent s.

Definition agg_response (stderr : string) (s : AggState) : OAIChatCompletionResponse :=
  let total := prompt_tokens (a_usage s) + completion_tokens (a_usage s) in
  {| message_content := agg_content stderr s;
     finish_reason := a_finishReason s;
     usage :=
       if total >? 0 then
         Some {| prompt_tokens := prompt_tokens (a_usage s);
                 completion_tokens := completion_tokens (a_usage s);
                 total_tokens := total |}
       else None |}.

Definition handleNonStreaming (messages : list OAIMessage) (em : LineEmitter)
  (stderr : string) (now : Z) (st : Store) : HttpResponse * Store :=
  if throws em then (error_500, st)
  else
    let s := agg_loop (lines em) in
    (ok_200 (agg_response stderr s),
     store_result messages (a_resultSessionId s) (agg_content stderr s) now st).

(** ** Reading a stream: what each line contributes *)

(** The text a line adds to the streamed assistant content. *)
Definition line_text (l : ClaudeStreamLine) : string :=
  match l with
  | stream_event ev => default "" (text_delta ev)
  | result _ is_err (Some r) => if is_err && truthy r then errorAnnotation r else ""
  | _ => ""
  end.

(** The text of a whole stream. *)
Definition concat_text (ls : list ClaudeStreamLine) : string :=
  fold_right (fun l acc => line_text l ++ acc) "" ls.

(** The terminal stop reason a line carries, if any. *)
Definition line_stop (l : ClaudeStreamLine) : option string :=
  match l with
  | stream_event ev => stop_delta ev
  | _ => None
  end.

Definition last_stop_reason (ls : list ClaudeStreamLine) : option string :=
  last (omap line_stop ls).

(** An error result with text. *)
Definition is_error_result (l : ClaudeStreamLine) : bool :=
  match l with
  | result _ is_err (Some r) => is_err && truthy r
  | _ => false
  end.

(** A line that produces assistant content: a non-empty text delta or an
    error result with text. *)
Definition produces_content (l : ClaudeStreamLine) : bool :=
  match l with
  | stream_event ev => bool_decide (is_Some (text_delta ev))
  | _ => is_error_result l
  end.

(** A stream that produces no assistant content. *)
Definition no_content (ls : list ClaudeStreamLine) : bool :=
  forallb (fun l => negb (produces_content l)) ls.

Definition frame_finish (f : Frame) : option FinishReason :=
  match f with
  | data c => chunk_finish_reason c
  | DONE => None
  end.

(** A frame without a finish reason, or with [stop]. *)
Definition ok_finish (f : Frame) : Prop :=
  frame_finish f = None \/ frame_finish f = Some finish_stop.

Definition frame_content (f : Frame) : string :=
  match f with
  | data c => default "" (delta_content (chunk_delta c))
  | DONE => ""
  end.

(** The content a client assembles from the frames. *)
Definition streamed_content (fs : list Frame) : string :=
  fold_right (fun f acc => frame_content f ++ acc) "" fs.

(** The counters with their total brought up to date. *)
Definition totalled (u : Usage) : Usage :=
  {| prompt_tokens := prompt_tokens u;
     completion_tokens := completion_tokens u;
     total_tokens := prompt_tokens u + completion_tokens u |}.

(** The usage counters of the streaming mode after a line. *)
Definition usage_after (l : ClaudeStreamLine) (u : Usage) : Usage :=
  match l with
  | stream_event ev =>
      match stop_delta ev with
      | Some _ => totalled (capture_usage ev u)
      | None => capture_usage ev u
      end
  | _ => u
  end.

(** The frames one line gives rise to while the connection is open, [u]
    being the usage counted before it: a content chunk for a text delta,
    a finish chunk with the usage totalled so far for a stop reason, a
    content chunk with the annotation for an error result, and nothing
    otherwise. *)
Inductive emits (u : Usage) : ClaudeStreamLine -> list Frame -> Prop :=
| emits_text ev t :
    text_delta ev = Some t ->
    emits u (stream_event ev) [data (contentChunk t)]
| emits_stop ev r :
    stop_delta ev = Some r ->
    emits u (stream_event ev) [data (usageChunk (totalled (capture_usage ev u)))]
| emits_quiet ev :
    text_delta ev = None -> stop_delta ev = None ->
    emits u (stream_event ev) []
| emits_error sid r :
    truthy r = true ->
    emits u (result sid true (Some r)) [data (contentChunk (errorAnnotation r))]
| emits_result sid is_err res :
    is_error_result (result sid is_err res) = false ->
    emits u (result sid is_err res) []
| emits_other : emits u other_event [].

(** The frames of a whole stream, line by line, from the usage [u]. *)
Inductive emits_all : Usage -> list ClaudeStreamLine -> list (list Frame) -> Prop :=
| emits_nil u : emits_all u [] []
| emits_cons u l fs ls groups :
    emits u l fs ->
    emits_all (usage_after l u) ls groups ->
    emits_all u (l :: ls) (fs :: groups).

(** ** Confirmed pairs *)

Definition non_system (messages : list OAIMessage) : list OAIMessage :=
  filter (fun m => negb (is_system m)) messages.

(** Index [i] of the user/assistant messages holds a confirmed pair with
    path [p]: a user turn whose trimmed text resolves to the valid
    directory [p], followed at [i + 1] by an assistant turn. *)
Definition confirmed_at (env : Env) (userAssistantMessages : list OAIMessage)
  (i : nat) (p : string) : Prop :=
  exists m m',
    userAssistantMessages !! i = Some m
    /\ role m = user
    /\ resolveValid env (trim (getTextContent (content m))) = Some p
    /\ userAssistantMessages !! (S i) = Some m'
    /\ role m' = assistant.

(** ** Reading back an escaped character

    The inverse of [quote_char]; it shows that the escapes can be told
    apart, and that none of them begins with the closing quote. *)

Definition hex_value (c : ascii) : Z :=
  let n := Z.of_nat (nat_of_ascii c) in
  if n <? 58 then n - 48 else n - 87.

Definition unquote_char (s : string) : option (ascii * string) :=
  match s with
  | EmptyString => None
  | String c k =>
      if Ascii.eqb c DQ then None
      else if Ascii.eqb c BS then
        match k with
        | String e k1 =>
            if Ascii.eqb e DQ then Some (DQ, k1)
            else if Ascii.eqb e BS then Some (BS, k1)
            else if Ascii.eqb e "b" then Some (ascii_of_nat 8, k1)
            else if Ascii.eqb e "f" then Some (ascii_of_nat 12, k1)
            else if Ascii.eqb e "n" then Some (ascii_of_nat 10, k1)
            else if Ascii.eqb e "r" then Some (ascii_of_nat 13, k1)
            else if Ascii.eqb e "t" then Some (ascii_of_nat 9, k1)
            else
              match k1 with
              | String _ (String _ (String h (String l k2))) =>
                  Some (ascii_of_nat (Z.to_nat (16 * hex_value h + hex_value l)), k2)
              | _ => None
              end
        | EmptyString => None
        end
      else Some (c, k)
  end.

(** ** Sample messages, stores and file systems *)

Definition sample_user (s : string) : OAIMessage :=
  {| role := user; content := ContentString s |}.

Definition assistant_turn (text : string) : OAIMessage :=
  {| role := assistant; content := ContentString text |}.

Definition system_turn (text : string) : OAIMessage :=
  {| role := system; content := ContentString text |}.

Definition sample_store : Store :=
  {| sessions := <["old" := {| sessionId := "s-old"; createdAt := 999 |}]>
                 (<["new" := {| sessionId := "s-new"; createdAt := 1001 |}]> ∅);
     dirty := false |}.

Definition sample_config : Config := {| claudeWorkingDir := "/srv/default" |}.

(** A file system in which [/tmp] is a directory and paths are already
    in normal form. *)
Definition tmp_env : Env :=
  {| HOME := "/home/dev";
     path_resolve := fun p => p;
     existsSync := fun p => (p =? "/tmp")%string;
     statIsDirectory := fun p => if (p =? "/tmp")%string then Some true else None;
     realpathSync := fun p => Some p |}.

(** The history of the worked example. *)
Definition tmp_history : list OAIMessage :=
  [ sample_user "/tmp"; assistant_turn "ack"; sample_user "hello" ].

(** The same history with a system message at its end. *)
Definition tmp_history_late_system : list OAIMessage :=
  [ sample_user "/tmp"; assistant_turn "ack"; sample_user "hello";
    system_turn "be brief" ].

(** An assistant turn that begins like the confirmation message but is
    none of the synthetic texts. *)
Definition lookalike_history : list OAIMessage :=
  [ sample_user "hi"; assistant_turn (MARK_CONFIRMED ++ " Done"); sample_user "more" ].

(** Contexts with known digests. *)
Definition image_context : list OAIMessage :=
  [ {| role := user;
       content := ContentParts
         [ {| part_type := type_text; part_text := Some "hi"; part_image_url := None |};
           {| part_type := type_image_url; part_text := None;
              part_image_url :=
                Some {| url := "data:image/png;base64,AAAA"; detail := None |} |} ] |} ].

Definition escaped_context : list OAIMessage :=
  [ assistant_turn
      (String "a" (String DQ (String "b" (String BS (String "c"
        (String (ascii_of_nat 10) (String (ascii_of_nat 1)
          (String (ascii_of_nat 31) (String (ascii_of_nat 9) ""))))))))) ].

(** ** Sample events and streams *)

Definition ev_message_start (input output : option Z) : ClaudeStreamLine :=
  stream_event
    {| event_type := "message_start"; event_delta := None;
       event_message :=
         Some {| message_usage :=
                   Some {| input_tokens := input; output_tokens := output |} |};
       event_usage := None |}.

Definition ev_text (t : string) : ClaudeStreamLine :=
  stream_event
    {| event_type := "content_block_delta";
       event_delta := Some {| delta_type := Some "text_delta"; delta_text := Some t;
                              stop_reason := None |};
       event_message := None; event_usage := None |}.

Definition ev_message_delta (reason : string) (output : option Z) : ClaudeStreamLine :=
  stream_event
    {| event_type := "message_delta";
       event_delta := Some {| delta_type := None; delta_text := None;
                              stop_reason := Some reason |};
       event_message := None;
       event_usage := Some {| input_tokens := None; output_tokens := output |} |}.

Definition emitter (ls : list ClaudeStreamLine) : LineEmitter :=
  {| lines := ls; throws := false |}.

(** The stream of the worked example: 10 input tokens, the text in three
    deltas, a natural stop with 3 output tokens, and the result. *)
Definition hello_stream (output0 : option Z) (sid : string) (is_err : bool)
  (res : option string) : list ClaudeStreamLine :=
  [ ev_message_start (Some 10) output0;
    ev_text "Hel"; ev_text "lo"; ev_text "!";
    ev_message_delta "end_turn" (Some 3);
    result sid is_err res ].

(** The input on which the two modes treat an error result differently:
    one text delta, then a result flagged as an error. *)
Definition error_after_text : list ClaudeStreamLine :=
  [ ev_text "Hi"; result "sess-9" true (Some "boom") ].

(** A stream without text whose last stop reason is not [end_turn]. *)
Definition truncated_stream : list ClaudeStreamLine :=
  [ ev_message_delta "max_tokens" None ].

(** A two-turn stream: the first turn stops for a tool call, the second
    ends the exchange. *)
Definition two_turn_stream : list ClaudeStreamLine :=
  [ ev_text "a"; ev_message_delta "tool_use" (Some 2);
    ev_text "b"; ev_message_delta "end_turn" (Some 5) ].

(** ** Counting digests

    All strings of a given length, and a family of pairwise different
    texts, one for each natural number. *)

Definition all_ascii : list ascii := map ascii_of_nat (seq 0 256).

Fixpoint strings_of_length (n : nat) : list string :=
  match n with
  | O => [EmptyString]
  | S n' => flat_map (fun c => map (String c) (strings_of_length n')) all_ascii
  end.

Fixpoint text_of_size (n : nat) : string :=
  match n with
  | O => EmptyString
  | S n' => String "a" (text_of_size n')
  end.

(** * Further parts of the code

    The rest of [session.ts] (counting, persistence), the reading of the
    agent's output and the building of its prompt and arguments
    ([claude-cli.ts]), authentication and routing ([server.ts]), and
    [resolveModel]. What these take from the platform (the file system,
    [randomUUID], [JSON.parse]) is a parameter of the definitions. *)

(** ** [session.ts]: the rest of the store *)

(** [getSessionCount] *)
Definition getSessionCount (st : Store) : nat := size (sessions st).

(** An entry that a sweep at [now] with time-to-live [ttlMs] removes. *)
Definition expired (ttlMs now : Z) (e : SessionEntry) : bool :=
  now - createdAt e >? ttlMs.

(** Every stored session id is a non-empty string. *)
Definition ids_nonempty (st : Store) : Prop :=
  forall h e, sessions st !! h = Some e -> truthy (sessionId e) = true.

(** ** The translators: what a whole stream leaves behind *)

(** The session id a line reports. *)
Definition line_session (l : ClaudeStreamLine) : option string :=
  match l with
  | result sid _ _ => Some sid
  | _ => None
  end.

(** The session id held once the lines are consumed: that of the last
    result line. *)
Definition last_session_id (ls : list ClaudeStreamLine) : option string :=
  last (omap line_session ls).

(** The assistant content after the stderr fallback. *)
Definition with_fallback (stderr content : string) : string :=
  if negb (truthy content) && truthy stderr then "Error: " ++ trim stderr else content.

(** The notice written when the emitter throws. *)
Definition notice_frames (thrown : bool) : list Frame :=
  if thrown then [data (contentChunk STREAM_INTERRUPTED)] else [].

(** The frames that close an open stream whose lines gave [content]: the
    fallback chunk, the [stop] chunk and the sentinel. *)
Definition closing_frames (stderr content : string) : list Frame :=
  ((if negb (truthy content) && truthy stderr
    then [data (contentChunk ("Error: " ++ trim stderr))] else [])
   ++ (if negb (includes "[Error:" (with_fallback stderr content))
          || startsWith "Error:" (with_fallback stderr content)
       then [data stopChunk] else [])
   ++ [DONE])%list.

(** ** [completions.ts]: more on the working-directory decision *)

(** A path under one of the blocked prefixes. *)
Definition blocked (p : string) : bool :=
  existsb (fun prefix => startsWith prefix p) blockedPrefixes.

(** A text that begins with one of the three marks. *)
Definition marked (t : string) : bool :=
  startsWith MARK_CONFIRMED t || startsWith MARK_PROMPT t || startsWith MARK_INVALID t.

(** A file system in which [/tmp/link] is a symbolic link to the
    directory [/proc/1]. *)
Definition link_env : Env :=
  {| HOME := "/home/dev";
     path_resolve := fun p => p;
     existsSync := fun p => (p =? "/tmp/link")%string || (p =? "/proc/1")%string;
     statIsDirectory := fun p =>
       if (p =? "/tmp/link")%string || (p =? "/proc/1")%string then Some true else None;
     realpathSync := fun p => if (p =? "/tmp/link")%string then Some "/proc/1" else Some p |}.

(** ** [claude-cli.ts]: reading the agent's output ([parseStreamLines])

    The chunks are the texts [chunk.toString()] of the buffers read from
    the agent's standard output. [JSON_parse] stands for [JSON.parse],
    with [None] where it throws. *)

Definition is_LF (c : ascii) : bool := Ascii.eqb c (ascii_of_nat 10).

(** [buffer.indexOf("\n")] *)
Fixpoint indexOf_LF (buffer : string) : option nat :=
  match buffer with
  | EmptyString => None
  | String c rest => if is_LF c then Some O else S <$> indexOf_LF rest
  end.

(** [s.slice(0, n)] *)
Fixpoint slice_to (n : nat) (s : string) : string :=
  match n, s with
  | S n', String c s' => String c (slice_to n' s')
  | _, _ => EmptyString
  end.

(** [s.slice(n)] *)
Fixpoint slice_from (n : nat) (s : string) : string :=
  match n, s with
  | S n', String _ s' => slice_from n' s'
  | _, _ => s
  end.

Section ParseStreamLines.

Context {A : Type} (JSON_parse : string -> option A).

(** What is yielded for a trimmed line: nothing when it is empty or not
    valid JSON. *)
Definition yield_line (line : string) : list A :=
  if truthy line then
    match JSON_parse line with
    | Some parsed => [parsed]
    | None => []
    end
  else [].

(** What is yielded for a list of lines, each trimmed first. *)
Definition yield_all (ls : list string) : list A :=
  flat_map (fun l => yield_line (trim l)) ls.

(** The inner [while] loop: the values yielded and the buffer left. Each
    iteration shortens the buffer; [fuel] bounds their number. *)
Fixpoint drain (fuel : nat) (buffer : string) : list A * string :=
  match fuel with
  | O => ([], buffer)
  | S fuel' =>
      match indexOf_LF buffer with
      | None => ([], buffer)
      | Some newlineIdx =>
          let line := trim (slice_to newlineIdx buffer) in
          let buffer' := slice_from (S newlineIdx) buffer in
          let r := drain fuel' buffer' in
          ((yield_line line ++ r.1)%list, r.2)
      end
  end.

(** One iteration of the outer loop, on the values yielded so far and the
    buffer. *)
Definition on_chunk (acc : list A * string) (chunk : string) : list A * string :=
  let buffer := acc.2 ++ chunk in
  let r := drain (String.length buffer) buffer in
  ((acc.1 ++ r.1)%list, r.2).

Definition parseStreamLines (chunks : list string) : list A :=
  let r := fold_left on_chunk chunks ([], "") in
  (r.1 ++ yield_line (trim r.2))%list.

End ParseStreamLines.

(** The complete lines of a text and what follows its last line feed,
    [pending] being what precedes the text on its first line. *)
Fixpoint cut_lines (pending text : string) : list string * string :=
  match text with
  | EmptyString => ([], pending)
  | String c rest =>
      if is_LF c then
        let r := cut_lines "" rest in (pending :: r.1, r.2)
      else cut_lines (pending ++ String c "") rest
  end.

(** The whole output: the chunks one after the other. *)
Definition concat_chunks (chunks : list string) : string :=
  fold_right String.append "" chunks.

(** A parser that accepts the texts [{}] and [[]] only. *)
Definition sample_parse (s : string) : option bool :=
  if (s =? "{}")%string then Some true
  else if (s =? "[]")%string then Some false
  else None.

(** ** [claude-cli.ts]: the prompt and the arguments of the agent

    What the image handling needs from the platform: the directory
    [IMAGE_TMP_DIR], [join] of [node:path], the identifiers that
    [randomUUID] returns, in the order of the calls, and whether
    [mkdirSync] and [writeFileSync] succeed. *)
Record ImagePlatform := {
  IMAGE_TMP_DIR : string;
  path_join : string -> string -> string;
  randomUUID : nat -> string;
  mkdir_ok : bool;
  write_ok : string -> bool
}.

(** The state it changes: the number of identifiers drawn and the files
    written, latest last, each with the base64 text whose decoding is its
    content. A computation answers [None] when a call throws. *)
Record ImageState := { drawn : nat; files : list (string * string) }.

(** [\w] *)
Definition is_word (c : ascii) : bool :=
  let n := nat_of_ascii c in
  ((48 <=? n)%nat && (n <=? 57)%nat) || ((65 <=? n)%nat && (n <=? 90)%nat)
  || (n =? 95)%nat || ((97 <=? n)%nat && (n <=? 122)%nat).

(** The rest of [s] after the prefix [p], when it starts with it. *)
Fixpoint strip_prefix (p s : string) : option string :=
  match p with
  | EmptyString => Some s
  | String a p' =>
      match s with
      | String b s' => if Ascii.eqb a b then strip_prefix p' s' else None
      | EmptyString => None
      end
  end.

(** The longest run of word characters at the start of [s], and the rest. *)
Fixpoint span_word (s : string) : string * string :=
  match s with
  | String c s' =>
      if is_word c then let r := span_word s' in (String c r.1, r.2) else ("", s)
  | EmptyString => ("", "")
  end.

(** U+2028 and U+2029 in UTF-8. *)
Definition LINE_SEPARATOR : string :=
  String (ascii_of_nat 226) (String (ascii_of_nat 128) (String (ascii_of_nat 168) "")).
Definition PARAGRAPH_SEPARATOR : string :=
  String (ascii_of_nat 226) (String (ascii_of_nat 128) (String (ascii_of_nat 169) "")).

(** A text with a line terminator, which [.] does not match. *)
Fixpoint has_line_terminator (s : string) : bool :=
  match s with
  | EmptyString => false
  | String c s' =>
      (nat_of_ascii c =? 10)%nat || (nat_of_ascii c =? 13)%nat
      || startsWith LINE_SEPARATOR s || startsWith PARAGRAPH_SEPARATOR s
      || has_line_terminator s'
  end.

(** [dataUrl.match(/^data:image\/(\w+);base64,(.+)$/)]: the two groups.
    The run of word characters cannot be cut short, since a semicolon
    must follow it. *)
Definition match_data_url (dataUrl : string) : option (string * string) :=
  match strip_prefix "data:image/" dataUrl with
  | None => None
  | Some s1 =>
      let r := span_word s1 in
      if truthy r.1 then
        match strip_prefix ";base64," r.2 with
        | Some payload =>
            if truthy payload && negb (has_line_terminator payload)
            then Some (r.1, payload) else None
        | None => None
        end
      else None
  end.

Definition saveBase64Image (pf : ImagePlatform) (dataUrl : string) (st : ImageState)
  : option (string * ImageState) :=
  if negb (mkdir_ok pf) then None
  else
    match match_data_url dataUrl with
    | None => Some ("", st)
    | Some (m1, m2) =>
        let ext := if (m1 =? "jpeg")%string then "jpg" else m1 in
        let filePath :=
          path_join pf (IMAGE_TMP_DIR pf) (randomUUID pf (drawn st) ++ "." ++ ext) in
        if write_ok pf filePath then
          Some (filePath,
                {| drawn := S (drawn st);
                   files := (files st ++ [(filePath, m2)])%list |})
        else None
    end.

Definition image_saved_note (filePath : string) : string :=
  "[User sent an image, saved at: " ++ filePath ++ " — use the Read tool to view it]".

Definition image_url_note (u : string) : string :=
  "[User sent an image: " ++ u ++ "]".

(** The loop of [getTextContentWithImages] over the parts, [acc] being
    the texts pushed so far. *)
Fixpoint collect_parts (pf : ImagePlatform) (ps : list OAIContentPart)
  (acc : list string) (st : ImageState) : option (list string * ImageState) :=
  match ps with
  | [] => Some (acc, st)
  | p :: rest =>
      if is_text_part p then
        collect_parts pf rest (acc ++ [default "" (part_text p)])%list st
      else
        match part_type p, part_image_url p with
        | type_image_url, Some img =>
            if truthy (url img) then
              if startsWith "data:image/" (url img) then
                match saveBase64Image pf (url img) st with
                | None => None
                | Some (filePath, st') =>
                    if truthy filePath
                    then collect_parts pf rest (acc ++ [image_saved_note filePath])%list st'
                    else collect_parts pf rest acc st'
                end
              else collect_parts pf rest (acc ++ [image_url_note (url img)])%list st
            else collect_parts pf rest acc st
        | _, _ => collect_parts pf rest acc st
        end
  end.

Definition getTextContentWithImages (pf : ImagePlatform) (c : Content)
  (st : ImageState) : option (string * ImageState) :=
  match c with
  | ContentString s => Some (s, st)
  | ContentParts ps =>
      match collect_parts pf ps [] st with
      | Some (texts, st') => Some (join LF texts, st')
      | None => None
      end
  end.

(** The loop of [buildPrompt] over the messages that are not system
    messages. *)
Fixpoint label_parts (pf : ImagePlatform) (msgs : list OAIMessage)
  (acc : list string) (st : ImageState) : option (list string * ImageState) :=
  match msgs with
  | [] => Some (acc, st)
  | msg :: rest =>
      let label := if is_user msg then "User" else "Assistant" in
      match getTextContentWithImages pf (content msg) st with
      | Some (text, st') => label_parts pf rest (acc ++ [(label ++ ": " ++ text)%string])%list st'
      | None => None
      end
  end.

(** [buildPrompt]; reading the content of the last message of an empty
    list throws. *)
Definition buildPrompt (pf : ImagePlatform) (messages : list OAIMessage)
  (hasSession : bool) (st : ImageState) : option (string * ImageState) :=
  let lastMessage := last messages in
  if hasSession then
    match lastMessage with
    | Some m => getTextContentWithImages pf (content m) st
    | None => None
    end
  else if (length messages =? 1)%nat then
    match lastMessage with
    | Some m => getTextContentWithImages pf (content m) st
    | None => None
    end
  else
    let nonSystemMessages := filter (fun m => negb (is_system m)) messages in
    match nonSystemMessages with
    | [m] => getTextContentWithImages pf (content m) st
    | _ =>
        match label_parts pf nonSystemMessages [] st with
        | Some (texts, st') => Some (join (LF ++ LF) texts, st')
        | None => None
        end
    end.

(** The fields of the configuration that [spawnClaude] reads besides the
    working directory; [claudeMaxTurns] is held as its text,
    [String(config.claudeMaxTurns)]. *)
Record CliConfig := {
  claudePath : string;
  claudePermissionMode : string;
  claudeMaxTurns : string
}.

(** The call that [spawnClaude] makes to [spawn]. *)
Record Spawn := {
  spawn_command : string;
  spawn_args : list string;
  spawn_dir : string
}.

Definition base_args (cli : CliConfig) (prompt model : string) : list string :=
  [ "-p"; prompt; "--output-format"; "stream-json"; "--verbose";
    "--include-partial-messages"; "--model"; model;
    "--permission-mode"; claudePermissionMode cli;
    "--max-turns"; claudeMaxTurns cli ].

Definition resume_args (sessionId : option string) : list string :=
  match sessionId with
  | Some s => if truthy s then ["--resume"; s] else []
  | None => []
  end.

Definition system_args (messages : list OAIMessage) : list string :=
  match List.find is_system messages with
  | Some systemMessage => ["--system-prompt"; getTextContent (content systemMessage)]
  | None => []
  end.

Definition spawnClaude (pf : ImagePlatform) (cli : CliConfig) (config : Config)
  (messages : list OAIMessage) (model : string) (sessionId : option string)
  (workingDir : option string) (st : ImageState) : option (Spawn * ImageState) :=
  match buildPrompt pf messages (bool_decide (is_Some sessionId)) st with
  | Some (prompt, st') =>
      Some ({| spawn_command := claudePath cli;
               spawn_args :=
                 (base_args cli prompt model ++ resume_args sessionId
                  ++ system_args messages)%list;
               spawn_dir := spawn_cwd config workingDir |}, st')
  | None => None
  end.

(** A content part that makes [getTextContentWithImages] add an image
    note or save a file. *)
Definition is_image_part (p : OAIContentPart) : bool :=
  negb (is_text_part p) &&
  match part_type p, part_image_url p with
  | type_image_url, Some img => truthy (url img)
  | _, _ => false
  end.

Definition text_only (c : Content) : bool :=
  match c with
  | ContentString _ => true
  | ContentParts ps => forallb (fun p => negb (is_image_part p)) ps
  end.

(** A text made of word characters. *)
Fixpoint all_word (s : string) : bool :=
  match s with
  | EmptyString => true
  | String c s' => is_word c && all_word s'
  end.

(** A sample platform and configuration. *)
Definition sample_platform : ImagePlatform :=
  {| IMAGE_TMP_DIR := "/tmp/claude-code-proxy-images";
     path_join := fun d f => d ++ "/" ++ f;
     randomUUID := fun n => if (n =? 0)%nat then "uuid-0" else "uuid-n";
     mkdir_ok := true;
     write_ok := fun _ => true |}.

Definition sample_cli : CliConfig :=
  {| claudePath := "claude"; claudePermissionMode := "default"; claudeMaxTurns := "25" |}.

Definition image_state0 : ImageState := {| drawn := 0; files := [] |}.

Definition image_part (u : string) : OAIContentPart :=
  {| part_type := type_image_url; part_text := None;
     part_image_url := Some {| url := u; detail := None |} |}.

Definition text_part (t : string) : OAIContentPart :=
  {| part_type := type_text; part_text := Some t; part_image_url := None |}.

(** ** [server.ts]: authentication and routing *)

(** The white space characters, [\s], in UTF-8. *)
Definition space_encodings : list string :=
  let byte (n : Z) := ascii_of_nat (Z.to_nat n) in
  let b1 (a : Z) := String (byte a) "" in
  let b2 (a b : Z) := String (byte a) (String (byte b) "") in
  let b3 (a b c : Z) := String (byte a) (String (byte b) (String (byte c) "")) in
  [ b1 9; b1 10; b1 11; b1 12; b1 13; b1 32;
    b2 194 160;
    b3 225 154 128;
    b3 226 128 128; b3 226 128 129; b3 226 128 130; b3 226 128 131;
    b3 226 128 132; b3 226 128 133; b3 226 128 134; b3 226 128 135;
    b3 226 128 136; b3 226 128 137; b3 226 128 138;
    b3 226 128 168; b3 226 128 169; b3 226 128 175;
    b3 226 129 159;
    b3 227 128 128;
    b3 239 187 191 ].

(** The text after one white space character, if [s] starts with one. *)
Definition drop_space (s : string) : option string :=
  fold_right
    (fun w found => match strip_prefix w s with Some r => Some r | None => found end)
    None space_encodings.

(** The text after the longest run of white space at the start of [s];
    each step shortens the text, and [fuel] bounds their number. *)
Fixpoint skip_spaces (fuel : nat) (s : string) : string :=
  match fuel with
  | O => s
  | S fuel' =>
      match drop_space s with
      | Some s' => skip_spaces fuel' s'
      | None => s
      end
  end.

(** The letters that the flag [i] identifies. *)
Definition fold_case (c : ascii) : ascii :=
  let n := nat_of_ascii c in
  if (65 <=? n)%nat && (n <=? 90)%nat then ascii_of_nat (n + 32) else c.

Fixpoint strip_prefix_ci (p s : string) : option string :=
  match p with
  | EmptyString => Some s
  | String a p' =>
      match s with
      | String b s' =>
          if Ascii.eqb (fold_case a) (fold_case b) then strip_prefix_ci p' s' else None
      | EmptyString => None
      end
  end.

(** [authHeader.replace(/^Bearer\s+/i, "")] *)
Definition strip_bearer (authHeader : string) : string :=
  match strip_prefix_ci "Bearer" authHeader with
  | Some rest =>
      match drop_space rest with
      | Some rest' => skip_spaces (String.length rest') rest'
      | None => authHeader
      end
  | None => authHeader
  end.

(** A request as the server reads it: the method, the URL and the
    [authorization] header, each of which may be missing. *)
Record Request := {
  req_method : option string;
  req_url : option string;
  req_authorization : option string
}.

(** [x || fallback] on a string that may be missing *)
Definition or_else (x : option string) (fallback : string) : string :=
  match x with
  | Some s => if truthy s then s else fallback
  | None => fallback
  end.

Definition checkAuth (req : Request) (apiKey : string) : bool :=
  let authHeader := or_else (req_authorization req) "" in
  let token := strip_bearer authHeader in
  (token =? apiKey)%string.

(** What the server does with a request: one of the fixed replies, or the
    call of [handleChatCompletions]. *)
Inductive Routed :=
| reply_options_204
| reply_health_200
| reply_unauthorized_401
| reply_models_200
| call_handleChatCompletions
| reply_not_found_404.

Definition route (apiKey : string) (req : Request) : Routed :=
  let url := or_else (req_url req) "/" in
  let method := or_else (req_method req) "GET" in
  if (method =? "OPTIONS")%string then reply_options_204
  else if (url =? "/health")%string || (url =? "/health/")%string then reply_health_200
  else if startsWith "/v1/" url && negb (checkAuth req apiKey) then reply_unauthorized_401
  else if (url =? "/v1/models")%string || (url =? "/v1/models/")%string
  then reply_models_200
  else if ((url =? "/v1/chat/completions")%string
           || (url =? "/v1/chat/completions/")%string)
          && (method =? "POST")%string
  then call_handleChatCompletions
  else reply_not_found_404.

(** A request for a completion with the key sent as a bearer token. *)
Definition sample_request (auth : option string) : Request :=
  {| req_method := Some "POST"; req_url := Some "/v1/chat/completions";
     req_authorization := auth |}.

(** ** [session.ts]: persistence

    The session file is read and written through [JSON.parse] and
    [JSON.stringify], which stand here as [decode], with [None] where the
    text is not that of an object of session entries, and [encode]. The
    state is the store together with [persistPath], whether the flush
    timer is set, and the files on disk. *)

Record Persisted := {
  p_store : Store;
  p_path : option string;
  p_timer : bool;
  p_disk : gmap string string
}.

(** The process as it starts. *)
Definition fresh (disk : gmap string string) : Persisted :=
  {| p_store := empty_store; p_path := None; p_timer := false; p_disk := disk |}.

(** How a call of [writeFileSync] ends: the text is written, or the
    call throws. It opens the file with truncation before it writes, so a
    call that throws may leave the file as it was, empty, or cut short:
    [left_behind] is what the path holds afterwards, [None] when no file
    is there. *)
Inductive WriteOutcome :=
| write_done
| write_failed (left_behind : option string).

(** The object that [flushSessions] fills by assignment: assigning to
    the key [__proto__] adds no property. *)
Definition flush_object (m : gmap string SessionEntry) : gmap string SessionEntry :=
  delete "__proto__" m.

Section Persistence.

Context (encode : gmap string SessionEntry -> string)
        (decode : string -> option (gmap string SessionEntry)).

(** [read_ok] tells whether [readFileSync] succeeds on an existing file. *)
Definition initSessionPersistence (filePath : string) (read_ok : bool)
  (s : Persisted) : Persisted :=
  let restored :=
    match p_disk s !! filePath with
    | Some text =>
        if read_ok then
          match decode text with
          | Some entries => entries ∪ sessions (p_store s)
          | None => sessions (p_store s)
          end
        else sessions (p_store s)
    | None => sessions (p_store s)
    end in
  {| p_store := {| sessions := restored; dirty := dirty (p_store s) |};
     p_path := Some filePath;
     p_timer := true;
     p_disk := p_disk s |}.

(** [outcome] tells how [writeFileSync] ends. Sessions, flag and timer
    are as before when it throws. *)
Definition flushSessions (outcome : WriteOutcome) (s : Persisted) : Persisted :=
  match p_path s with
  | Some path =>
      if truthy path then
        match outcome with
        | write_done =>
            {| p_store := {| sessions := sessions (p_store s); dirty := false |};
               p_path := p_path s;
               p_timer := p_timer s;
               p_disk :=
                 <[path := encode (flush_object (sessions (p_store s)))]> (p_disk s) |}
        | write_failed left_behind =>
            {| p_store := p_store s;
               p_path := p_path s;
               p_timer := p_timer s;
               p_disk :=
                 match left_behind with
                 | Some text => <[path := text]> (p_disk s)
                 | None => delete path (p_disk s)
                 end |}
        end
      else s
  | None => s
  end.

(** The callback of the flush timer. *)
Definition flush_tick (outcome : WriteOutcome) (s : Persisted) : Persisted :=
  if p_timer s && dirty (p_store s) then flushSessions outcome s else s.

Definition shutdownSessions (outcome : WriteOutcome) (s : Persisted) : Persisted :=
  let s1 := {| p_store := p_store s; p_path := p_path s; p_timer := false;
               p_disk := p_disk s |} in
  if dirty (p_store s1) then flushSessions outcome s1 else s1.

End Persistence.

(** A codec for the sample store only. *)
Definition sample_encode (m : gmap string SessionEntry) : string := "{sample}".
Definition sample_decode (text : string) : option (gmap string SessionEntry) :=
  if (text =? "{sample}")%string then Some (sessions sample_store) else None.

(** ** [completions.ts] and [server.ts]: model names *)

(** The value of [aliases[requestModel] || requestModel || defaultModel]:
    a model name, or the member of [Object.prototype] that the look-up in
    the alias object finds under the requested name. *)
Inductive ModelValue :=
| model_name (name : string)
| inherited_member (property : string).

Definition aliases : list (string * string) :=
  [ ("sonnet", "claude-sonnet-4-5-20250929");
    ("opus", "claude-opus-4-6");
    ("haiku", "claude-haiku-4-5-20251001") ].

Definition object_prototype_names : list string :=
  [ "constructor"; "hasOwnProperty"; "isPrototypeOf"; "propertyIsEnumerable";
    "toLocaleString"; "toString"; "valueOf"; "__proto__";
    "__defineGetter__"; "__defineSetter__"; "__lookupGetter__"; "__lookupSetter__" ].

Fixpoint alias_of (name : string) (table : list (string * string)) : option string :=
  match table with
  | [] => None
  | (a, full) :: rest => if (a =? name)%string then Some full else alias_of name rest
  end.

(** [requestModel] is [None] when the request has no [model] field. *)
Definition resolveModel (requestModel : option string) (defaultModel : string)
  : ModelValue :=
  match requestModel with
  | None => model_name defaultModel
  | Some m =>
      match alias_of m aliases with
      | Some full => model_name full
      | None =>
          if existsb (String.eqb m) object_prototype_names then inherited_member m
          else if truthy m then model_name m
          else model_name defaultModel
      end
  end.

(** The ids of [MODELS]. *)
Definition MODELS : list string :=
  [ "claude-sonnet-4-5-20250929"; "claude-opus-4-6"; "claude-haiku-4-5-20251001" ].

(** ** Token counts *)

(** Two usage records with the same prompt and completion counts. *)
Definition same_counts (u v : Usage) : Prop :=
  prompt_tokens u = prompt_tokens v /\ completion_tokens u = completion_tokens v.

(** A line that is not a stream event. *)
Definition not_stream_event (l : ClaudeStreamLine) : Prop :=
  match l with
  | stream_event _ => False
  | _ => True
  end.

(** * Properties *)

(** ** The primitives on sample inputs *)

Example trim_stderr :
  trim ("  permission denied " ++ LF) = "permission denied".
Proof. reflexivity. Qed.

Example trim_blank : trim (" " ++ LF) = "".
Proof. reflexivity. Qed.

Example includes_annotation_mark :
  includes "[Error:" "done [Error: x]" = true
  /\ includes "[Error:" "Error: x" = false
  /\ startsWith "Error:" "Error: x" = true.
Proof. repeat split. Qed.

Example getTextContent_parts :
  getTextContent
    (ContentParts
       [ {| part_type := type_text; part_text := Some "a"; part_image_url := None |};
         {| part_type := type_image_url; part_text := None;
            part_image_url := Some {| url := "http://x/y.png"; detail := None |} |};
         {| part_type := type_text; part_text := Some ""; part_image_url := None |};
         {| part_type := type_text; part_text := Some "b"; part_image_url := None |} ])
  = "a" ++ LF ++ "b".
Proof. reflexivity. Qed.

Example resolvePath_samples :
  resolvePath tmp_env "~/work" = Some "/home/dev/work"
  /\ resolvePath tmp_env "/tmp" = Some "/tmp"
  /\ resolvePath tmp_env "/proc/1" = None
  /\ resolvePath tmp_env "hello" = None.
Proof. repeat split. Qed.

(** A new conversation: a valid directory is confirmed, a path that is
    not a directory is rejected, anything else is answered by the prompt. *)
Example new_conversation_samples :
  handleChatCompletions tmp_env sample_config empty_store [sample_user "/tmp"]
    = FakeResponse (PATH_CONFIRMED "/tmp")
  /\ handleChatCompletions tmp_env sample_config empty_store [sample_user "/nowhere"]
    = FakeResponse PATH_INVALID
  /\ handleChatCompletions tmp_env sample_config empty_store [sample_user "hello"]
    = FakeResponse PATH_PROMPT
  /\ handleChatCompletions tmp_env sample_config empty_store [] = BadRequest.
Proof. repeat split. Qed.

(** ** Session store *)

Lemma lookupSession_pure (C : list OAIMessage) (st : Store) :
  (lookupSession C st).2 = st.
Proof.
  unfold lookupSession.
  destruct (length C =? 0)%nat; [reflexivity|].
  destruct (sessions st !! hashMessages C); reflexivity.
Qed.

Lemma cleanup_fold_lookup (ttlMs now : Z) (h : string) :
  forall (l : list (string * SessionEntry)) (m : gmap string SessionEntry) (n : nat),
    (fold_left (cleanup_step ttlMs now) l (m, n)).1 !! h =
    if existsb (fun he => bool_decide (he.1 = h) && (now - createdAt he.2 >? ttlMs)) l
    then None else m !! h.
Proof.
  induction l as [|[k e] l IH]; intros m n; simpl; [reflexivity|].
  unfold cleanup_step at 2; simpl.
  destruct (now - createdAt e >? ttlMs) eqn:Hexp.
  - rewrite IH. rewrite andb_true_r.
    destruct (existsb _ l); [by rewrite orb_true_r|].
    rewrite orb_false_r. case_bool_decide as Hk.
    + subst. apply lookup_delete_eq.
    + by apply lookup_delete_ne.
  - rewrite IH. by rewrite andb_false_r.
Qed.

Lemma cleanup_lookup (ttlMs now : Z) (st : Store) (h : string) :
  sessions (cleanupSessions ttlMs now st) !! h =
  match sessions st !! h with
  | Some e => if now - createdAt e >? ttlMs then None else Some e
  | None => None
  end.
Proof.
  unfold cleanupSessions; simpl. rewrite cleanup_fold_lookup.
  destruct (existsb _ _) eqn:Hex.
  - apply existsb_exists in Hex as [[k e] [Hin Hk]].
    apply andb_true_iff in Hk as [Hk Hexp]. apply bool_decide_eq_true in Hk.
    simpl in *; subst k.
    apply list_elem_of_In, elem_of_map_to_list in Hin.
    by rewrite Hin, Hexp.
  - destruct (sessions st !! h) as [e|] eqn:Hh; [|reflexivity].
    destruct (now - createdAt e >? ttlMs) eqn:Hexp; [|reflexivity].
    exfalso. apply not_true_iff_false in Hex. apply Hex.
    apply existsb_exists. exists (h, e). split.
    + by apply list_elem_of_In, elem_of_map_to_list.
    + simpl. rewrite Hexp. by rewrite bool_decide_eq_true_2.
Qed.

Lemma lookup_after_store (C : list OAIMessage) (S : string) (now : Z) (st : Store) :
  C <> [] ->
  lookupSession C (storeSession C S now st) = (Some S, storeSession C S now st).
Proof.
  intros HC. unfold lookupSession.
  destruct C as [|m C]; [done|]. simpl length. simpl Nat.eqb.
  unfold storeSession at 1; simpl. by rewrite lookup_insert_eq.
Qed.

(** C7 (as amended). For a non-empty context [C], [storeSession C S]
    followed by [lookupSession C] returns [S]; [lookupSession] returns
    nothing on the empty context and on a context whose digest has no
    entry; and it never changes the store. *)
Theorem C7_store_then_lookup :
  (forall (C : list OAIMessage) (S : string) (now : Z) (st : Store),
      C <> [] ->
      lookupSession C (storeSession C S now st) = (Some S, storeSession C S now st))
  /\ (forall st : Store, lookupSession [] st = (None, st))
  /\ (forall (C : list OAIMessage) (st : Store),
      sessions st !! hashMessages C = None -> lookupSession C st = (None, st))
  /\ (forall (C : list OAIMessage) (st : Store), (lookupSession C st).2 = st).
Proof.
  repeat split.
  - apply lookup_after_store.
  - intros C st Hnone. unfold lookupSession.
    destruct (length C =? 0)%nat; [reflexivity|]. by rewrite Hnone.
  - apply lookupSession_pure.
Qed.

Lemma C7_witness :
  [sample_user "hi"] <> [] /\
  lookupSession [sample_user "hi"]
      (storeSession [sample_user "hi"] "sess-1" 1000 empty_store)
    = (Some "sess-1", storeSession [sample_user "hi"] "sess-1" 1000 empty_store).
Proof.
  split; [discriminate|].
  apply (proj1 C7_store_then_lookup). discriminate.
Defined.

(** C7 as stated fails on the empty context: after [storeSession [] S],
    [lookupSession []] still returns nothing. *)
Lemma C7_empty_context_counterexample :
  (lookupSession [] (storeSession [] "sess-1" 1000 empty_store)).1 <> Some "sess-1".
Proof. unfold lookupSession. simpl. discriminate. Qed.

(** C8. [cleanupSessions ttl] removes exactly the entries whose age
    [now - createdAt] exceeds [ttl] and keeps every other entry as it
    was; an entry of age [ttl - eps] stays and one of age [ttl + eps]
    goes, for every [eps > 0]. *)
Theorem C8_sweep_exact (ttlMs now : Z) (st : Store) :
  (forall h e, sessions st !! h = Some e -> now - createdAt e > ttlMs ->
     sessions (cleanupSessions ttlMs now st) !! h = None)
  /\ (forall h e, sessions st !! h = Some e -> now - createdAt e <= ttlMs ->
     sessions (cleanupSessions ttlMs now st) !! h = Some e)
  /\ (forall h, sessions st !! h = None ->
     sessions (cleanupSessions ttlMs now st) !! h = None)
  /\ (forall h e eps, 0 < eps -> sessions st !! h = Some e ->
     (now - createdAt e = ttlMs - eps ->
        sessions (cleanupSessions ttlMs now st) !! h = Some e)
     /\ (now - createdAt e = ttlMs + eps ->
        sessions (cleanupSessions ttlMs now st) !! h = None)).
Proof.
  assert (Hgone : forall h e, sessions st !! h = Some e -> now - createdAt e > ttlMs ->
     sessions (cleanupSessions ttlMs now st) !! h = None).
  { intros h e Hh Hage. rewrite cleanup_lookup, Hh.
    destruct (Z.gtb_spec (now - createdAt e) ttlMs); [reflexivity|lia]. }
  assert (Hkept : forall h e, sessions st !! h = Some e -> now - createdAt e <= ttlMs ->
     sessions (cleanupSessions ttlMs now st) !! h = Some e).
  { intros h e Hh Hage. rewrite cleanup_lookup, Hh.
    destruct (Z.gtb_spec (now - createdAt e) ttlMs); [lia|reflexivity]. }
  split; [exact Hgone|]. split; [exact Hkept|]. split.
  - intros h Hh. by rewrite cleanup_lookup, Hh.
  - intros h e eps Heps Hh. split; intros Hage.
    + apply Hkept; [assumption|lia].
    + apply (Hgone h e); [assumption|lia].
Qed.

Lemma C8_witness :
  sessions (cleanupSessions 3000 4000 sample_store) !! "old" = None
  /\ sessions (cleanupSessions 3000 4000 sample_store) !! "new"
     = Some {| sessionId := "s-new"; createdAt := 1001 |}.
Proof.
  destruct (C8_sweep_exact 3000 4000 sample_store) as (Hgone & Hkept & _).
  split.
  - apply (Hgone "old" {| sessionId := "s-old"; createdAt := 999 |});
      [reflexivity | simpl; lia].
  - apply (Hkept "new" {| sessionId := "s-new"; createdAt := 1001 |});
      [reflexivity | simpl; lia].
Defined.

(** ** Stream translation *)

Lemma store_result_lookup (messages : list OAIMessage) (sid text : string)
  (now : Z) (st : Store) :
  truthy sid = true ->
  let st' := store_result messages (Some sid) text now st in
  sessions st' !! hashMessages (messages ++ [assistant_turn text])
    = Some {| sessionId := sid; createdAt := now |}
  /\ lookupSession (messages ++ [assistant_turn text]) st' = (Some sid, st').
Proof.
  intros Hsid. unfold store_result. rewrite Hsid. cbv zeta.
  fold (assistant_turn text). split.
  - unfold storeSession; simpl. apply lookup_insert_eq.
  - apply lookup_after_store. by destruct messages.
Qed.

Lemma hello_stream_aggregate (output0 : option Z) (sid : string) (res : option string) :
  agg_loop (hello_stream output0 sid false res) =
  {| a_assistantContent := "Hello!"; a_resultSessionId := Some sid;
     a_finishReason := finish_stop;
     a_usage := {| prompt_tokens := 10; completion_tokens := 3; total_tokens := 0 |} |}.
Proof.
  unfold agg_loop, hello_stream.
  destruct output0 as [n|]; [destruct (n =? 0) eqn:Hn|];
    cbn; rewrite ?Hn; cbn; destruct res; reflexivity.
Qed.

(** C4. On the stream [message_start] (10 input tokens), text deltas
    "Hel", "lo", "!", [message_delta] (stop reason [end_turn], 3 output
    tokens) and a [result] carrying a session id, the non-streaming
    translation answers with content "Hello!", finish reason [stop] and
    usage 10/3/13, and the store then maps the message list extended
    with the assistant turn "Hello!" to that session id. *)
Theorem C4_hello_nonstreaming (messages : list OAIMessage) (output0 : option Z)
  (sid : string) (res : option string) (stderr : string) (now : Z) (st : Store) :
  truthy sid = true ->
  let r := handleNonStreaming messages
             (emitter (hello_stream output0 sid false res)) stderr now st in
  r.1 = ok_200 {| message_content := "Hello!"; finish_reason := finish_stop;
                  usage := Some {| prompt_tokens := 10; completion_tokens := 3;
                                   total_tokens := 13 |} |}
  /\ sessions r.2 !! hashMessages (messages ++ [assistant_turn "Hello!"])
     = Some {| sessionId := sid; createdAt := now |}
  /\ lookupSession (messages ++ [assistant_turn "Hello!"]) r.2 = (Some sid, r.2).
Proof.
  intros Hsid r. subst r. unfold handleNonStreaming, emitter. cbn [throws lines].
  rewrite hello_stream_aggregate. cbn [fst snd].
  split; [reflexivity|].
  change (agg_content stderr _) with "Hello!". cbn [a_resultSessionId].
  apply store_result_lookup, Hsid.
Qed.

Lemma C4_witness :
  (handleNonStreaming [sample_user "say hello"]
     (emitter (hello_stream None "sess-42" false None)) "" 1000 empty_store).1
  = ok_200 {| message_content := "Hello!"; finish_reason := finish_stop;
              usage := Some {| prompt_tokens := 10; completion_tokens := 3;
                               total_tokens := 13 |} |}.
Proof.
  apply (C4_hello_nonstreaming [sample_user "say hello"] None "sess-42" None ""
           1000 empty_store).
  reflexivity.
Defined.

Lemma string_app_assoc (a b c : string) : (a ++ b) ++ c = a ++ (b ++ c).
Proof.
  induction a as [|x a IH]; [reflexivity|].
  change (String x ((a ++ b) ++ c) = String x (a ++ (b ++ c))). by rewrite IH.
Qed.

Lemma string_app_nil_r (a : string) : a ++ "" = a.
Proof.
  induction a as [|x a IH]; [reflexivity|].
  change (String x (a ++ "") = String x a). by rewrite IH.
Qed.

Lemma streamed_content_app (fs gs : list Frame) :
  streamed_content (fs ++ gs) = streamed_content fs ++ streamed_content gs.
Proof.
  induction fs as [|f fs IH]; [reflexivity|].
  change (frame_content f ++ streamed_content (fs ++ gs)
          = (frame_content f ++ streamed_content fs) ++ streamed_content gs).
  by rewrite IH, string_app_assoc.
Qed.

(** A stop reason is never read from a text delta. *)
Lemma stop_delta_not_text (ev : InnerEvent) (r : string) :
  stop_delta ev = Some r -> text_delta ev = None.
Proof.
  unfold stop_delta, text_delta.
  destruct (String.eqb_spec (event_type ev) "message_delta") as [->|]; [|discriminate].
  reflexivity.
Qed.

(** One step of the streaming loop: the frames it writes are those the
    line emits, its text is appended to the content, and the counters
    move on. *)
Lemma stream_line_spec (l : ClaudeStreamLine) (s : StreamState) :
  exists fs,
    emits (s_usage s) l fs
    /\ s_written (stream_line l s) = (s_written s ++ fs)%list
    /\ s_assistantContent (stream_line l s) = s_assistantContent s ++ line_text l
    /\ s_usage (stream_line l s) = usage_after l (s_usage s)
    /\ streamed_content fs = line_text l.
Proof.
  destruct l as [ev|sid is_err res|]; unfold stream_line, line_text, usage_after.
  - destruct (text_delta ev) as [t|] eqn:Ht.
    + exists [data (contentChunk t)]. split; [by apply emits_text|].
      destruct (stop_delta ev) as [r|] eqn:Hr;
        [by rewrite (stop_delta_not_text _ _ Hr) in Ht|].
      simpl. by rewrite string_app_nil_r.
    + destruct (stop_delta ev) as [r|] eqn:Hr.
      * exists [data (usageChunk (totalled (capture_usage ev (s_usage s))))].
        split; [by eapply emits_stop|].
        simpl. by rewrite string_app_nil_r.
      * exists []. split; [by apply emits_quiet|].
        simpl. by rewrite app_nil_r, string_app_nil_r.
  - destruct res as [r|]; [destruct (is_err && truthy r) eqn:He|].
    + apply andb_true_iff in He as [-> Hr].
      exists [data (contentChunk (errorAnnotation r))].
      split; [by apply emits_error|].
      simpl. by rewrite string_app_nil_r.
    + exists []. split; [apply emits_result; exact He|].
      simpl. by rewrite app_nil_r, string_app_nil_r.
    + exists []. split; [by apply emits_result|].
      simpl. by rewrite app_nil_r, string_app_nil_r.
  - exists []. split; [apply emits_other|].
    simpl. by rewrite app_nil_r, string_app_nil_r.
Qed.

Lemma stream_fold_spec (ls : list ClaudeStreamLine) :
  forall s : StreamState,
  exists groups,
    emits_all (s_usage s) ls groups
    /\ s_written (fold_left (fun s l => stream_line l s) ls s)
       = (s_written s ++ concat groups)%list
    /\ s_assistantContent (fold_left (fun s l => stream_line l s) ls s)
       = s_assistantContent s ++ concat_text ls
    /\ streamed_content (concat groups) = concat_text ls.
Proof.
  induction ls as [|l ls IH]; intros s; simpl.
  - exists []. rewrite app_nil_r, string_app_nil_r. repeat split. constructor.
  - destruct (stream_line_spec l s) as (fs & Hem & Hw & Hc & Hu & Hsc).
    destruct (IH (stream_line l s)) as (groups & Hall & Hw' & Hc' & Hsc').
    exists (fs :: groups). split; [constructor; [exact Hem|by rewrite <- Hu]|].
    rewrite Hw', Hw, Hc', Hc. simpl.
    rewrite <- app_assoc, string_app_assoc, streamed_content_app, Hsc, Hsc'.
    repeat split.
Qed.

Lemma agg_line_error_result (sid r : string) (s : AggState) :
  truthy r = true ->
  a_assistantContent (agg_line (result sid true (Some r)) s) = r.
Proof. intros Hr. simpl. by rewrite Hr. Qed.

Lemma stream_line_error_result (sid r : string) (s : StreamState) :
  truthy r = true ->
  s_assistantContent (stream_line (result sid true (Some r)) s)
    = s_assistantContent s ++ errorAnnotation r
  /\ s_written (stream_line (result sid true (Some r)) s)
    = (s_written s ++ [data (contentChunk (errorAnnotation r))])%list.
Proof. intros Hr. simpl. by rewrite Hr. Qed.

(** C5, at the input where the code departs from it. After the text
    delta "Hi", a result flagged as an error with text "boom" makes the
    non-streaming translation answer with content "boom": the text is not
    appended as a bracketed annotation, it replaces what was aggregated.
    The streaming translation does append it, and emits it as a chunk. *)
Theorem C5_nonstreaming_overwrites :
  (handleNonStreaming [sample_user "q"] (emitter error_after_text) "" 0 empty_store).1
    = ok_200 {| message_content := "boom"; finish_reason := finish_stop;
                usage := None |}
  /\ (handleStreaming [sample_user "q"] (emitter error_after_text) "" None 0
        empty_store).1
    = [ data roleChunk; data (contentChunk "Hi");
        data (contentChunk (errorAnnotation "boom")); DONE ]
  /\ s_assistantContent (stream_final (emitter error_after_text) "" None)
    = "Hi" ++ errorAnnotation "boom".
Proof. repeat split; vm_compute; reflexivity. Qed.

(** The finish reason of the non-streaming mode is decided by the last
    stop reason of the stream. *)
Lemma agg_fold_finish (ls : list ClaudeStreamLine) :
  forall s : AggState,
    a_finishReason (fold_left (fun s l => agg_line l s) ls s) =
    match last_stop_reason ls with
    | Some r => if (r =? "end_turn")%string then finish_stop else finish_length
    | None => a_finishReason s
    end.
Proof.
  unfold last_stop_reason.
  induction ls as [|l ls IH]; intros s; [reflexivity|].
  simpl fold_left. rewrite IH.
  change (omap line_stop (l :: ls)) with
    (match line_stop l with
     | Some r => r :: omap line_stop ls
     | None => omap line_stop ls
     end).
  destruct l as [ev|sid is_err res|]; simpl line_stop; simpl agg_line.
  - destruct (stop_delta ev) as [r|] eqn:Hr.
    + rewrite (stop_delta_not_text _ _ Hr). simpl.
      rewrite last_cons. by destruct (last (omap line_stop ls)).
    + destruct (last (omap line_stop ls)); [reflexivity|].
      by destruct (text_delta ev).
  - reflexivity.
  - reflexivity.
Qed.

Lemma emits_ok_finish (u : Usage) (l : ClaudeStreamLine) (fs : list Frame) :
  emits u l fs -> Forall ok_finish fs.
Proof.
  destruct 1; repeat first [apply List.Forall_nil | apply List.Forall_cons];
    unfold ok_finish; simpl; auto.
Qed.

Lemma write_ok_finish (f : Frame) (s : StreamState) :
  ok_finish f -> Forall ok_finish (s_written s) ->
  Forall ok_finish (s_written (write f s)).
Proof. intros Hf Hs. simpl. apply Forall_app. split; [assumption|by constructor]. Qed.

Lemma stream_fold_ok_finish (ls : list ClaudeStreamLine) (s : StreamState) :
  Forall ok_finish (s_written s) ->
  Forall ok_finish (s_written (fold_left (fun s l => stream_line l s) ls s)).
Proof.
  intros Hs. destruct (stream_fold_spec ls s) as (groups & Hall & -> & _).
  apply Forall_app. split; [assumption|].
  clear -Hall. induction Hall as [|u l fs ls groups Hem _ IH]; simpl; [constructor|].
  apply Forall_app. split; [by eapply emits_ok_finish|assumption].
Qed.

Lemma stream_final_ok_finish (em : LineEmitter) (stderr : string) (d : Disconnect) :
  Forall ok_finish (s_written (stream_final em stderr d)).
Proof.
  unfold stream_final.
  assert (Hloop : Forall ok_finish (s_written (stream_loop em d stream_init))).
  { unfold stream_loop.
    assert (Hinit : Forall ok_finish (s_written stream_init))
      by (apply List.Forall_cons; [by left|apply List.Forall_nil]).
    destruct d as [n|].
    - by apply stream_fold_ok_finish.
    - destruct (throws em).
      + apply write_ok_finish; [by left|]. by apply stream_fold_ok_finish.
      + by apply stream_fold_ok_finish. }
  unfold stream_epilogue.
  set (s0 := stream_loop em d stream_init) in *.
  set (destroyed := bool_decide (is_Some d)).
  set (s1 := if negb (truthy (s_assistantContent s0)) && truthy stderr && negb destroyed
             then _ else s0).
  assert (H1 : Forall ok_finish (s_written s1)).
  { subst s1. destruct (_ && _); [|assumption].
    simpl. apply Forall_app. split; [assumption|].
    apply List.Forall_cons; [by left|apply List.Forall_nil]. }
  destruct (negb destroyed); [|assumption].
  apply write_ok_finish; [by left|].
  destruct (_ || _); [|assumption].
  apply write_ok_finish; [by right|assumption].
Qed.

(** C10. In streaming mode no frame ever carries a finish reason other
    than [stop], whatever the stop reasons in the agent's stream, and each
    stop reason is answered by a chunk with finish reason [stop]; the
    non-streaming mode maps every stop reason other than [end_turn] to
    [length], and answers with [length] when the last one is such. *)
Theorem C10_streaming_finish_is_stop :
  (forall (messages : list OAIMessage) (em : LineEmitter) (stderr : string)
          (d : Disconnect) (now : Z) (st : Store) (f : Frame),
      In f (handleStreaming messages em stderr d now st).1 ->
      frame_finish f = None \/ frame_finish f = Some finish_stop)
  /\ (forall (l : ClaudeStreamLine) (r : string) (s : StreamState),
      line_stop l = Some r ->
      exists c, s_written (stream_line l s) = (s_written s ++ [data c])%list
                /\ chunk_finish_reason c = Some finish_stop)
  /\ (forall (l : ClaudeStreamLine) (r : string) (s : AggState),
      line_stop l = Some r -> r <> "end_turn" ->
      a_finishReason (agg_line l s) = finish_length)
  /\ (forall (messages : list OAIMessage) (ls : list ClaudeStreamLine) (r stderr : string)
          (now : Z) (st : Store),
      last_stop_reason ls = Some r -> r <> "end_turn" ->
      exists resp,
        (handleNonStreaming messages (emitter ls) stderr now st).1 = ok_200 resp
        /\ finish_reason resp = finish_length).
Proof.
  split; [|split; [|split]].
  - intros messages em stderr d now st f Hin.
    unfold handleStreaming in Hin. cbn [fst] in Hin.
    pose proof (stream_final_ok_finish em stderr d) as Hall.
    rewrite Forall_forall in Hall. apply Hall. by apply list_elem_of_In.
  - intros l r s Hr. destruct l as [ev| |]; try discriminate. simpl in Hr.
    unfold stream_line. rewrite (stop_delta_not_text _ _ Hr), Hr.
    eexists. split; reflexivity.
  - intros l r s Hr Hne. destruct l as [ev| |]; try discriminate. simpl in Hr.
    unfold agg_line. rewrite (stop_delta_not_text _ _ Hr), Hr. simpl.
    by destruct (String.eqb_spec r "end_turn").
  - intros messages ls r stderr now st Hlast Hne.
    unfold handleNonStreaming, emitter. cbn [throws lines fst].
    eexists. split; [reflexivity|].
    cbn [agg_response finish_reason]. unfold agg_loop.
    rewrite agg_fold_finish, Hlast.
    by destruct (String.eqb_spec r "end_turn").
Qed.

Lemma C10_witness :
  exists resp,
    (handleNonStreaming [sample_user "q"]
       (emitter [ev_text "a"; ev_message_delta "max_tokens" (Some 4)]) "" 0
       empty_store).1 = ok_200 resp
    /\ finish_reason resp = finish_length.
Proof.
  apply (proj2 (proj2 (proj2 C10_streaming_finish_is_stop)) [sample_user "q"]
           [ev_text "a"; ev_message_delta "max_tokens" (Some 4)] "max_tokens").
  - reflexivity.
  - discriminate.
Defined.

Lemma quiet_line_text (l : ClaudeStreamLine) :
  produces_content l = false -> line_text l = "".
Proof.
  destruct l as [ev|sid is_err res|]; simpl; try reflexivity.
  - destruct (text_delta ev); [|reflexivity].
    intros H. apply bool_decide_eq_false in H. exfalso. apply H. by eexists.
  - destruct res as [r|]; [|reflexivity]. by intros ->.
Qed.

Lemma no_content_concat_text (ls : list ClaudeStreamLine) :
  no_content ls = true -> concat_text ls = "".
Proof.
  unfold no_content. induction ls as [|l ls IH]; simpl; [reflexivity|].
  intros H. apply andb_true_iff in H as [Hl Hls].
  apply negb_true_iff in Hl. by rewrite (quiet_line_text _ Hl), IH.
Qed.

Lemma agg_line_quiet (l : ClaudeStreamLine) (s : AggState) :
  produces_content l = false ->
  a_assistantContent (agg_line l s) = a_assistantContent s.
Proof.
  destruct l as [ev|sid is_err res|]; simpl; try reflexivity.
  - destruct (text_delta ev).
    + intros H. apply bool_decide_eq_false in H. exfalso. apply H. by eexists.
    + by destruct (stop_delta ev).
  - destruct res as [r|]; [|reflexivity]. by intros ->.
Qed.

Lemma agg_fold_quiet (ls : list ClaudeStreamLine) :
  forall s : AggState,
    no_content ls = true ->
    a_assistantContent (fold_left (fun s l => agg_line l s) ls s) = a_assistantContent s.
Proof.
  unfold no_content. induction ls as [|l ls IH]; intros s H; simpl; [reflexivity|].
  simpl in H. apply andb_true_iff in H as [Hl Hls]. apply negb_true_iff in Hl.
  rewrite IH by assumption. by apply agg_line_quiet.
Qed.

(** The frames of the streaming mode on an open connection, for an
    emitter that does not throw: the opening chunk, the frames of the
    lines in order, and the epilogue. *)
Lemma stream_open_frames (ls : list ClaudeStreamLine) (stderr : string) :
  exists groups,
    emits_all usage0 ls groups
    /\ streamed_content (concat groups) = concat_text ls
    /\ stream_final (emitter ls) stderr None =
       stream_epilogue stderr false
         {| s_resultSessionId :=
              s_resultSessionId (stream_loop (emitter ls) None stream_init);
            s_assistantContent := concat_text ls;
            s_usage := s_usage (stream_loop (emitter ls) None stream_init);
            s_written := data roleChunk :: concat groups |}.
Proof.
  destruct (stream_fold_spec ls stream_init) as (groups & Hall & Hw & Hc & Hsc).
  exists groups. split; [assumption|]. split; [assumption|].
  unfold stream_final, stream_loop, emitter. cbn [throws lines].
  change (bool_decide (is_Some None)) with false.
  f_equal. set (s := fold_left _ ls stream_init) in *.
  destruct s as [sid c u w]. simpl in *. by rewrite Hw, Hc.
Qed.

Lemma truthy_false (s : string) : truthy s = false -> s = "".
Proof. by destruct s. Qed.

(** C6 (as amended). When the stream produces no assistant content (no
    non-empty text delta, no error result with text) and stderr is not
    empty, the response content is "Error: " followed by the trimmed
    stderr. In non-streaming mode the finish reason is [stop] unless the
    last stop reason of the stream is other than [end_turn]; in streaming
    mode the fallback chunk is followed by a [stop] chunk and the
    sentinel. When stderr trims to "permission denied" the content is
    "Error: permission denied". *)
Theorem C6_stderr_fallback (messages : list OAIMessage) (ls : list ClaudeStreamLine)
  (stderr : string) (now : Z) (st : Store) :
  no_content ls = true -> truthy stderr = true ->
  (exists resp,
      (handleNonStreaming messages (emitter ls) stderr now st).1 = ok_200 resp
      /\ message_content resp = "Error: " ++ trim stderr
      /\ finish_reason resp =
         match last_stop_reason ls with
         | Some r => if (r =? "end_turn")%string then finish_stop else finish_length
         | None => finish_stop
         end
      /\ (trim stderr = "permission denied" ->
          message_content resp = "Error: permission denied"))
  /\ (exists pre,
      (handleStreaming messages (emitter ls) stderr None now st).1 =
        (pre ++ [ data (contentChunk ("Error: " ++ trim stderr));
                  data stopChunk; DONE ])%list
      /\ streamed_content pre = ""
      /\ streamed_content (handleStreaming messages (emitter ls) stderr None now st).1
         = "Error: " ++ trim stderr).
Proof.
  intros Hquiet Herr. split.
  - unfold handleNonStreaming, emitter. cbn [throws lines fst].
    eexists. split; [reflexivity|].
    cbn [agg_response message_content finish_reason].
    assert (Hc : agg_content stderr (agg_loop ls) = "Error: " ++ trim stderr).
    { unfold agg_content, agg_loop. rewrite agg_fold_quiet by assumption.
      simpl. by rewrite Herr. }
    split; [exact Hc|]. split.
    + unfold agg_loop. by rewrite agg_fold_finish.
    + intros Hpd. rewrite Hc, Hpd. reflexivity.
  - unfold handleStreaming. cbn [fst].
    destruct (stream_open_frames ls stderr) as (groups & Hall & Hsc & ->).
    rewrite (no_content_concat_text _ Hquiet) in *.
    unfold stream_epilogue. cbn [s_assistantContent]. rewrite Herr.
    cbn [truthy negb andb]. cbn [write s_written s_assistantContent].
    change (startsWith "Error:" ("Error: " ++ trim stderr)) with true.
    rewrite orb_true_r. cbn [write s_written].
    exists (data roleChunk :: concat groups).
    rewrite <- !app_assoc. split; [reflexivity|].
    assert (Hpre : streamed_content (data roleChunk :: concat groups) = "").
    { change (streamed_content (data roleChunk :: concat groups))
        with ("" ++ streamed_content (concat groups)). by rewrite Hsc. }
    split; [exact Hpre|].
    rewrite streamed_content_app, Hpre. simpl.
    by rewrite !string_app_nil_r.
Qed.

Lemma C6_witness :
  exists resp,
    (handleNonStreaming [sample_user "q"] (emitter [other_event])
       "permission denied" 0 empty_store).1 = ok_200 resp
    /\ message_content resp = "Error: permission denied".
Proof.
  destruct (C6_stderr_fallback [sample_user "q"] [other_event] "permission denied"
              0 empty_store) as [(resp & Hresp & _ & _ & Hpd) _];
    [reflexivity | reflexivity |].
  exists resp. split; [exact Hresp | apply Hpd; reflexivity].
Defined.

(** C6 as stated fails in non-streaming mode: with no content, stderr
    "permission denied" and a stop reason other than [end_turn], the
    finish reason is [length], not [stop]. *)
Lemma C6_length_counterexample :
  no_content truncated_stream = true
  /\ (handleNonStreaming [sample_user "q"] (emitter truncated_stream)
        "permission denied" 0 empty_store).1
     = ok_200 {| message_content := "Error: permission denied";
                 finish_reason := finish_length; usage := None |}.
Proof. split; vm_compute; reflexivity. Qed.

(** ** The order of the streamed frames *)

Lemma startsWith_app (p s : string) : startsWith p (p ++ s) = true.
Proof.
  induction p as [|c p IH]; [reflexivity|].
  change (Ascii.eqb c c && startsWith p (p ++ s) = true).
  by rewrite Ascii.eqb_refl, IH.
Qed.

Lemma includes_here (p s : string) : startsWith p s = true -> includes p s = true.
Proof. intros H. destruct s; simpl; by rewrite H. Qed.

Lemma includes_app_l (p a s : string) :
  includes p s = true -> includes p (a ++ s) = true.
Proof.
  intros H. induction a as [|c a IH]; [exact H|].
  change (startsWith p (String c (a ++ s)) || includes p (a ++ s) = true).
  by rewrite IH, orb_true_r.
Qed.

Lemma includes_app_r (p s b : string) :
  includes p s = true -> includes p (s ++ b) = true.
Proof.
  assert (Hsw : forall q t, startsWith q t = true -> startsWith q (t ++ b) = true).
  { induction q as [|c q IHq]; intros t Ht; [reflexivity|].
    destruct t as [|d t]; [discriminate|].
    simpl in Ht. apply andb_true_iff in Ht as [Hcd Hq].
    change (Ascii.eqb c d && startsWith q (t ++ b) = true).
    by rewrite Hcd, IHq. }
  induction s as [|c s IH]; intros H.
  - simpl in H. rewrite orb_false_r in H. apply includes_here. by apply (Hsw p "").
  - simpl in H. apply orb_true_iff in H as [H|H].
    + apply includes_here. by apply Hsw.
    + change (startsWith p (String c (s ++ b)) || includes p (s ++ b) = true).
      by rewrite IH, orb_true_r.
Qed.

Lemma includes_annotation (r : string) : includes "[Error:" (errorAnnotation r) = true.
Proof.
  unfold errorAnnotation. do 2 apply includes_app_l.
  apply includes_here. reflexivity.
Qed.

(** The text of a stream with an error result carries the annotation
    mark. *)
Lemma error_result_marks_text (ls : list ClaudeStreamLine) :
  existsb is_error_result ls = true -> includes "[Error:" (concat_text ls) = true.
Proof.
  induction ls as [|l ls IH]; simpl; [discriminate|].
  intros H. apply orb_true_iff in H as [H|H].
  - apply includes_app_r.
    destruct l as [ev|sid is_err [r|]|]; simpl in *; try discriminate.
    rewrite H. apply includes_annotation.
  - apply includes_app_l. by apply IH.
Qed.

(** The worked example in streaming mode: the three deltas, the finish
    chunk with usage 10/3/13, the final stop chunk and the sentinel. *)
Example hello_stream_frames :
  (handleStreaming [sample_user "say hello"]
     (emitter (hello_stream None "sess-42" false None)) "" None 1000 empty_store).1
  = [ data roleChunk;
      data (contentChunk "Hel"); data (contentChunk "lo"); data (contentChunk "!");
      data (usageChunk {| prompt_tokens := 10; completion_tokens := 3;
                          total_tokens := 13 |});
      data stopChunk; DONE ].
Proof. vm_compute. reflexivity. Qed.

(** C9 (as amended). On an open connection the frames are, in order:
    the role-only opening chunk; then, following the order of the
    events, a content chunk for each non-empty text delta, a [stop]
    chunk carrying the usage totalled so far (null when it is zero) for
    each stop reason, and a content chunk for each error result, so that
    content and usage chunks may alternate; then the stderr fallback
    chunk when no content was produced and stderr is not empty; then a
    final [stop] chunk, which is sent whenever the content carries no
    error mark or the fallback was sent, and left out after an error
    chunk when the content does not begin with "Error:"; and last the
    sentinel. *)
Theorem C9_stream_order (messages : list OAIMessage) (ls : list ClaudeStreamLine)
  (stderr : string) (now : Z) (st : Store) :
  exists groups fallback final,
    (handleStreaming messages (emitter ls) stderr None now st).1
      = (data roleChunk :: concat groups ++ fallback ++ final ++ [DONE])%list
    /\ emits_all usage0 ls groups
    /\ fallback =
         (if negb (truthy (concat_text ls)) && truthy stderr
          then [data (contentChunk ("Error: " ++ trim stderr))] else [])
    /\ (final = [data stopChunk] \/ final = [])
    /\ (fallback <> [] -> final = [data stopChunk])
    /\ (includes "[Error:" (concat_text ls) = false -> final = [data stopChunk])
    /\ (existsb is_error_result ls = true ->
        startsWith "Error:" (concat_text ls) = false -> final = []).
Proof.
  unfold handleStreaming. cbn [fst].
  destruct (stream_open_frames ls stderr) as (groups & Hall & Hsc & ->).
  unfold stream_epilogue. cbn [s_assistantContent negb].
  rewrite andb_true_r.
  destruct (negb (truthy (concat_text ls)) && truthy stderr) eqn:Hfb.
  - (* the fallback is sent *)
    apply andb_true_iff in Hfb as [Hempty Herr].
    apply negb_true_iff, truthy_false in Hempty.
    cbn [write s_written s_assistantContent].
    change (startsWith "Error:" ("Error: " ++ trim stderr)) with true.
    rewrite orb_true_r. cbn [write s_written].
    exists groups, [data (contentChunk ("Error: " ++ trim stderr))], [data stopChunk].
    split; [simpl; by rewrite <- ?app_assoc|].
    split; [assumption|]. split; [reflexivity|]. split; [by left|].
    split; [reflexivity|]. split; [reflexivity|].
    intros Hex _. apply error_result_marks_text in Hex.
    rewrite Hempty in Hex. discriminate.
  - cbn [s_assistantContent].
    destruct (negb (includes "[Error:" (concat_text ls))
              || startsWith "Error:" (concat_text ls)) eqn:Hstop.
    + cbn [write s_written].
      exists groups, [], [data stopChunk].
      split; [simpl; by rewrite <- ?app_assoc|].
      split; [assumption|]. split; [reflexivity|]. split; [by left|].
      split; [reflexivity|]. split; [reflexivity|].
      intros Hex Hsw. apply error_result_marks_text in Hex.
      rewrite Hex, Hsw in Hstop. discriminate.
    + cbn [write s_written].
      exists groups, [], [].
      split; [simpl; by rewrite ?app_nil_r|].
      split; [assumption|]. split; [reflexivity|]. split; [by right|].
      split; [done|]. split; [|reflexivity].
      intros Hinc. rewrite Hinc in Hstop. discriminate.
Qed.

Lemma C9_witness :
  exists groups fallback final,
    (handleStreaming [sample_user "q"] (emitter two_turn_stream) "" None 0
       empty_store).1
      = (data roleChunk :: concat groups ++ fallback ++ final ++ [DONE])%list
    /\ emits_all usage0 two_turn_stream groups.
Proof.
  destruct (C9_stream_order [sample_user "q"] two_turn_stream "" 0 empty_store)
    as (groups & fallback & final & Hfs & Hall & _).
  exists groups, fallback, final. split; [exact Hfs | exact Hall].
Defined.

(** C9 as stated fails on a two-turn stream: the usage chunk of the
    first stop reason is followed by a content chunk. *)
Lemma C9_interleaving_counterexample :
  let fs := (handleStreaming [sample_user "q"] (emitter two_turn_stream) "" None 0
               empty_store).1 in
  fs = [ data roleChunk;
         data (contentChunk "a");
         data (usageChunk {| prompt_tokens := 0; completion_tokens := 2;
                             total_tokens := 2 |});
         data (contentChunk "b");
         data (usageChunk {| prompt_tokens := 0; completion_tokens := 5;
                             total_tokens := 5 |});
         data stopChunk; DONE ]
  /\ fs !! 2%nat = Some (data {| chunk_delta := {| delta_role := None;
                                                   delta_content := None |};
                                 chunk_finish_reason := Some finish_stop;
                                 chunk_usage :=
                                   usage_some {| prompt_tokens := 0;
                                                 completion_tokens := 2;
                                                 total_tokens := 2 |} |})
  /\ fs !! 3%nat = Some (data (contentChunk "b")).
Proof. repeat split; vm_compute; reflexivity. Qed.

(** ** The working-directory decision *)

Lemma resolveValid_truthy (env : Env) (text p : string) :
  resolveValid env text = Some p -> truthy p = true.
Proof.
  unfold resolveValid. destruct (resolvePath env text) as [r|]; [|discriminate].
  destruct (truthy r) eqn:Hr; simpl; [|discriminate].
  destruct (isValidDirectory env r); [|discriminate]. by intros [= <-].
Qed.

(** What the scan returns is a confirmed pair, and no index it passed
    over holds one. *)
Lemma findConfirmed_sound (env : Env) (ua : list OAIMessage) :
  forall n i p k,
    findConfirmed env ua n i = Some (p, k) ->
    confirmed_at env ua k p
    /\ (i <= k)%nat
    /\ (forall j q, (i <= j < k)%nat -> ~ confirmed_at env ua j q).
Proof.
  induction n as [|n IH]; intros i p k H; [discriminate|].
  simpl in H.
  destruct (ua !! i) as [msg|] eqn:Hi; [|discriminate].
  assert (Hnext : findConfirmed env ua n (S i) = Some (p, k) ->
                  ~ (exists q, confirmed_at env ua i q) ->
                  confirmed_at env ua k p /\ (i <= k)%nat
                  /\ (forall j q, (i <= j < k)%nat -> ~ confirmed_at env ua j q)).
  { intros Hrec Hnot. destruct (IH _ _ _ Hrec) as (Hc & Hle & Hmin).
    split; [assumption|]. split; [lia|].
    intros j q Hj Hcj. destruct (decide (j = i)) as [->|Hne].
    - apply Hnot. by exists q.
    - apply (Hmin j q); [lia|assumption]. }
  destruct (is_user msg) eqn:Hu; simpl in H.
  - destruct (resolveValid env (trim (getTextContent (content msg)))) as [r|] eqn:Hr.
    + destruct (ua !! S i) as [nextMsg|] eqn:Hn.
      * destruct (is_assistant nextMsg) eqn:Ha.
        -- injection H as <- <-. split; [|split; [lia|intros j q Hj; lia]].
           exists msg, nextMsg. repeat split; try assumption.
           ++ unfold is_user in Hu. by destruct (role msg).
           ++ unfold is_assistant in Ha. by destruct (role nextMsg).
        -- apply Hnext; [assumption|].
           intros (q & m & m' & Hm & _ & _ & Hm' & Hrole).
           rewrite Hn in Hm'. injection Hm' as <-.
           unfold is_assistant in Ha. rewrite Hrole in Ha. discriminate.
      * apply Hnext; [assumption|].
        intros (q & m & m' & _ & _ & _ & Hm' & _). rewrite Hn in Hm'. discriminate.
    + apply Hnext; [assumption|].
      intros (q & m & m' & Hm & _ & Hres & _). rewrite Hi in Hm. injection Hm as <-.
      rewrite Hr in Hres. discriminate.
  - apply Hnext; [assumption|].
    intros (q & m & m' & Hm & Hrole & _). rewrite Hi in Hm. injection Hm as <-.
    unfold is_user in Hu. rewrite Hrole in Hu. discriminate.
Qed.

(** When the scan finds nothing, no index it covered holds a confirmed
    pair. *)
Lemma findConfirmed_none (env : Env) (ua : list OAIMessage) :
  forall n i,
    findConfirmed env ua n i = None ->
    forall j q, (i <= j < i + n)%nat -> ~ confirmed_at env ua j q.
Proof.
  induction n as [|n IH]; intros i H j q Hj Hc; [lia|].
  simpl in H.
  destruct (ua !! i) as [msg|] eqn:Hi.
  - assert (Hhere : j = i -> False).
    { intros ->. destruct Hc as (m & m' & Hm & Hrole & Hres & Hm' & Hrole').
      rewrite Hi in Hm. injection Hm as <-.
      unfold is_user in H. rewrite Hrole in H. simpl in H.
      rewrite Hres, Hm' in H. unfold is_assistant in H. rewrite Hrole' in H.
      discriminate. }
    destruct (decide (j = i)) as [Heq|Hne]; [by apply Hhere|].
    assert (Hrec : findConfirmed env ua n (S i) = None).
    { destruct (is_user msg); simpl in H; [|exact H].
      destruct (resolveValid env (trim (getTextContent (content msg)))); [|exact H].
      destruct (ua !! S i) as [nextMsg|]; [|exact H].
      destruct (is_assistant nextMsg); [discriminate|exact H]. }
    apply (IH (S i) Hrec j q); [lia|exact Hc].
  - destruct Hc as (m & _ & Hm & _).
    apply lookup_lt_Some in Hm. apply lookup_ge_None in Hi. lia.
Qed.

(** The scan finds the earliest confirmed pair. *)
Lemma findConfirmed_complete (env : Env) (ua : list OAIMessage) (k : nat) (p : string) :
  confirmed_at env ua k p ->
  (forall j q, (j < k)%nat -> ~ confirmed_at env ua j q) ->
  forall n i, (i <= k)%nat -> (k < i + n)%nat ->
    findConfirmed env ua n i = Some (p, k).
Proof.
  intros Hc Hmin. induction n as [|n IH]; intros i Hle Hlt; [lia|].
  simpl.
  destruct (decide (i = k)) as [->|Hne].
  - destruct Hc as (m & m' & Hm & Hrole & Hres & Hm' & Hrole').
    rewrite Hm. unfold is_user. rewrite Hrole. simpl.
    rewrite Hres, Hm'. unfold is_assistant. by rewrite Hrole'.
  - assert (Hrec : findConfirmed env ua n (S i) = Some (p, k)) by (apply IH; lia).
    assert (Hlen : is_Some (ua !! i)).
    { destruct Hc as (m & _ & Hm & _). apply lookup_lt_is_Some.
      apply lookup_lt_Some in Hm. lia. }
    destruct Hlen as [msg Hi]. rewrite Hi.
    destruct (is_user msg) eqn:Hu; simpl; [|exact Hrec].
    destruct (resolveValid env (trim (getTextContent (content msg)))) as [r|] eqn:Hr;
      [|exact Hrec].
    destruct (ua !! S i) as [nextMsg|] eqn:Hn; [|exact Hrec].
    destruct (is_assistant nextMsg) eqn:Ha; [|exact Hrec].
    exfalso. apply (Hmin i r); [lia|].
    exists msg, nextMsg. repeat split; try assumption.
    + unfold is_user in Hu. by destruct (role msg).
    + unfold is_assistant in Ha. by destruct (role nextMsg).
Qed.

Lemma stripPair_past (u a : nat) (l : list OAIMessage) :
  forall i, (u < i)%nat -> (a < i)%nat -> stripPair u a i l = l.
Proof.
  induction l as [|m l IH]; intros i Hu Ha; simpl; [reflexivity|].
  destruct (Nat.eqb_spec i u); [lia|]. destruct (Nat.eqb_spec i a); [lia|].
  simpl. rewrite IH by lia. reflexivity.
Qed.

(** Stripping the pair at [k], [k + 1] leaves the messages before [k]
    and those from [k + 2] on. *)
Lemma stripPair_take_drop (k : nat) (ua : list OAIMessage) :
  forall i, (i <= k)%nat ->
    stripPair k (S k) i ua = (take (k - i) ua ++ drop (S (S (k - i))) ua)%list.
Proof.
  induction ua as [|m ua IH]; intros i Hle.
  - by rewrite take_nil, drop_nil.
  - simpl stripPair. destruct (Nat.eqb_spec i k) as [->|Hne].
    + rewrite Nat.sub_diag. simpl.
      destruct ua as [|m' ua]; simpl; [reflexivity|].
      rewrite Nat.eqb_refl, orb_true_r. rewrite drop_0.
      apply stripPair_past; lia.
    + destruct (Nat.eqb_spec i (S k)); [lia|]. simpl.
      rewrite IH by lia.
      replace (k - i)%nat with (S (k - S i)) by lia. reflexivity.
Qed.

Lemma non_system_nonempty (messages : list OAIMessage) (i : nat) (m : OAIMessage) :
  non_system messages !! i = Some m -> (length messages =? 0)%nat = false.
Proof.
  intros H. destruct messages; [|reflexivity].
  unfold non_system in H. rewrite filter_nil in H. by rewrite lookup_nil in H.
Qed.

(** Side conditions of [filter] on a boolean predicate whose value is
    known. *)
Ltac by_bool H := rewrite H; simpl; first [exact I | intros []].

Lemma filter_system_split (sys rest : list OAIMessage) :
  Forall (fun m => is_system m = true) sys ->
  Forall (fun m => is_system m = false) rest ->
  filter is_system (sys ++ rest)%list = sys /\ non_system (sys ++ rest)%list = rest.
Proof.
  intros Hsys Hrest. unfold non_system. rewrite !filter_app. split.
  - assert (H1 : filter is_system sys = sys).
    { clear -Hsys. induction Hsys as [|m sys Hm _ IH]; [reflexivity|].
      rewrite filter_cons_True; [f_equal; exact IH | by_bool Hm]. }
    assert (H2 : filter is_system rest = []).
    { clear -Hrest. induction Hrest as [|m rest Hm _ IH]; [reflexivity|].
      rewrite filter_cons_False; [exact IH | by_bool Hm]. }
    by rewrite H1, H2, app_nil_r.
  - assert (H1 : filter (fun m => negb (is_system m)) sys = []).
    { clear -Hsys. induction Hsys as [|m sys Hm _ IH]; [reflexivity|].
      rewrite filter_cons_False; [exact IH | by_bool Hm]. }
    assert (H2 : filter (fun m => negb (is_system m)) rest = rest).
    { clear -Hrest. induction Hrest as [|m rest Hm _ IH]; [reflexivity|].
      rewrite filter_cons_True; [f_equal; exact IH | by_bool Hm]. }
    by rewrite H1, H2.
Qed.

(** With a confirmed pair, the handler spawns the agent in the path of
    the earliest one, on the system messages followed by the other
    messages without the pair. *)
Lemma resume_general (env : Env) (config : Config) (st : Store)
  (messages : list OAIMessage) (k : nat) (p : string) :
  confirmed_at env (non_system messages) k p ->
  (forall j q, (j < k)%nat -> ~ confirmed_at env (non_system messages) j q) ->
  let pruned :=
    (filter is_system messages
     ++ take k (non_system messages) ++ drop (S (S k)) (non_system messages))%list in
  handleChatCompletions env config st messages
    = Invoke p pruned (lookupSession (slice_init pruned) st).1.
Proof.
  intros Hc Hmin pruned.
  unfold handleChatCompletions. fold (non_system messages).
  pose proof Hc as (m & m' & Hm & _ & Hres & Hm' & _).
  rewrite (non_system_nonempty _ _ _ Hm).
  rewrite (findConfirmed_complete env _ k p Hc Hmin).
  - unfold spawn_cwd. rewrite (resolveValid_truthy _ _ _ Hres).
    rewrite stripPair_take_drop by lia. rewrite Nat.sub_0_r. reflexivity.
  - lia.
  - apply lookup_lt_Some in Hm. lia.
Qed.

(** C2 (as amended). When the user/assistant messages hold a confirmed
    pair, there is an earliest one, and the agent is spawned in its path,
    on the system messages followed by the user/assistant messages
    without that pair; this is the message list with the pair removed
    whenever the system messages all come first. With [/tmp] an existing directory,
    the history [user "/tmp"; assistant "ack"; user "hello"] resumes in
    "/tmp" on [user "hello"]. *)
Theorem C2_resume_earliest_pair (env : Env) (config : Config) (st : Store) :
  (forall messages : list OAIMessage,
      (exists k p, confirmed_at env (non_system messages) k p) ->
      exists k p,
        confirmed_at env (non_system messages) k p
        /\ (forall j q, (j < k)%nat -> ~ confirmed_at env (non_system messages) j q)
        /\ handleChatCompletions env config st messages
           = Invoke p
               (filter is_system messages
                ++ take k (non_system messages)
                ++ drop (S (S k)) (non_system messages))%list
               (lookupSession
                  (slice_init
                     (filter is_system messages
                      ++ take k (non_system messages)
                      ++ drop (S (S k)) (non_system messages))%list) st).1)
  /\ (forall (messages : list OAIMessage) (k : nat) (p : string),
      confirmed_at env (non_system messages) k p ->
      (forall j q, (j < k)%nat -> ~ confirmed_at env (non_system messages) j q) ->
      let pruned :=
        (filter is_system messages
         ++ take k (non_system messages) ++ drop (S (S k)) (non_system messages))%list in
      handleChatCompletions env config st messages
        = Invoke p pruned (lookupSession (slice_init pruned) st).1
      /\ (forall sys rest : list OAIMessage,
            messages = (sys ++ rest)%list ->
            Forall (fun m => is_system m = true) sys ->
            Forall (fun m => is_system m = false) rest ->
            pruned = (take (length sys + k) messages
                      ++ drop (S (S (length sys + k))) messages)%list))
  /\ (path_resolve env "/tmp" = "/tmp" ->
      existsSync env "/tmp" = true ->
      statIsDirectory env "/tmp" = Some true ->
      realpathSync env "/tmp" = Some "/tmp" ->
      handleChatCompletions env config st tmp_history
        = Invoke "/tmp" [sample_user "hello"] None).
Proof.
  split; [|split].
  - intros messages (k0 & p0 & Hc0).
    destruct (findConfirmed env (non_system messages)
                (length (non_system messages)) 0) as [[p k]|] eqn:Hfind.
    + apply findConfirmed_sound in Hfind as (Hc & _ & Hmin).
      assert (Hmin' : forall j q, (j < k)%nat ->
                ~ confirmed_at env (non_system messages) j q)
        by (intros j q Hj; apply Hmin; lia).
      exists k, p. split; [exact Hc|]. split; [exact Hmin'|].
      by apply resume_general.
    + exfalso. apply (findConfirmed_none _ _ _ _ Hfind k0 p0); [|exact Hc0].
      destruct Hc0 as (m & _ & Hm & _). apply lookup_lt_Some in Hm. lia.
  - intros messages k p Hc Hmin pruned. split.
    + by apply resume_general.
    + intros sys rest -> Hsys Hrest. subst pruned.
      destruct (filter_system_split sys rest Hsys Hrest) as [-> ->].
      replace (S (S (length sys + k))) with (length sys + S (S k))%nat by lia.
      rewrite take_app_add, drop_app_add. by rewrite <- app_assoc.
  - intros Hres Hex Hdir Hreal.
    assert (Hvalid : resolveValid env "/tmp" = Some "/tmp").
    { unfold resolveValid, resolvePath, isValidDirectory. simpl startsWith. cbv iota.
      rewrite Hres. simpl existsb. cbv iota. rewrite Hex, Hreal. simpl truthy.
      by rewrite Hex, Hdir. }
    assert (Hc : confirmed_at env (non_system tmp_history) 0 "/tmp").
    { exists (sample_user "/tmp"), (assistant_turn "ack").
      split; [reflexivity|]. split; [reflexivity|]. split; [exact Hvalid|].
      split; reflexivity. }
    rewrite (resume_general env config st tmp_history 0 "/tmp" Hc)
      by (intros; lia).
    reflexivity.
Qed.

Lemma C2_witness :
  handleChatCompletions tmp_env sample_config empty_store tmp_history
    = Invoke "/tmp" [sample_user "hello"] None.
Proof.
  apply (proj2 (proj2 (C2_resume_earliest_pair tmp_env sample_config empty_store)));
    reflexivity.
Defined.

(** C2 as stated fails when a system message follows the pair: the
    system message is moved to the front of what the agent receives. *)
Lemma C2_late_system_counterexample :
  confirmed_at tmp_env (non_system tmp_history_late_system) 0 "/tmp"
  /\ handleChatCompletions tmp_env sample_config empty_store tmp_history_late_system
     = Invoke "/tmp" [system_turn "be brief"; sample_user "hello"] None
  /\ (take 0 tmp_history_late_system ++ drop 2 tmp_history_late_system)%list
     = [sample_user "hello"; system_turn "be brief"]
  /\ [system_turn "be brief"; sample_user "hello"]
     <> [sample_user "hello"; system_turn "be brief"].
Proof.
  split; [|split; [|split]].
  - exists (sample_user "/tmp"), (assistant_turn "ack"). repeat split.
  - vm_compute. reflexivity.
  - reflexivity.
  - discriminate.
Qed.

(** The three synthetic texts begin with the three marks that the
    handler tests for. *)
Lemma marker_texts_have_marks :
  startsWith MARK_PROMPT PATH_PROMPT = true
  /\ startsWith MARK_INVALID PATH_INVALID = true
  /\ forall p, startsWith MARK_CONFIRMED (PATH_CONFIRMED p) = true.
Proof. repeat split. Qed.

(** C3 (as amended). Without a confirmed pair, if some assistant message
    has a text that begins with none of the three marks of the synthetic
    messages, the agent is spawned in the configured default working
    directory on the full, unmodified message list. *)
Theorem C3_use_default (env : Env) (config : Config) (st : Store)
  (messages : list OAIMessage) :
  (forall k p, ~ confirmed_at env (non_system messages) k p) ->
  (exists m, In m messages
             /\ role m = assistant
             /\ startsWith MARK_CONFIRMED (getTextContent (content m)) = false
             /\ startsWith MARK_PROMPT (getTextContent (content m)) = false
             /\ startsWith MARK_INVALID (getTextContent (content m)) = false) ->
  handleChatCompletions env config st messages
    = Invoke (claudeWorkingDir config) messages
             (lookupSession (slice_init messages) st).1.
Proof.
  intros Hnone (m & Hin & Hrole & Hc & Hp & Hi).
  unfold handleChatCompletions. fold (non_system messages).
  destruct messages as [|m0 messages0] eqn:Hmsgs; [destruct Hin|].
  rewrite <- Hmsgs in *. replace (length messages =? 0)%nat with false
    by (by rewrite Hmsgs).
  destruct (findConfirmed env (non_system messages)
              (length (non_system messages)) 0) as [[p k]|] eqn:Hfind.
  - exfalso. apply findConfirmed_sound in Hfind as [Hconf _].
    by apply (Hnone k p).
  - assert (Hreal : hasRealAssistantResponse (non_system messages) = true).
    { unfold hasRealAssistantResponse. apply existsb_exists. exists m. split.
      - apply list_elem_of_In. unfold non_system. apply list_elem_of_filter. split.
        + unfold is_system. by rewrite Hrole.
        + by apply list_elem_of_In.
      - unfold is_assistant. by rewrite Hrole, Hc, Hp, Hi. }
    rewrite Hreal. reflexivity.
Qed.

Lemma C3_witness :
  handleChatCompletions tmp_env sample_config empty_store
      [sample_user "hi"; assistant_turn "hello there"; sample_user "more"]
    = Invoke "/srv/default"
        [sample_user "hi"; assistant_turn "hello there"; sample_user "more"] None.
Proof.
  apply (C3_use_default tmp_env sample_config empty_store
           [sample_user "hi"; assistant_turn "hello there"; sample_user "more"]).
  - intros k p (m & m' & Hm & Hrole & Hres & _).
    destruct k as [|[|[|k]]]; simpl in Hm; try discriminate;
      injection Hm as <-; discriminate.
  - exists (assistant_turn "hello there").
    split; [right; left; reflexivity|]. repeat split.
Defined.

(** C3 as stated fails on an assistant turn that begins with the mark of
    the confirmation message without being one of the three synthetic
    texts: the handler asks for a path instead of using the default
    directory. *)
Lemma C3_lookalike_counterexample :
  (forall k p, ~ confirmed_at tmp_env (non_system lookalike_history) k p)
  /\ MARK_CONFIRMED ++ " Done" <> PATH_PROMPT
  /\ MARK_CONFIRMED ++ " Done" <> PATH_INVALID
  /\ (forall p, MARK_CONFIRMED ++ " Done" <> PATH_CONFIRMED p)
  /\ handleChatCompletions tmp_env sample_config empty_store lookalike_history
     = FakeResponse PATH_PROMPT.
Proof.
  split; [|split; [|split; [|split]]].
  - intros k p (m & m' & Hm & Hrole & Hres & _).
    destruct k as [|[|[|k]]]; simpl in Hm; try discriminate;
      injection Hm as <-; discriminate.
  - discriminate.
  - discriminate.
  - intros p H.
    apply (f_equal (startsWith (MARK_CONFIRMED ++ " W"))) in H.
    discriminate.
  - vm_compute. reflexivity.
Qed.

(** ** The context digest *)

Lemma unquote_quote_char (c : ascii) (k : string) :
  unquote_char (quote_char c k) = Some (c, k).
Proof. destruct c as [[] [] [] [] [] [] [] []]; reflexivity. Qed.

Lemma unquote_closing (k : string) : unquote_char (String DQ k) = None.
Proof. reflexivity. Qed.

Lemma quote_body_inj (s : string) :
  forall s' k k', quote_body s k = quote_body s' k' -> s = s' /\ k = k'.
Proof.
  induction s as [|c s IH]; intros [|c' s'] k k' H; simpl in H.
  - by injection H as ->.
  - apply (f_equal unquote_char) in H.
    rewrite unquote_closing, unquote_quote_char in H. discriminate.
  - apply (f_equal unquote_char) in H.
    rewrite unquote_closing, unquote_quote_char in H. discriminate.
  - apply (f_equal unquote_char) in H. rewrite !unquote_quote_char in H.
    injection H as -> H. by apply IH in H as [-> ->].
Qed.

Lemma ser_string_inj (s s' k k' : string) :
  ser_string s k = ser_string s' k' -> s = s' /\ k = k'.
Proof. unfold ser_string. intros [= H]. by apply quote_body_inj. Qed.

(** The model of SHA-256 on the standard test vectors, and of the digest
    on sample contexts, against the values that Node computes. *)
Example sha256_empty :
  SHA256.hexdigest ""
  = "e3b0c44298fc1c149afbf4c8996fb92427ae41e4649b934ca495991b7852b855".
Proof. vm_compute. reflexivity. Qed.

Example sha256_abc :
  SHA256.hexdigest "abc"
  = "ba7816bf8f01cfea414140de5dae2223b00361a396177a9cb410ff61f20015ad".
Proof. vm_compute. reflexivity. Qed.

Example hashMessages_empty :
  hashMessages []
  = "4f53cda18c2baa0c0354bb5f9a3ecbe5ed12ab4d8e11ba873c2f11161202b945".
Proof. vm_compute. reflexivity. Qed.

Example hashMessages_hello :
  hashMessages [sample_user "hello"]
  = "e920b204bce6401c9e1a506f434853899fabada37ae5ad9033d8937eda0ba853".
Proof. vm_compute. reflexivity. Qed.

Example hashMessages_image :
  hashMessages image_context
  = "c190d45e646143ae5588398c56f4f6a146d092cec1c81d4d3fd9276061c83e56".
Proof. vm_compute. reflexivity. Qed.

Example hashMessages_escaped :
  hashMessages escaped_context
  = "fe900d50796be67d33e02b3869f3940978b01bc117f411b1ea12ecfe15670a3f".
Proof. vm_compute. reflexivity. Qed.

Lemma str_app_cons (c : ascii) (s t : string) : String c s ++ t = String c (s ++ t).
Proof. reflexivity. Qed.

Lemma str_app_nil (t : string) : "" ++ t = t.
Proof. reflexivity. Qed.

(** The keys and tags of the serialization need no escape. *)
Lemma ser_plain_type (k : string) :
  ser_string "type" k = String DQ ("type" ++ String DQ k).
Proof. reflexivity. Qed.

Lemma ser_plain_text (k : string) :
  ser_string "text" k = String DQ ("text" ++ String DQ k).
Proof. reflexivity. Qed.

Lemma ser_plain_image_url (k : string) :
  ser_string "image_url" k = String DQ ("image_url" ++ String DQ k).
Proof. reflexivity. Qed.

Lemma ser_plain_url (k : string) :
  ser_string "url" k = String DQ ("url" ++ String DQ k).
Proof. reflexivity. Qed.

Lemma ser_plain_detail (k : string) :
  ser_string "detail" k = String DQ ("detail" ++ String DQ k).
Proof. reflexivity. Qed.

Lemma ser_plain_role (k : string) :
  ser_string "role" k = String DQ ("role" ++ String DQ k).
Proof. reflexivity. Qed.

Lemma ser_plain_content (k : string) :
  ser_string "content" k = String DQ ("content" ++ String DQ k).
Proof. reflexivity. Qed.

Lemma ser_plain_user (k : string) :
  ser_string "user" k = String DQ ("user" ++ String DQ k).
Proof. reflexivity. Qed.

Lemma ser_plain_system (k : string) :
  ser_string "system" k = String DQ ("system" ++ String DQ k).
Proof. reflexivity. Qed.

Lemma ser_plain_assistant (k : string) :
  ser_string "assistant" k = String DQ ("assistant" ++ String DQ k).
Proof. reflexivity. Qed.

Lemma String_tail_inj (a : ascii) (s t : string) : String a s = String a t -> s = t.
Proof. by intros [= ->]. Qed.

Create Rewrite HintDb ser_plain.

#[local] Hint Rewrite
  ser_plain_type ser_plain_text ser_plain_image_url ser_plain_url
  ser_plain_detail ser_plain_role ser_plain_content ser_plain_user
  ser_plain_system ser_plain_assistant str_app_cons str_app_nil : ser_plain.

(** Brings the literal text at the head of both sides of [H] into
    constructor form and strips the characters on which they agree. *)
Ltac peel H :=
  cbn [ser_part_type ser_role] in H;
  autorewrite with ser_plain in H;
  repeat match type of H with
         | ser_string _ _ = _ => fail 1
         | String ?a _ = String ?a _ => apply String_tail_inj in H
         | String _ _ = String _ _ => discriminate H
         end.

Lemma ser_image_inj (i i' : ImageUrl) (k k' : string) :
  ser_image i k = ser_image i' k' -> i = i' /\ k = k'.
Proof.
  destruct i as [u d], i' as [u' d']. unfold ser_image. cbn [url detail].
  intros H. peel H. apply ser_string_inj in H as [-> H].
  destruct d as [x|], d' as [x'|]; peel H.
  - apply ser_string_inj in H as [-> H]. peel H. by subst.
  - by subst.
Qed.

Lemma ser_part_inj (p p' : OAIContentPart) (k k' : string) :
  ser_part p k = ser_part p' k' -> p = p' /\ k = k'.
Proof.
  destruct p as [ty tx im], p' as [ty' tx' im']. unfold ser_part.
  cbn [part_type part_text part_image_url].
  intros H. peel H.
  apply ser_string_inj in H as [Hty H].
  assert (ty = ty') as -> by (destruct ty, ty'; (reflexivity || discriminate)).
  clear Hty.
  assert (Him : forall a b : option ImageUrl,
    match a with
    | Some i => "," ++ ser_string "image_url" (":" ++ ser_image i ("}" ++ k))
    | None => "}" ++ k
    end =
    match b with
    | Some i => "," ++ ser_string "image_url" (":" ++ ser_image i ("}" ++ k'))
    | None => "}" ++ k'
    end -> a = b /\ k = k').
  { intros [a|] [b|] Hab; peel Hab.
    - apply ser_image_inj in Hab as [-> Hab]. peel Hab. by subst.
    - by subst. }
  destruct tx as [t|], tx' as [t'|].
  - peel H. apply ser_string_inj in H as [-> H].
    apply Him in H as [-> ->]. done.
  - exfalso. destruct im' as [b|]; peel H.
  - exfalso. destruct im as [a|]; peel H.
  - apply Him in H as [-> ->]. done.
Qed.

Lemma ser_tail_inj {A} (f : A -> string -> string) :
  (forall x x' k k', f x k = f x' k' -> x = x' /\ k = k') ->
  forall xs xs' k k', ser_tail f xs k = ser_tail f xs' k' -> xs = xs' /\ k = k'.
Proof.
  intros Hf. induction xs as [|x xs IH]; intros [|x' xs'] k k' H;
    simpl in H; peel H.
  - by subst.
  - apply Hf in H as [-> H]. by apply IH in H as [-> ->].
Qed.

Lemma ser_array_inj {A} (f : A -> string -> string) :
  (forall x x' k k', f x k = f x' k' -> x = x' /\ k = k') ->
  (forall x k, exists r, f x k = String "{" r) ->
  forall xs xs' k k', ser_array f xs k = ser_array f xs' k' -> xs = xs' /\ k = k'.
Proof.
  intros Hf Hopen [|x xs] [|x' xs'] k k' H; simpl in H; peel H.
  - by subst.
  - destruct (Hopen x' (ser_tail f xs' k')) as [r Hr]. rewrite Hr in H. discriminate.
  - destruct (Hopen x (ser_tail f xs k)) as [r Hr]. rewrite Hr in H. discriminate.
  - apply Hf in H as [-> H]. by apply (ser_tail_inj f Hf) in H as [-> ->].
Qed.

Lemma ser_content_inj (c c' : Content) (k k' : string) :
  ser_content c k = ser_content c' k' -> c = c' /\ k = k'.
Proof.
  destruct c as [s|ps], c' as [s'|ps']; simpl; intros H.
  - by apply ser_string_inj in H as [-> ->].
  - exfalso. destruct ps'; simpl in H; unfold ser_string in H;
      rewrite ?str_app_cons, ?str_app_nil in H; discriminate.
  - exfalso. destruct ps; simpl in H; unfold ser_string in H;
      rewrite ?str_app_cons, ?str_app_nil in H; discriminate.
  - apply (ser_array_inj ser_part) in H as [-> ->]; [done| |].
    + intros x x' a b. apply ser_part_inj.
    + intros x a. unfold ser_part. rewrite str_app_cons, str_app_nil. by eexists.
Qed.

Lemma ser_message_inj (m m' : OAIMessage) (k k' : string) :
  ser_message m k = ser_message m' k' -> m = m' /\ k = k'.
Proof.
  destruct m as [r c], m' as [r' c']. unfold ser_message. cbn [role content].
  intros H. peel H.
  apply ser_string_inj in H as [Hr H].
  assert (r = r') as -> by (destruct r, r'; (reflexivity || discriminate)).
  clear Hr. peel H.
  apply ser_content_inj in H as [-> H]. peel H. by subst.
Qed.

(** The serialization tells any two message lists apart. *)
Lemma JSON_stringify_inj (C1 C2 : list OAIMessage) :
  JSON_stringify C1 = JSON_stringify C2 -> C1 = C2.
Proof.
  unfold JSON_stringify. intros H.
  apply (ser_array_inj ser_message) in H as [-> _]; [done| |].
  - intros x x' a b. apply ser_message_inj.
  - intros x a. unfold ser_message. rewrite str_app_cons, str_app_nil. by eexists.
Qed.

(** ** SHA-256 digests have 64 characters, so they collide *)

Lemma hexdigest_length (payload : string) :
  String.length (SHA256.hexdigest payload) = 64%nat.
Proof.
  unfold SHA256.hexdigest.
  generalize (SHA256.blocks (length (SHA256.pad (SHA256.bytes_of_string payload)))
                SHA256.initial (SHA256.pad (SHA256.bytes_of_string payload))).
  intros s. reflexivity.
Qed.

Lemma in_all_ascii (c : ascii) : In c all_ascii.
Proof.
  unfold all_ascii. apply in_map_iff. exists (nat_of_ascii c). split.
  - apply ascii_nat_embedding.
  - apply in_seq. pose proof (nat_ascii_bounded c). lia.
Qed.

Lemma in_strings_of_length (s : string) :
  In s (strings_of_length (String.length s)).
Proof.
  induction s as [|c s IH]; [by left|].
  change (In (String c s)
            (flat_map (fun a => map (String a) (strings_of_length (String.length s)))
                      all_ascii)).
  apply in_flat_map. exists c. split; [apply in_all_ascii|].
  apply in_map_iff. by exists s.
Qed.

(** No function from the natural numbers into a finite list of strings
    is injective. *)
Lemma pigeonhole (f : nat -> string) (L : list string) :
  (forall n, In (f n) L) -> ~ (forall i j, f i = f j -> i = j).
Proof.
  intros Hin Hinj.
  assert (Hnd : List.NoDup (map f (seq 0 (S (length L))))).
  { apply Finite.Injective_map_NoDup; [exact Hinj | apply List.seq_NoDup]. }
  assert (Hincl : incl (map f (seq 0 (S (length L)))) L).
  { intros x Hx. apply in_map_iff in Hx as (n & <- & _). apply Hin. }
  pose proof (List.NoDup_incl_length Hnd Hincl) as Hlen.
  rewrite length_map, length_seq in Hlen. lia.
Qed.

Lemma text_of_size_inj (i j : nat) : text_of_size i = text_of_size j -> i = j.
Proof.
  revert j. induction i as [|i IH]; intros [|j] H; try discriminate; [reflexivity|].
  injection H as H. by rewrite (IH j H).
Qed.

(** What can be said of the digest without an assumption on SHA-256.
    The digest is a function of the context; it is the SHA-256 digest of
    the serialized context; the serialization tells apart any two
    contexts that differ in a message field (role, content, order of the
    parts, image payload); so two different contexts have the same digest
    only when SHA-256 maps their two different payloads to the same
    value. That it does not, for the contexts the proxy meets, is the
    collision resistance of SHA-256, which is no property of the function
    that can be stated here. *)
Theorem digest_of_injective_serialization :
  (forall C1 C2 : list OAIMessage, C1 = C2 -> hashMessages C1 = hashMessages C2)
  /\ (forall C : list OAIMessage,
        hashMessages C = SHA256.hexdigest (JSON_stringify C))
  /\ (forall C1 C2 : list OAIMessage,
        C1 <> C2 -> JSON_stringify C1 <> JSON_stringify C2)
  /\ (forall C1 C2 : list OAIMessage,
        C1 <> C2 -> hashMessages C1 = hashMessages C2 ->
        JSON_stringify C1 <> JSON_stringify C2
        /\ SHA256.hexdigest (JSON_stringify C1) = SHA256.hexdigest (JSON_stringify C2)).
Proof.
  split; [by intros C1 C2 ->|]. split; [reflexivity|]. split.
  - intros C1 C2 Hne Heq. by apply Hne, JSON_stringify_inj.
  - intros C1 C2 Hne Heq. split; [|exact Heq].
    intros Hs. by apply Hne, JSON_stringify_inj.
Qed.

Lemma serialization_tells_roles_apart :
  JSON_stringify [sample_user "hello"] <> JSON_stringify [assistant_turn "hello"].
Proof.
  apply (proj1 (proj2 (proj2 digest_of_injective_serialization))).
  discriminate.
Defined.

(** The digest is not injective in the strict sense: the digests are
    strings of 64 characters, of which there are finitely many, while the
    contexts are infinitely many. The argument is by counting and
    exhibits no pair of contexts. *)
Lemma digests_collide :
  ~ (forall s1 s2 : string,
       s1 <> s2 -> hashMessages [sample_user s1] <> hashMessages [sample_user s2])
  /\ ~ (forall C1 C2 : list OAIMessage,
          C1 <> C2 -> hashMessages C1 <> hashMessages C2).
Proof.
  assert (Hcontent : ~ (forall s1 s2 : string,
            s1 <> s2 -> hashMessages [sample_user s1] <> hashMessages [sample_user s2])).
  { intros Hinj.
    apply (pigeonhole (fun n => hashMessages [sample_user (text_of_size n)])
             (strings_of_length 64)).
    - intros n.
      pose proof (in_strings_of_length
                    (hashMessages [sample_user (text_of_size n)])) as H.
      unfold hashMessages in H at 2. rewrite hexdigest_length in H. exact H.
    - intros i j Heq. destruct (decide (i = j)) as [|Hne]; [assumption|].
      exfalso. apply (Hinj (text_of_size i) (text_of_size j)); [|exact Heq].
      intros H. by apply Hne, text_of_size_inj. }
  split; [exact Hcontent|].
  intros Hinj. apply Hcontent. intros s1 s2 Hne. apply Hinj.
  intros [= H]. by apply Hne.
Qed.

(** * Properties of the further parts *)

(** ** The store: overwriting, sweeping, counting *)

Lemma lookupSession_value (C : list OAIMessage) (st : Store) :
  C <> [] ->
  (lookupSession C st).1 = sessionId <$> sessions st !! hashMessages C.
Proof.
  intros HC. unfold lookupSession. destruct C as [|m C]; [done|].
  simpl length. simpl Nat.eqb. cbv iota.
  by destruct (sessions st !! hashMessages (m :: C)).
Qed.

(** X1. The last [storeSession] for a context wins without adding an
    entry, and a [storeSession] leaves the lookup of every context with
    another digest as it was. *)
Theorem X1_store_overwrites_and_frames :
  (forall (C : list OAIMessage) (S1 S2 : string) (t1 t2 : Z) (st : Store),
      C <> [] ->
      (lookupSession C (storeSession C S2 t2 (storeSession C S1 t1 st))).1 = Some S2
      /\ getSessionCount (storeSession C S2 t2 (storeSession C S1 t1 st))
         = getSessionCount (storeSession C S1 t1 st))
  /\ (forall (C C' : list OAIMessage) (S : string) (t : Z) (st : Store),
      hashMessages C <> hashMessages C' ->
      (lookupSession C' (storeSession C S t st)).1 = (lookupSession C' st).1).
Proof.
  split.
  - intros C S1 S2 t1 t2 st HC. split.
    + by rewrite lookup_after_store.
    + unfold getSessionCount, storeSession. cbn [sessions].
      apply map_size_insert_Some. rewrite lookup_insert_eq. by eexists.
  - intros C C' S t st Hne. unfold lookupSession.
    destruct (length C' =? 0)%nat; [reflexivity|].
    unfold storeSession. cbn [sessions].
    rewrite lookup_insert_ne by exact Hne.
    by destruct (sessions st !! hashMessages C').
Qed.

Lemma X1_witness :
  (lookupSession [sample_user "b"]
     (storeSession [sample_user "a"] "sess-a" 5 empty_store)).1
  = (lookupSession [sample_user "b"] empty_store).1.
Proof.
  apply (proj2 X1_store_overwrites_and_frames).
  vm_compute. discriminate.
Defined.

Lemma cleanup_fold_count (ttlMs now : Z) :
  forall (l : list (string * SessionEntry)) (m : gmap string SessionEntry) (n : nat),
    (fold_left (cleanup_step ttlMs now) l (m, n)).2
    = (n + length (filter (fun he => expired ttlMs now he.2) l))%nat.
Proof.
  induction l as [|[k e] l IH]; intros m n.
  - rewrite filter_nil. simpl. lia.
  - simpl fold_left. unfold cleanup_step at 2. cbn [fst snd].
    destruct (now - createdAt e >? ttlMs) eqn:He.
    + rewrite IH. rewrite filter_cons_True.
      * simpl. lia.
      * simpl. unfold expired. by rewrite He.
    + rewrite IH. rewrite filter_cons_False; [reflexivity|].
      simpl. unfold expired. rewrite He. intros [].
Qed.

(** The sweep as a filter of the map. *)
Lemma cleanup_sessions_filter (ttlMs now : Z) (st : Store) :
  sessions (cleanupSessions ttlMs now st)
  = filter (fun he => negb (expired ttlMs now he.2)) (sessions st).
Proof.
  apply map_eq. intros h. rewrite cleanup_lookup, map_lookup_filter.
  destruct (sessions st !! h) as [e|]; simpl; [|reflexivity].
  unfold expired. destruct (now - createdAt e >? ttlMs); reflexivity.
Qed.

Lemma filter_bool_none {A} (P : A -> bool) (l : list A) :
  (forall x, x ∈ l -> P x = false) -> filter P l = [].
Proof.
  induction l as [|x l IH]; intros H; [reflexivity|].
  rewrite filter_cons_False.
  - apply IH. intros y Hy. apply H. by right.
  - rewrite (H x) by (by left). intros [].
Qed.

(** X2. A sweep that finds no expired entry changes nothing, not even
    the dirty flag; a sweep that finds one marks the store dirty; a
    sweep never adds entries, and sweeping twice at the same time is the
    same as sweeping once. *)
Theorem X2_sweep_dirty_and_count (ttlMs now : Z) (st : Store) :
  ((forall h e, sessions st !! h = Some e -> now - createdAt e <= ttlMs) ->
     cleanupSessions ttlMs now st = st)
  /\ ((exists h e, sessions st !! h = Some e /\ now - createdAt e > ttlMs) ->
     dirty (cleanupSessions ttlMs now st) = true)
  /\ (getSessionCount (cleanupSessions ttlMs now st) <= getSessionCount st)%nat
  /\ sessions (cleanupSessions ttlMs now (cleanupSessions ttlMs now st))
     = sessions (cleanupSessions ttlMs now st).
Proof.
  pose proof (cleanup_fold_count ttlMs now (map_to_list (sessions st)) (sessions st) 0)
    as Hcount.
  pose proof (cleanup_sessions_filter ttlMs now st) as Hfilter.
  split; [|split; [|split]].
  - intros Hfresh.
    assert (Hkeep : forall h e, sessions st !! h = Some e -> expired ttlMs now e = false).
    { intros h e He. unfold expired.
      destruct (Z.gtb_spec (now - createdAt e) ttlMs); [|reflexivity].
      specialize (Hfresh h e He). lia. }
    rewrite (filter_bool_none (fun he => expired ttlMs now he.2)) in Hcount.
    + rewrite map_filter_id in Hfilter
        by (intros h e He; simpl; by rewrite (Hkeep h e He)).
      destruct st as [m d]. unfold cleanupSessions in *. simpl in *.
      rewrite Hcount, Hfilter. reflexivity.
    + intros [h e] Hin. apply elem_of_map_to_list in Hin. exact (Hkeep h e Hin).
  - intros (h & e & He & Hage).
    unfold cleanupSessions. cbn [dirty]. rewrite Hcount.
    assert (Hin : (h, e) ∈ filter (fun he : string * SessionEntry => expired ttlMs now he.2)
                     (map_to_list (sessions st))).
    { apply list_elem_of_filter. split.
      - simpl. unfold expired.
        destruct (Z.gtb_spec (now - createdAt e) ttlMs); [exact I|lia].
      - by apply elem_of_map_to_list. }
    destruct (filter _ _) as [|x l]; [by apply elem_of_nil in Hin|].
    reflexivity.
  - unfold getSessionCount. rewrite Hfilter.
    apply map_subseteq_size, map_filter_subseteq.
  - apply map_eq. intros h. rewrite !cleanup_lookup.
    destruct (sessions st !! h) as [e|]; [|reflexivity].
    destruct (now - createdAt e >? ttlMs) eqn:He; [reflexivity|]. by rewrite He.
Qed.

Lemma X2_witness : cleanupSessions 5000 4000 sample_store = sample_store.
Proof.
  apply (proj1 (X2_sweep_dirty_and_count 5000 4000 sample_store)).
  intros h e He.
  destruct (decide (h = "old")) as [->|Hn1];
    [|destruct (decide (h = "new")) as [->|Hn2]].
  - vm_compute in He. injection He as <-. simpl. lia.
  - vm_compute in He. injection He as <-. simpl. lia.
  - unfold sample_store in He. simpl in He.
    rewrite lookup_insert_ne, lookup_insert_ne, lookup_empty in He by done.
    discriminate.
Defined.

(** X3. A session stored at time [t] is found again after a sweep at
    time [t'] exactly when [t' - t] does not exceed the time-to-live. *)
Theorem X3_store_then_sweep (C : list OAIMessage) (S : string) (t t' ttlMs : Z)
  (st : Store) :
  C <> [] ->
  (lookupSession C (cleanupSessions ttlMs t' (storeSession C S t st))).1
  = if t' - t >? ttlMs then None else Some S.
Proof.
  intros HC. rewrite lookupSession_value by assumption.
  rewrite cleanup_lookup. unfold storeSession; simpl.
  rewrite lookup_insert_eq. simpl.
  by destruct (t' - t >? ttlMs).
Qed.

Lemma X3_witness :
  (lookupSession [sample_user "hi"]
     (cleanupSessions 3600000 3600001
        (storeSession [sample_user "hi"] "sess-1" 0 empty_store))).1 = None
  /\ (lookupSession [sample_user "hi"]
       (cleanupSessions 3600000 3600000
          (storeSession [sample_user "hi"] "sess-1" 0 empty_store))).1 = Some "sess-1".
Proof.
  split.
  - apply (X3_store_then_sweep [sample_user "hi"] "sess-1" 0 3600001 3600000
             empty_store). discriminate.
  - apply (X3_store_then_sweep [sample_user "hi"] "sess-1" 0 3600000 3600000
             empty_store). discriminate.
Defined.

(** ** The translators: content, frames and the stored session *)

Lemma string_app_inv_head (a b c : string) : a ++ b = a ++ c -> b = c.
Proof.
  induction a as [|x a IH]; [done|].
  rewrite !str_app_cons. intros H. apply String_tail_inj in H. by apply IH.
Qed.

Lemma string_length_app (a b : string) :
  String.length (a ++ b) = (String.length a + String.length b)%nat.
Proof.
  induction a as [|x a IH]; [reflexivity|].
  rewrite str_app_cons. simpl. by rewrite IH.
Qed.

Lemma string_app_inv_tail (a b c : string) : a ++ c = b ++ c -> a = b.
Proof.
  revert b. induction a as [|x a IH]; intros [|y b] H.
  - reflexivity.
  - apply (f_equal String.length) in H.
    rewrite str_app_nil, str_app_cons in H. simpl in H.
    rewrite string_length_app in H. lia.
  - apply (f_equal String.length) in H.
    rewrite str_app_nil, str_app_cons in H. simpl in H.
    rewrite string_length_app in H. lia.
  - rewrite !str_app_cons in H. injection H as -> H. f_equal. by apply IH.
Qed.

Lemma last_session_id_cons (l : ClaudeStreamLine) (ls : list ClaudeStreamLine) :
  last_session_id (l :: ls) =
  match last_session_id ls with
  | Some sid => Some sid
  | None => line_session l
  end.
Proof.
  unfold last_session_id.
  change (omap line_session (l :: ls)) with
    (match line_session l with
     | Some r => r :: omap line_session ls
     | None => omap line_session ls
     end).
  destruct (line_session l) as [sid|].
  - rewrite last_cons. by destruct (last (omap line_session ls)).
  - by destruct (last (omap line_session ls)).
Qed.

Lemma stream_line_session (l : ClaudeStreamLine) (s : StreamState) :
  s_resultSessionId (stream_line l s) =
  match line_session l with
  | Some sid => Some sid
  | None => s_resultSessionId s
  end.
Proof.
  destruct l as [ev|sid is_err res|]; unfold stream_line, line_session.
  - destruct (text_delta ev); [reflexivity|]. by destruct (stop_delta ev).
  - destruct res as [r|]; [|reflexivity]. by destruct (is_err && truthy r).
  - reflexivity.
Qed.

Lemma stream_fold_session (ls : list ClaudeStreamLine) :
  forall s : StreamState,
    s_resultSessionId (fold_left (fun s l => stream_line l s) ls s) =
    match last_session_id ls with
    | Some sid => Some sid
    | None => s_resultSessionId s
    end.
Proof.
  induction ls as [|l ls IH]; intros s; [reflexivity|].
  simpl fold_left. rewrite IH, last_session_id_cons, stream_line_session.
  by destruct (last_session_id ls).
Qed.

Lemma agg_line_session (l : ClaudeStreamLine) (s : AggState) :
  a_resultSessionId (agg_line l s) =
  match line_session l with
  | Some sid => Some sid
  | None => a_resultSessionId s
  end.
Proof.
  destruct l as [ev|sid is_err res|]; unfold agg_line, line_session.
  - destruct (text_delta ev); [reflexivity|]. by destruct (stop_delta ev).
  - reflexivity.
  - reflexivity.
Qed.

Lemma agg_fold_session (ls : list ClaudeStreamLine) :
  forall s : AggState,
    a_resultSessionId (fold_left (fun s l => agg_line l s) ls s) =
    match last_session_id ls with
    | Some sid => Some sid
    | None => a_resultSessionId s
    end.
Proof.
  induction ls as [|l ls IH]; intros s; [reflexivity|].
  simpl fold_left. rewrite IH, last_session_id_cons, agg_line_session.
  by destruct (last_session_id ls).
Qed.

(** Without an error result the aggregated content is the text of the
    stream. *)
Lemma agg_fold_text (ls : list ClaudeStreamLine) :
  forall s : AggState,
    existsb is_error_result ls = false ->
    a_assistantContent (fold_left (fun s l => agg_line l s) ls s)
      = a_assistantContent s ++ concat_text ls.
Proof.
  induction ls as [|l ls IH]; intros s Hne.
  - simpl. by rewrite string_app_nil_r.
  - simpl in Hne. apply orb_false_iff in Hne as [Hl Hls].
    simpl fold_left. rewrite IH by assumption.
    change (concat_text (l :: ls)) with (line_text l ++ concat_text ls).
    rewrite <- string_app_assoc. f_equal.
    destruct l as [ev|sid is_err res|]; unfold agg_line, line_text.
    + destruct (text_delta ev) as [t|]; [reflexivity|].
      simpl. rewrite string_app_nil_r. by destruct (stop_delta ev).
    + cbn [a_assistantContent]. simpl in Hl.
      destruct res as [r|]; [rewrite Hl|]; by rewrite string_app_nil_r.
    + by rewrite string_app_nil_r.
Qed.

Lemma with_fallback_closing (stderr content : string) :
  content ++ streamed_content (closing_frames stderr content)
    = with_fallback stderr content.
Proof.
  unfold closing_frames, with_fallback.
  rewrite !streamed_content_app.
  assert (Hfin : forall b : bool,
    streamed_content (if b then [data stopChunk] else []) = "")
    by (by intros []).
  rewrite Hfin.
  destruct (negb (truthy content) && truthy stderr) eqn:Hf.
  - apply andb_true_iff in Hf as [Hc _]. apply negb_true_iff in Hc.
    rewrite (truthy_false _ Hc). simpl. by rewrite !string_app_nil_r.
  - simpl. by rewrite !string_app_nil_r.
Qed.

Lemma stream_epilogue_open (stderr : string) (s : StreamState) :
  s_written (stream_epilogue stderr false s)
    = (s_written s ++ closing_frames stderr (s_assistantContent s))%list
  /\ s_assistantContent (stream_epilogue stderr false s)
    = with_fallback stderr (s_assistantContent s)
  /\ s_resultSessionId (stream_epilogue stderr false s) = s_resultSessionId s.
Proof.
  unfold stream_epilogue, closing_frames, with_fallback.
  rewrite andb_true_r. cbn [negb].
  destruct (negb (truthy (s_assistantContent s)) && truthy stderr);
    cbn [s_assistantContent write s_written s_resultSessionId];
    match goal with |- context [if ?b then write _ _ else _] => destruct b end;
    cbn [s_assistantContent write s_written s_resultSessionId];
    rewrite <- ?app_assoc; repeat split.
Qed.

(** The whole of a streamed response on a connection that stays open. *)
Lemma handleStreaming_open (messages : list OAIMessage) (ls : list ClaudeStreamLine)
  (b : bool) (stderr : string) (now : Z) (st : Store) :
  exists groups,
    emits_all usage0 ls groups
    /\ streamed_content (concat groups) = concat_text ls
    /\ handleStreaming messages {| lines := ls; throws := b |} stderr None now st =
       ((data roleChunk :: concat groups
         ++ notice_frames b
         ++ closing_frames stderr (concat_text ls))%list,
        store_result messages (last_session_id ls)
          (with_fallback stderr (concat_text ls)) now st).
Proof.
  destruct (stream_fold_spec ls stream_init) as (groups & Hall & Hw & Hc & Hsc).
  pose proof (stream_fold_session ls stream_init) as Hs.
  exists groups. split; [assumption|]. split; [assumption|].
  unfold handleStreaming, stream_final, stream_loop. cbn [throws lines].
  change (bool_decide (is_Some None)) with false.
  set (s := fold_left _ ls stream_init) in *.
  set (s' := if b then write (data (contentChunk STREAM_INTERRUPTED)) s else s).
  assert (Hs' : s_written s' = (s_written s ++
            notice_frames b)%list
          /\ s_assistantContent s' = s_assistantContent s
          /\ s_resultSessionId s' = s_resultSessionId s).
  { subst s'. unfold notice_frames. destruct b; simpl; [|rewrite app_nil_r]; repeat split. }
  destruct Hs' as (Hw' & Hc' & Hid').
  destruct (stream_epilogue_open stderr s') as (-> & -> & ->).
  rewrite Hw', Hc', Hid', Hw, Hc, Hs. simpl.
  rewrite <- !app_assoc. f_equal.
  by destruct (last_session_id ls).
Qed.

(** The response of a streamed request whose client has gone. *)
Lemma handleStreaming_closed (messages : list OAIMessage) (em : LineEmitter)
  (stderr : string) (n : nat) (now : Z) (st : Store) :
  let s := fold_left (fun s l => stream_line l s) (firstn n (lines em)) stream_init in
  handleStreaming messages em stderr (Some n) now st =
  (s_written s,
   store_result messages (s_resultSessionId s) (s_assistantContent s) now st).
Proof.
  unfold handleStreaming, stream_final, stream_loop.
  change (bool_decide (is_Some (Some n))) with true.
  unfold stream_epilogue. by rewrite andb_false_r.
Qed.

Lemma emits_no_sentinel (u : Usage) (ls : list ClaudeStreamLine)
  (groups : list (list Frame)) :
  emits_all u ls groups -> ~ In DONE (concat groups).
Proof.
  induction 1 as [|u l fs ls groups Hem _ IH]; [by intros []|].
  simpl. intros Hin. apply in_app_or in Hin as [Hin|Hin]; [|by apply IH].
  inversion Hem; subst; simpl in Hin; intuition discriminate.
Qed.

Lemma handleNonStreaming_ok (messages : list OAIMessage) (ls : list ClaudeStreamLine)
  (stderr : string) (now : Z) (st : Store) :
  handleNonStreaming messages (emitter ls) stderr now st =
  (ok_200 (agg_response stderr (agg_loop ls)),
   store_result messages (last_session_id ls)
     (with_fallback stderr (a_assistantContent (agg_loop ls))) now st).
Proof.
  unfold handleNonStreaming, emitter. cbn [throws lines].
  unfold agg_content, with_fallback, agg_loop.
  rewrite agg_fold_session. simpl.
  by destruct (last_session_id ls).
Qed.

Lemma streamed_open (groups : list (list Frame)) (b : bool) (stderr text : string) :
  b = false ->
  streamed_content (concat groups) = text ->
  streamed_content
    (data roleChunk :: concat groups
     ++ notice_frames b
     ++ closing_frames stderr text)%list
  = with_fallback stderr text.
Proof.
  intros -> Hsc.
  change (streamed_content (data roleChunk :: ?l)) with ("" ++ streamed_content l).
  rewrite !streamed_content_app, Hsc. unfold notice_frames. simpl.
  apply with_fallback_closing.
Qed.

(** X4. On a stream without an error result, read to its end on an open
    connection, the two modes agree: the text a client assembles from the
    streamed chunks is the content of the non-streaming response, and
    both leave the same session store. *)
Theorem X4_modes_agree (messages : list OAIMessage) (ls : list ClaudeStreamLine)
  (stderr : string) (now : Z) (st : Store) :
  existsb is_error_result ls = false ->
  (exists resp,
      (handleNonStreaming messages (emitter ls) stderr now st).1 = ok_200 resp
      /\ message_content resp
         = streamed_content (handleStreaming messages (emitter ls) stderr None now st).1)
  /\ (handleStreaming messages (emitter ls) stderr None now st).2
     = (handleNonStreaming messages (emitter ls) stderr now st).2.
Proof.
  intros Hne.
  destruct (handleStreaming_open messages ls false stderr now st)
    as (groups & _ & Hsc & Hs).
  unfold emitter. rewrite Hs. fold (emitter ls). rewrite handleNonStreaming_ok.
  cbn [fst snd].
  assert (Hagg : a_assistantContent (agg_loop ls) = concat_text ls)
    by (unfold agg_loop; by rewrite agg_fold_text).
  split.
  - eexists. split; [reflexivity|].
    rewrite streamed_open by done.
    cbn [agg_response message_content]. unfold agg_content. by rewrite Hagg.
  - by rewrite Hagg.
Qed.

Lemma X4_witness :
  (handleStreaming [sample_user "say hello"]
     (emitter (hello_stream None "sess-42" false None)) "" None 1000 empty_store).2
  = (handleNonStreaming [sample_user "say hello"]
       (emitter (hello_stream None "sess-42" false None)) "" 1000 empty_store).2.
Proof.
  apply (X4_modes_agree [sample_user "say hello"]
           (hello_stream None "sess-42" false None) "" 1000 empty_store).
  reflexivity.
Defined.

(** X5. What is stored, and under what. When the last result line of
    the stream carries a non-empty session id, each mode stores that id,
    with the time of the response, under the digest of the list it
    builds: the messages it was given followed by an assistant message
    whose content is the assistant content it aggregated. With an emitter
    that does not throw, on an open connection, that content is the text
    of the streamed chunks, or the content of the non-streaming response.
    When the emitter throws in streaming mode the entry is stored all the
    same, but the text of the streamed chunks holds the notice and is not
    the stored content. *)
Theorem X5_stored_under_aggregated_content (messages : list OAIMessage)
  (ls : list ClaudeStreamLine) (stderr : string) (now : Z) (st : Store) (sid : string) :
  last_session_id ls = Some sid ->
  truthy sid = true ->
  (forall b : bool,
      let r := handleStreaming messages {| lines := ls; throws := b |} stderr None
                 now st in
      sessions r.2
        !! hashMessages
             (messages ++ [assistant_turn (with_fallback stderr (concat_text ls))])
        = Some {| sessionId := sid; createdAt := now |}
      /\ (b = false -> streamed_content r.1 = with_fallback stderr (concat_text ls))
      /\ (b = true -> streamed_content r.1 <> with_fallback stderr (concat_text ls)))
  /\ (exists resp,
       let r := handleNonStreaming messages (emitter ls) stderr now st in
       r.1 = ok_200 resp
       /\ sessions r.2 !! hashMessages (messages ++ [assistant_turn (message_content resp)])
          = Some {| sessionId := sid; createdAt := now |}).
Proof.
  intros Hlast Hsid. split.
  - intros b.
    destruct (handleStreaming_open messages ls b stderr now st)
      as (groups & _ & Hsc & Hs).
    cbv zeta. rewrite Hs. cbn [fst snd]. rewrite Hlast.
    split; [exact (proj1 (store_result_lookup messages sid _ now st Hsid))|].
    split.
    + intros ->. by apply streamed_open.
    + intros ->.
      change (streamed_content (data roleChunk :: ?l)) with ("" ++ streamed_content l).
      rewrite !streamed_content_app, Hsc, str_app_nil.
      rewrite <- (with_fallback_closing stderr (concat_text ls)).
      intros H%string_app_inv_head.
      apply (f_equal String.length) in H. unfold notice_frames in H.
      change (streamed_content [data (contentChunk STREAM_INTERRUPTED)])
        with (STREAM_INTERRUPTED ++ "") in H.
      rewrite !string_length_app in H. simpl in H. lia.
  - eexists. rewrite handleNonStreaming_ok. cbn [fst snd].
    split; [reflexivity|]. rewrite Hlast.
    cbn [agg_response message_content]. unfold agg_content.
    fold (with_fallback stderr (a_assistantContent (agg_loop ls))).
    exact (proj1 (store_result_lookup messages sid _ now st Hsid)).
Qed.

Lemma X5_witness :
  sessions
    (handleStreaming [sample_user "q"]
       {| lines := hello_stream None "sess-42" false None; throws := false |} "" None 7
       empty_store).2
    !! hashMessages
         ([sample_user "q"]
          ++ [assistant_turn
                (with_fallback "" (concat_text (hello_stream None "sess-42" false None)))])
  = Some {| sessionId := "sess-42"; createdAt := 7 |}.
Proof.
  apply (proj1 (X5_stored_under_aggregated_content [sample_user "q"]
                  (hello_stream None "sess-42" false None) "" 7 empty_store "sess-42"
                  eq_refl eq_refl) false).
Defined.

(** X6. An emitter that throws after its lines, on an open connection:
    the streamed response is that of the same lines without the throw,
    with one notice chunk inserted between the frames of the lines and the
    closing frames, and the same session is stored, under the content
    without the notice. The non-streaming mode answers 500 and stores
    nothing, whatever the lines held. *)
Theorem X6_emitter_throws (messages : list OAIMessage) (ls : list ClaudeStreamLine)
  (stderr : string) (now : Z) (st : Store) :
  (exists pre post,
      (handleStreaming messages {| lines := ls; throws := false |} stderr None now st).1
        = (pre ++ post)%list
      /\ (handleStreaming messages {| lines := ls; throws := true |} stderr None now st).1
        = (pre ++ data (contentChunk STREAM_INTERRUPTED) :: post)%list
      /\ streamed_content pre = concat_text ls
      /\ post = closing_frames stderr (concat_text ls))
  /\ (handleStreaming messages {| lines := ls; throws := true |} stderr None now st).2
     = (handleStreaming messages {| lines := ls; throws := false |} stderr None now st).2
  /\ handleNonStreaming messages {| lines := ls; throws := true |} stderr now st
     = (error_500, st).
Proof.
  destruct (handleStreaming_open messages ls false stderr now st)
    as (g1 & H1 & Hsc & ->).
  destruct (handleStreaming_open messages ls true stderr now st)
    as (g2 & H2 & _ & ->).
  assert (g2 = g1) as ->.
  { clear -H1 H2. revert g2 H2.
    induction H1 as [|u l fs ls groups Hem _ IH]; intros g2 H2;
      inversion H2 as [|? ? fs' ? groups' Hem' Hall']; subst; [reflexivity|].
    f_equal; [|by apply IH].
    clear -Hem Hem'.
    inversion Hem; subst; inversion Hem'; subst; try reflexivity; try congruence.
    - match goal with
      | H : stop_delta _ = Some _ |- _ =>
          pose proof (stop_delta_not_text _ _ H); congruence
      end.
    - match goal with
      | H : stop_delta _ = Some _ |- _ =>
          pose proof (stop_delta_not_text _ _ H); congruence
      end.
    - simpl in *. match goal with H : truthy _ = true |- _ => rewrite H in * end.
      discriminate.
    - simpl in *. match goal with H : truthy _ = true |- _ => rewrite H in * end.
      discriminate. }
  cbn [fst snd]. split; [|split; reflexivity].
  exists (data roleChunk :: concat g1), (closing_frames stderr (concat_text ls)).
  split; [reflexivity|]. split.
  - reflexivity.
  - split; [|reflexivity].
    change (streamed_content (data roleChunk :: ?l)) with ("" ++ streamed_content l).
    by rewrite Hsc.
Qed.

(** X7. A client that disconnects once [n] lines have been handled: the
    frames written are a prefix of those of the open connection and do
    not hold the sentinel, their text is that of the first [n] lines, and
    the session of the last result line among these is still stored, under
    the partial content. *)
Theorem X7_client_disconnect (messages : list OAIMessage) (ls : list ClaudeStreamLine)
  (b : bool) (stderr : string) (n : nat) (now : Z) (st : Store) :
  let r := handleStreaming messages {| lines := ls; throws := b |} stderr (Some n) now st in
  r.1 `prefix_of`
    (handleStreaming messages {| lines := ls; throws := b |} stderr None now st).1
  /\ ~ In DONE r.1
  /\ streamed_content r.1 = concat_text (firstn n ls)
  /\ r.2 = store_result messages (last_session_id (firstn n ls))
             (concat_text (firstn n ls)) now st.
Proof.
  cbv zeta. rewrite handleStreaming_closed. cbn [lines fst snd].
  destruct (stream_fold_spec (firstn n ls) stream_init) as (g1 & H1 & Hw1 & Hc1 & Hsc1).
  pose proof (stream_fold_session (firstn n ls) stream_init) as Hs1.
  set (s1 := fold_left _ (firstn n ls) stream_init) in *.
  split; [|split; [|split]].
  - unfold handleStreaming, stream_final, stream_loop. cbn [lines throws fst].
    change (bool_decide (is_Some None)) with false.
    destruct (stream_fold_spec (skipn n ls) s1) as (g2 & _ & Hw2 & _).
    set (s2 := fold_left _ (skipn n ls) s1) in *.
    assert (Hfold : fold_left (fun s l => stream_line l s) ls stream_init = s2).
    { subst s2 s1. by rewrite <- fold_left_app, firstn_skipn. }
    rewrite Hfold.
    set (s3 := if b then write (data (contentChunk STREAM_INTERRUPTED)) s2 else s2).
    assert (H3 : exists k, s_written s3 = (s_written s2 ++ k)%list).
    { subst s3. destruct b; [by exists [data (contentChunk STREAM_INTERRUPTED)]|].
      exists []. by rewrite app_nil_r. }
    destruct H3 as (k & H3).
    destruct (stream_epilogue_open stderr s3) as (-> & _).
    rewrite H3, Hw2, <- !app_assoc. by eexists.
  - rewrite Hw1. simpl. intros [Hin|Hin]; [discriminate|].
    by apply (emits_no_sentinel _ _ _ H1).
  - rewrite Hw1. simpl.
    change (streamed_content (data roleChunk :: ?l)) with ("" ++ streamed_content l).
    by rewrite Hsc1.
  - rewrite Hc1, Hs1. simpl. by destruct (last_session_id _).
Qed.

(** X8. The session stored is that of the last result line. When the
    stream has no result line, or its last result line has an empty
    session id, neither mode changes the store, whatever else the stream
    holds and whether or not the emitter throws. *)
Theorem X8_no_session_no_store (messages : list OAIMessage)
  (ls : list ClaudeStreamLine) (b : bool) (stderr : string) (now : Z) (st : Store) :
  last_session_id ls = None \/ last_session_id ls = Some "" ->
  (handleStreaming messages {| lines := ls; throws := b |} stderr None now st).2 = st
  /\ (handleNonStreaming messages {| lines := ls; throws := b |} stderr now st).2 = st.
Proof.
  intros Hlast. split.
  - destruct (handleStreaming_open messages ls b stderr now st) as (g & _ & _ & ->).
    cbn [snd]. by destruct Hlast as [-> | ->].
  - destruct b; [reflexivity|].
    fold (emitter ls). rewrite handleNonStreaming_ok. cbn [snd].
    by destruct Hlast as [-> | ->].
Qed.

Lemma X8_witness :
  (handleStreaming [sample_user "q"]
     {| lines := [result "sess-1" false None; ev_text "x"; result "" false None];
        throws := false |} "" None 3 sample_store).2 = sample_store.
Proof.
  apply (X8_no_session_no_store [sample_user "q"]
           [result "sess-1" false None; ev_text "x"; result "" false None]
           false "" 3 sample_store).
  right. reflexivity.
Defined.

Lemma store_result_ids (messages : list OAIMessage) (sid : option string)
  (text : string) (now : Z) (st : Store) :
  ids_nonempty st -> ids_nonempty (store_result messages sid text now st).
Proof.
  intros Hst. unfold store_result.
  destruct sid as [sid|]; [|assumption].
  destruct (truthy sid) eqn:Hsid; [|assumption].
  intros h e. unfold storeSession. cbn [sessions].
  destruct (decide (h = hashMessages (messages ++ [assistant_turn text]))) as [->|Hne].
  - unfold assistant_turn. rewrite lookup_insert_eq. by intros [= <-].
  - rewrite lookup_insert_ne by done. apply Hst.
Qed.

(** X9. No session is ever stored under an empty id. If every id in the
    store is a non-empty string, this is still so after a streamed
    response, after a non-streaming response and after a sweep, and a
    lookup never answers with the empty string. *)
Theorem X9_session_ids_nonempty (st : Store) :
  ids_nonempty st ->
  (forall messages em stderr d now,
      ids_nonempty (handleStreaming messages em stderr d now st).2)
  /\ (forall messages em stderr now,
      ids_nonempty (handleNonStreaming messages em stderr now st).2)
  /\ (forall ttlMs now, ids_nonempty (cleanupSessions ttlMs now st))
  /\ (forall C sid, (lookupSession C st).1 = Some sid -> truthy sid = true).
Proof.
  intros Hst. repeat split.
  - intros. unfold handleStreaming. cbn [snd]. by apply store_result_ids.
  - intros. unfold handleNonStreaming. destruct (throws em); [assumption|].
    cbn [snd]. by apply store_result_ids.
  - intros ttlMs now h e. rewrite cleanup_lookup.
    destruct (sessions st !! h) as [e'|] eqn:He; [|discriminate].
    destruct (now - createdAt e' >? ttlMs); [discriminate|].
    intros [= <-]. by apply (Hst h).
  - intros C sid. unfold lookupSession.
    destruct (length C =? 0)%nat; [discriminate|].
    destruct (sessions st !! hashMessages C) as [e|] eqn:He; [|discriminate].
    cbn [fst]. intros [= <-]. by apply (Hst _ _ He).
Qed.

Lemma X9_witness :
  ids_nonempty
    (handleNonStreaming [sample_user "q"]
       (emitter (hello_stream None "sess-42" false None)) "" 7 empty_store).2
  /\ ids_nonempty (cleanupSessions 10 20 empty_store).
Proof.
  assert (H0 : ids_nonempty empty_store)
    by (intros h e H; vm_compute in H; discriminate).
  split.
  - apply (proj1 (proj2 (X9_session_ids_nonempty empty_store H0))).
  - apply (proj1 (proj2 (proj2 (X9_session_ids_nonempty empty_store H0)))).
Defined.

(** ** The working-directory decision: safety and the handshake *)

Lemma PATH_CONFIRMED_inj (p q : string) : PATH_CONFIRMED p = PATH_CONFIRMED q -> p = q.
Proof.
  unfold PATH_CONFIRMED. intros H.
  apply string_app_inv_head in H. by apply string_app_inv_tail in H.
Qed.

Lemma resolveValid_spec (env : Env) (text p : string) :
  resolveValid env text = Some p <->
  resolvePath env text = Some p /\ truthy p = true /\ isValidDirectory env p = true.
Proof.
  unfold resolveValid. destruct (resolvePath env text) as [r|].
  - destruct (truthy r && isValidDirectory env r) eqn:H.
    + apply andb_true_iff in H as [Ht Hv]. split.
      * by intros [= <-].
      * by intros ([= <-] & _).
    + split; [discriminate|]. intros ([= ->] & Ht & Hv). by rewrite Ht, Hv in H.
  - split; [discriminate|]. by intros [? _].
Qed.

Lemma role_cases (m : OAIMessage) :
  is_system m = false -> is_user m = false -> role m = assistant.
Proof. unfold is_system, is_user. by destruct (role m). Qed.

Lemma non_system_spec (messages : list OAIMessage) (m : OAIMessage) :
  In m (non_system messages) <-> In m messages /\ is_system m = false.
Proof.
  unfold non_system. rewrite <- !list_elem_of_In, list_elem_of_filter.
  destruct (is_system m); simpl; split; intros [H1 H2]; try done; by split.
Qed.

Lemma non_system_app (l1 l2 : list OAIMessage) :
  non_system (l1 ++ l2)%list = (non_system l1 ++ non_system l2)%list.
Proof. unfold non_system. apply filter_app. Qed.

Lemma non_system_keep (m : OAIMessage) (l : list OAIMessage) :
  is_system m = false -> non_system (m :: l) = m :: non_system l.
Proof. intros H. unfold non_system. rewrite filter_cons_True; [reflexivity | by_bool H]. Qed.

Lemma filter_system_skip (m : OAIMessage) (l : list OAIMessage) :
  is_system m = false -> filter is_system (m :: l) = filter is_system l.
Proof. intros H. rewrite filter_cons_False; [reflexivity | by_bool H]. Qed.

(** The last element selected by a filter splits the list. *)
Lemma last_filter_split (P : OAIMessage -> bool) (l : list OAIMessage) (m : OAIMessage) :
  last (filter P l) = Some m ->
  exists l1 l2, l = (l1 ++ m :: l2)%list /\ P m = true
                /\ forall x, In x l2 -> P x = false.
Proof.
  induction l as [|x l IH] using rev_ind; [by rewrite filter_nil|].
  rewrite filter_app. destruct (P x) eqn:Hx.
  - rewrite (filter_cons_True _ x []); [|by_bool Hx].
    rewrite filter_nil, last_snoc. intros [= <-].
    exists l, []. repeat split; [assumption|]. by intros ? [].
  - rewrite (filter_cons_False _ x []); [|by_bool Hx].
    rewrite filter_nil, app_nil_r. intros H.
    destruct (IH H) as (l1 & l2 & -> & Hm & Hl2).
    exists l1, (l2 ++ [x])%list. rewrite <- app_assoc. repeat split; [assumption|].
    intros y Hy. apply in_app_or in Hy as [Hy|[<-|[]]]; [by apply Hl2|assumption].
Qed.

Lemma pair_take_drop {A} (init : list A) (m a : A) (rest : list A) :
  take (length init) (init ++ m :: a :: rest)%list = init
  /\ drop (S (S (length init))) (init ++ m :: a :: rest)%list = rest
  /\ (init ++ m :: a :: rest)%list !! length init = Some m
  /\ (init ++ m :: a :: rest)%list !! S (length init) = Some a.
Proof.
  induction init as [|x init (IH1 & IH2 & IH3 & IH4)]; [by repeat split|].
  simpl. rewrite IH1. by repeat split.
Qed.

Lemma confirmed_at_app (env : Env) (ua more : list OAIMessage) (i : nat) (p : string) :
  confirmed_at env ua i p -> confirmed_at env (ua ++ more)%list i p.
Proof.
  intros (m & m' & Hm & Hr & Hv & Hm' & Hr'). exists m, m'.
  repeat split; try assumption; by apply lookup_app_l_Some.
Qed.

Lemma confirmed_at_prefix (env : Env) (ua more : list OAIMessage) (i : nat) (p : string) :
  (S i < length ua)%nat ->
  confirmed_at env (ua ++ more)%list i p -> confirmed_at env ua i p.
Proof.
  intros Hlt (m & m' & Hm & Hr & Hv & Hm' & Hr'). exists m, m'.
  rewrite lookup_app_l in Hm by lia. rewrite lookup_app_l in Hm' by lia.
  by repeat split.
Qed.

Lemma findConfirmed_nowhere (env : Env) (ua : list OAIMessage) :
  findConfirmed env ua (length ua) 0 = None ->
  forall j q, ~ confirmed_at env ua j q.
Proof.
  intros H j q Hc.
  apply (findConfirmed_none env ua _ _ H j q); [|assumption].
  destruct Hc as (m & _ & Hm & _). apply lookup_lt_Some in Hm. lia.
Qed.

Lemma findConfirmed_nowhere_inv (env : Env) (ua : list OAIMessage) :
  (forall j q, ~ confirmed_at env ua j q) ->
  findConfirmed env ua (length ua) 0 = None.
Proof.
  intros H. destruct (findConfirmed env ua (length ua) 0) as [[p k]|] eqn:Hf;
    [|reflexivity].
  apply findConfirmed_sound in Hf as [Hc _]. by destruct (H k p).
Qed.

Lemma lastUserText_snoc_user (ua : list OAIMessage) (m : OAIMessage) :
  role m = user ->
  lastUserText (ua ++ [m])%list = trim (getTextContent (content m)).
Proof.
  intros Hm. unfold lastUserText. rewrite filter_app.
  rewrite (filter_cons_True _ m []); [|unfold is_user; by rewrite Hm].
  by rewrite filter_nil, last_snoc.
Qed.

Lemma resolveValid_empty (env : Env) : resolveValid env "" = None.
Proof. reflexivity. Qed.

(** When the text of the last user turn names a valid directory and no
    pair is confirmed, that turn is the last of the conversation. *)
Lemma last_user_is_last (env : Env) (ua : list OAIMessage) (p : string) :
  (forall m, In m ua -> is_system m = false) ->
  (forall j q, ~ confirmed_at env ua j q) ->
  resolveValid env (lastUserText ua) = Some p ->
  exists init m,
    ua = (init ++ [m])%list /\ role m = user
    /\ resolveValid env (trim (getTextContent (content m))) = Some p.
Proof.
  intros Hns Hnone Hv. unfold lastUserText in Hv.
  destruct (last (filter is_user ua)) as [m|] eqn:Hlast;
    [|by rewrite resolveValid_empty in Hv].
  destruct (last_filter_split _ _ _ Hlast) as (l1 & l2 & -> & Hm & Hl2).
  assert (Hrole : role m = user) by (unfold is_user in Hm; by destruct (role m)).
  destruct l2 as [|a l2]; [by exists l1, m|].
  exfalso. apply (Hnone (length l1) p).
  destruct (pair_take_drop l1 m a l2) as (_ & _ & H3 & H4).
  exists m, a. split; [assumption|].
  split; [assumption|]. split; [assumption|]. split; [assumption|].
  apply role_cases.
    + apply Hns. apply in_or_app. right. right. by left.
    + apply Hl2. by left.
Qed.

Lemma spawn_cwd_some (config : Config) (p : string) :
  truthy p = true -> spawn_cwd config (Some p) = p.
Proof. intros H. unfold spawn_cwd. by rewrite H. Qed.

(** X10. The agent is only ever started in the configured default
    directory or in a directory that a user turn of the request names and
    that is a valid directory of the file system. *)
Theorem X10_cwd_named_and_valid (env : Env) (config : Config) (st : Store)
  (messages : list OAIMessage) (cwd : string) (cm : list OAIMessage)
  (sid : option string) :
  handleChatCompletions env config st messages = Invoke cwd cm sid ->
  cwd = claudeWorkingDir config
  \/ (truthy cwd = true
      /\ isValidDirectory env cwd = true
      /\ exists m, In m messages /\ role m = user
                   /\ resolvePath env (trim (getTextContent (content m))) = Some cwd).
Proof.
  unfold handleChatCompletions. fold (non_system messages).
  destruct (length messages =? 0)%nat; [discriminate|].
  destruct (findConfirmed env (non_system messages)
              (length (non_system messages)) 0) as [[p k]|] eqn:Hf.
  - apply findConfirmed_sound in Hf as ((m & m' & Hm & Hu & Hr & _) & _).
    apply resolveValid_spec in Hr as (Hp & Ht & Hv).
    rewrite spawn_cwd_some by assumption. intros [= <- _ _]. right.
    split; [assumption|]. split; [assumption|]. exists m.
    split; [|by split].
    apply list_elem_of_lookup_2, list_elem_of_In in Hm.
    by apply non_system_spec in Hm as [Hin _].
  - destruct (hasRealAssistantResponse (non_system messages)).
    + intros [= <- _ _]. by left.
    + destruct (resolvePath env (lastUserText (non_system messages))) as [r|];
        [destruct (truthy r && isValidDirectory env r)|]; discriminate.
Qed.

Lemma X10_witness :
  "/tmp" = claudeWorkingDir sample_config
  \/ (truthy "/tmp" = true
      /\ isValidDirectory tmp_env "/tmp" = true
      /\ exists m, In m tmp_history /\ role m = user
                   /\ resolvePath tmp_env (trim (getTextContent (content m)))
                      = Some "/tmp").
Proof.
  apply (X10_cwd_named_and_valid tmp_env sample_config empty_store tmp_history
           "/tmp" [sample_user "hello"] None).
  vm_compute. reflexivity.
Defined.

Lemma FakeResponse_inj (s t : string) : FakeResponse s = FakeResponse t -> s = t.
Proof. by intros [= ->]. Qed.

(** What the handler has established when it answers with the
    confirmation. *)
Lemma handler_confirms (env : Env) (config : Config) (st : Store)
  (messages : list OAIMessage) (p : string) :
  handleChatCompletions env config st messages = FakeResponse (PATH_CONFIRMED p) ->
  findConfirmed env (non_system messages) (length (non_system messages)) 0 = None
  /\ hasRealAssistantResponse (non_system messages) = false
  /\ resolveValid env (lastUserText (non_system messages)) = Some p.
Proof.
  unfold handleChatCompletions. fold (non_system messages).
  destruct (length messages =? 0)%nat; [discriminate|].
  destruct (findConfirmed env (non_system messages)
              (length (non_system messages)) 0) as [[q k]|]; [discriminate|].
  destruct (hasRealAssistantResponse (non_system messages)); [discriminate|].
  unfold resolveValid.
  destruct (resolvePath env (lastUserText (non_system messages))) as [r|].
  - destruct (truthy r && isValidDirectory env r).
    + intros H%FakeResponse_inj%PATH_CONFIRMED_inj. by subst.
    + intros H%FakeResponse_inj. apply (f_equal (startsWith MARK_CONFIRMED)) in H.
      rewrite (proj2 (proj2 marker_texts_have_marks)) in H. discriminate.
  - intros H%FakeResponse_inj. apply (f_equal (startsWith MARK_CONFIRMED)) in H.
    rewrite (proj2 (proj2 marker_texts_have_marks)) in H. discriminate.
Qed.

Lemma slice_init_snoc {A} (l : list A) (x : A) : slice_init (l ++ [x])%list = l.
Proof. unfold slice_init. apply removelast_last. Qed.

(** X11. The confirmation is honoured. If the handler answers a request
    with the confirmation of directory [p], then, the file system being
    the same, every continuation of that request by an assistant turn and
    any further messages is passed to the agent in [p], without the user
    turn that named the directory and without the assistant turn that
    follows it. *)
Theorem X11_confirmation_honoured (env : Env) (config : Config) (st st' : Store)
  (messages : list OAIMessage) (p : string) (a : OAIMessage)
  (more : list OAIMessage) :
  handleChatCompletions env config st messages = FakeResponse (PATH_CONFIRMED p) ->
  role a = assistant ->
  let claudeMessages :=
    (filter is_system (messages ++ a :: more)
     ++ slice_init (non_system messages) ++ non_system more)%list in
  handleChatCompletions env config st' (messages ++ a :: more)
    = Invoke p claudeMessages (lookupSession (slice_init claudeMessages) st').1.
Proof.
  intros Hfake Ha. apply handler_confirms in Hfake as (Hnone & _ & Hv).
  pose proof (findConfirmed_nowhere _ _ Hnone) as Hno.
  destruct (last_user_is_last env (non_system messages) p) as (init & m & Hua & Hm & Hvm);
    [intros x [_ Hx]%non_system_spec; exact Hx | assumption | assumption |].
  assert (Hsys : is_system a = false) by (unfold is_system; by rewrite Ha).
  assert (Hua' : non_system (messages ++ a :: more)
                 = (init ++ m :: a :: non_system more)%list).
  { rewrite non_system_app, non_system_keep, Hua by assumption.
    by rewrite <- app_assoc. }
  cbv zeta. rewrite Hua, slice_init_snoc.
  assert (Hc : confirmed_at env (non_system (messages ++ a :: more)) (length init) p).
  { rewrite Hua'. exists m, a.
    destruct (pair_take_drop init m a (non_system more)) as (_ & _ & H3 & H4).
    by repeat split. }
  rewrite (resume_general env config st' _ (length init) p Hc).
  - rewrite Hua'.
    destruct (pair_take_drop init m a (non_system more)) as (-> & -> & _).
    reflexivity.
  - intros j q Hj Hcj. apply (Hno j q). rewrite Hua.
    rewrite Hua' in Hcj.
    rewrite (cons_middle m init), app_assoc in Hcj.
    apply confirmed_at_prefix in Hcj; [assumption|].
    rewrite length_app. simpl. lia.
Qed.

Lemma X11_witness :
  handleChatCompletions tmp_env sample_config sample_store
    ([sample_user "/tmp"] ++ assistant_turn (PATH_CONFIRMED "/tmp") :: [sample_user "hello"])
  = Invoke "/tmp" [sample_user "hello"] None.
Proof.
  apply (X11_confirmation_honoured tmp_env sample_config empty_store sample_store
           [sample_user "/tmp"] "/tmp" (assistant_turn (PATH_CONFIRMED "/tmp"))
           [sample_user "hello"]); reflexivity.
Defined.

(** X12. The directory requirement cannot be skipped. In a conversation
    whose assistant turns all begin with one of the three marks (in
    particular one that holds only user turns and the proxy's own
    replies), the agent is reached only through a confirmed pair, in that
    pair's directory; otherwise the answer is one of the three synthetic
    replies, the confirmation only for a valid directory. *)
Theorem X12_path_required (env : Env) (config : Config) (st : Store)
  (messages : list OAIMessage) :
  messages <> [] ->
  (forall m, In m messages -> role m = assistant ->
             marked (getTextContent (content m)) = true) ->
  (exists t,
      handleChatCompletions env config st messages = FakeResponse t
      /\ (t = PATH_PROMPT \/ t = PATH_INVALID
          \/ exists p, t = PATH_CONFIRMED p /\ isValidDirectory env p = true))
  \/ (exists k p cm sid,
      confirmed_at env (non_system messages) k p
      /\ handleChatCompletions env config st messages = Invoke p cm sid).
Proof.
  intros Hne Hmarked.
  destruct (findConfirmed env (non_system messages)
              (length (non_system messages)) 0) as [[p k]|] eqn:Hf.
  - right. apply findConfirmed_sound in Hf as (Hc & _ & Hmin).
    exists k, p. eexists _, _. split; [exact Hc|].
    apply resume_general; [exact Hc|]. intros j q Hj. apply Hmin. lia.
  - left. unfold handleChatCompletions. fold (non_system messages).
    destruct messages as [|m0 ms] eqn:Hms; [done|]. rewrite <- Hms in *.
    replace (length messages =? 0)%nat with false by (by rewrite Hms).
    rewrite Hf.
    assert (Hreal : hasRealAssistantResponse (non_system messages) = false).
    { unfold hasRealAssistantResponse.
      destruct (existsb _ (non_system messages)) eqn:Hex; [|reflexivity].
      apply existsb_exists in Hex as (m & Hin & Hm).
      apply non_system_spec in Hin as [Hin _].
      destruct (is_assistant m) eqn:Ha; [|discriminate].
      assert (Hrole : role m = assistant)
        by (unfold is_assistant in Ha; by destruct (role m)).
      specialize (Hmarked m Hin Hrole). unfold marked in Hmarked.
      destruct (startsWith MARK_CONFIRMED _), (startsWith MARK_PROMPT _),
        (startsWith MARK_INVALID _); discriminate. }
    rewrite Hreal.
    destruct (resolvePath env (lastUserText (non_system messages))) as [r|].
    + destruct (truthy r && isValidDirectory env r) eqn:Hv.
      * apply andb_true_iff in Hv as [_ Hv]. eexists. split; [reflexivity|].
        right. right. by exists r.
      * eexists. split; [reflexivity|]. by right; left.
    + eexists. split; [reflexivity|]. by left.
Qed.

Lemma X12_witness :
  (exists t,
      handleChatCompletions tmp_env sample_config sample_store
        [sample_user "hi"; assistant_turn PATH_PROMPT; sample_user "/nowhere"]
        = FakeResponse t
      /\ (t = PATH_PROMPT \/ t = PATH_INVALID
          \/ exists p, t = PATH_CONFIRMED p /\ isValidDirectory tmp_env p = true))
  \/ (exists k p cm sid,
      confirmed_at tmp_env
        (non_system [sample_user "hi"; assistant_turn PATH_PROMPT; sample_user "/nowhere"])
        k p
      /\ handleChatCompletions tmp_env sample_config sample_store
           [sample_user "hi"; assistant_turn PATH_PROMPT; sample_user "/nowhere"]
         = Invoke p cm sid).
Proof.
  apply (X12_path_required tmp_env sample_config sample_store
           [sample_user "hi"; assistant_turn PATH_PROMPT; sample_user "/nowhere"]).
  - discriminate.
  - intros m [<-|[<-|[<-|[]]]]; intros Hr; first [discriminate Hr | reflexivity].
Defined.

Lemma slice_init_two {A} (l : list A) (a u : A) :
  slice_init (l ++ [a; u])%list = (l ++ [a])%list.
Proof.
  rewrite (cons_middle a l [u]), app_assoc. apply slice_init_snoc.
Qed.

Lemma hasReal_app (l more : list OAIMessage) :
  hasRealAssistantResponse l = true ->
  hasRealAssistantResponse (l ++ more)%list = true.
Proof.
  unfold hasRealAssistantResponse. intros H. by rewrite existsb_app, H.
Qed.

(** X13. The next turn is read as the continuation of the last. Let
    a request reach the agent in directory [cwd] on the messages [cm], in
    a conversation that has a confirmed directory or whose last user turn
    does not name a valid one. Then the request made of the same messages
    followed by an assistant turn and by one more turn that is not a
    system message reaches the agent in the same directory, on [cm]
    followed by the two new messages, and the session it resumes is the
    one the store holds for [cm] followed by the assistant turn. *)
Theorem X13_next_turn_continues (env : Env) (config : Config) (st st' : Store)
  (messages : list OAIMessage) (cwd : string) (cm : list OAIMessage)
  (sid0 : option string) (a u : OAIMessage) :
  handleChatCompletions env config st messages = Invoke cwd cm sid0 ->
  (exists k p, confirmed_at env (non_system messages) k p)
  \/ resolveValid env (lastUserText (non_system messages)) = None ->
  role a = assistant ->
  role u <> system ->
  handleChatCompletions env config st' (messages ++ [a; u])
    = Invoke cwd (cm ++ [a; u]) (lookupSession (cm ++ [a]) st').1.
Proof.
  intros Hinv Hcond Ha Hu.
  assert (Hsa : is_system a = false) by (unfold is_system; by rewrite Ha).
  assert (Hsu : is_system u = false) by (unfold is_system; by destruct (role u)).
  assert (Hua' : non_system (messages ++ [a; u]) = (non_system messages ++ [a; u])%list).
  { by rewrite non_system_app, !non_system_keep. }
  assert (Hsys' : filter is_system (messages ++ [a; u])%list = filter is_system messages).
  { rewrite filter_app, !filter_system_skip by assumption.
    by rewrite filter_nil, app_nil_r. }
  destruct (findConfirmed env (non_system messages)
              (length (non_system messages)) 0) as [[p k]|] eqn:Hf.
  - apply findConfirmed_sound in Hf as (Hc & _ & Hmin).
    assert (Hmin' : forall j q, (j < k)%nat -> ~ confirmed_at env (non_system messages) j q)
      by (intros j q Hj; apply Hmin; lia).
    rewrite (resume_general env config st messages k p Hc Hmin') in Hinv.
    injection Hinv as <- <- _.
    assert (Hlen : (S k < length (non_system messages))%nat).
    { destruct Hc as (_ & m' & _ & _ & _ & Hm' & _). by apply lookup_lt_Some in Hm'. }
    rewrite (resume_general env config st' (messages ++ [a; u]) k p).
    + rewrite Hsys', Hua'.
      rewrite take_app_le by lia. rewrite drop_app_le by lia.
      by rewrite !app_assoc, slice_init_two.
    + rewrite Hua'. by apply confirmed_at_app.
    + intros j q Hj Hcj. apply (Hmin' j q Hj). rewrite Hua' in Hcj.
      apply confirmed_at_prefix in Hcj; [assumption|lia].
  - pose proof (findConfirmed_nowhere _ _ Hf) as Hno.
    destruct Hcond as [(k & p & Hc)|Hlast]; [by destruct (Hno k p)|].
    unfold handleChatCompletions in Hinv. fold (non_system messages) in Hinv.
    destruct (length messages =? 0)%nat eqn:Hlen; [discriminate|].
    rewrite Hf in Hinv.
    destruct (hasRealAssistantResponse (non_system messages)) eqn:Hreal.
    + injection Hinv as <- <- _.
      unfold handleChatCompletions. fold (non_system (messages ++ [a; u])).
      replace (length (messages ++ [a; u]) =? 0)%nat with false
        by (rewrite length_app; simpl; symmetry; apply Nat.eqb_neq; lia).
      rewrite Hua'.
      rewrite findConfirmed_nowhere_inv.
      * rewrite hasReal_app by assumption. by rewrite slice_init_two.
      * intros j q Hcj.
        destruct (decide (S j < length (non_system messages))%nat) as [Hlt|Hge].
        { apply confirmed_at_prefix in Hcj; [|assumption]. by apply (Hno j q). }
        destruct Hcj as (m & m' & Hm & Hrm & Hvm & Hm' & Hrm').
        destruct (decide (S j = length (non_system messages))) as [Heq|Hne].
        -- rewrite lookup_app_l in Hm by lia.
           destruct (non_system messages) as [|x ua] eqn:Hnsm using rev_ind;
             [simpl in Heq; lia|].
           clear IHua. rewrite length_app in Heq. simpl in Heq.
           assert (j = length ua) as -> by lia.
           rewrite list_lookup_middle in Hm by reflexivity. injection Hm as <-.
           rewrite lastUserText_snoc_user in Hlast by assumption.
           by rewrite Hlast in Hvm.
        -- destruct (decide (j = length (non_system messages))) as [->|Hne'].
           ++ rewrite list_lookup_middle in Hm by reflexivity. injection Hm as <-.
              by rewrite Ha in Hrm.
           ++ apply lookup_lt_Some in Hm'. rewrite length_app in Hm'. simpl in Hm'. lia.
    + destruct (resolvePath env (lastUserText (non_system messages))) as [r|];
        [destruct (truthy r && isValidDirectory env r)|]; discriminate.
Qed.

Lemma X13_witness :
  handleChatCompletions tmp_env sample_config
    (store_result [sample_user "hello"] (Some "sess-42") "Hello!" 7 empty_store)
    (tmp_history ++ [assistant_turn "Hello!"; sample_user "and then?"])
  = Invoke "/tmp"
      ([sample_user "hello"] ++ [assistant_turn "Hello!"; sample_user "and then?"])
      (lookupSession ([sample_user "hello"] ++ [assistant_turn "Hello!"])
         (store_result [sample_user "hello"] (Some "sess-42") "Hello!" 7 empty_store)).1.
Proof.
  apply (X13_next_turn_continues tmp_env sample_config empty_store _ tmp_history "/tmp"
           [sample_user "hello"] None (assistant_turn "Hello!")
           (sample_user "and then?")).
  - vm_compute. reflexivity.
  - right. vm_compute. reflexivity.
  - reflexivity.
  - discriminate.
Defined.

(** In the witness above the session found is the one stored. *)
Example next_turn_finds_session :
  (lookupSession ([sample_user "hello"] ++ [assistant_turn "Hello!"])
     (store_result [sample_user "hello"] (Some "sess-42") "Hello!" 7 empty_store)).1
  = Some "sess-42".
Proof. vm_compute. reflexivity. Qed.

(** X14. The blocked prefixes are tested before symbolic links are
    followed. In a file system where [realpathSync] changes no path, no
    path that [resolvePath] returns lies under a blocked prefix. But the
    path of an existing link that is not itself under a blocked prefix
    resolves to the link's target, whatever that target is. *)
Theorem X14_blocked_before_links :
  (forall (env : Env) (text r : string),
      (forall p q, realpathSync env p = Some q -> q = p) ->
      resolvePath env text = Some r -> blocked r = false)
  /\ (forall (env : Env) (link target : string),
      startsWith "/" link = true ->
      blocked (path_resolve env link) = false ->
      existsSync env (path_resolve env link) = true ->
      realpathSync env (path_resolve env link) = Some target ->
      resolvePath env link = Some target).
Proof.
  split.
  - intros env text r Hreal. unfold resolvePath.
    set (start := if startsWith "~" text then _ else _).
    destruct start as [r0|]; [|discriminate].
    fold (blocked (path_resolve env r0)).
    destruct (blocked (path_resolve env r0)) eqn:Hb; [discriminate|].
    destruct (existsSync env (path_resolve env r0)).
    + destruct (realpathSync env (path_resolve env r0)) as [real|] eqn:Hr.
      * intros [= <-]. by rewrite (Hreal _ _ Hr).
      * by intros [= <-].
    + by intros [= <-].
  - intros env link target Hslash Hb Hex Hreal.
    assert (Htilde : startsWith "~" link = false).
    { destruct link as [|c link]; [discriminate|]. cbn [startsWith] in Hslash.
      apply andb_true_iff in Hslash as [Hc _]. apply Ascii.eqb_eq in Hc as <-.
      reflexivity. }
    unfold resolvePath.
    rewrite Htilde, Hslash. fold (blocked (path_resolve env link)).
    by rewrite Hb, Hex, Hreal.
Qed.

Lemma X14_witness :
  resolvePath link_env "/tmp/link" = Some "/proc/1"
  /\ blocked "/proc/1" = true
  /\ handleChatCompletions link_env sample_config empty_store [sample_user "/tmp/link"]
     = FakeResponse (PATH_CONFIRMED "/proc/1").
Proof.
  split; [|split; reflexivity].
  apply (proj2 X14_blocked_before_links link_env "/tmp/link" "/proc/1"); reflexivity.
Defined.

(** ** Reading the agent's output *)

Lemma indexOf_LF_app (b rest : string) :
  indexOf_LF b = None ->
  indexOf_LF (b ++ String (ascii_of_nat 10) rest) = Some (String.length b).
Proof.
  induction b as [|c b IH]; intros Hb; [reflexivity|].
  rewrite str_app_cons. cbn [indexOf_LF] in *.
  destruct (is_LF c); [discriminate|].
  destruct (indexOf_LF b); [discriminate|]. by rewrite IH.
Qed.

Lemma indexOf_LF_snoc (b : string) (c : ascii) :
  indexOf_LF b = None -> is_LF c = false -> indexOf_LF (b ++ String c "") = None.
Proof.
  induction b as [|x b IH]; intros Hb Hc.
  - rewrite str_app_nil. cbn [indexOf_LF]. by rewrite Hc.
  - rewrite str_app_cons. cbn [indexOf_LF] in *.
    destruct (is_LF x); [discriminate|].
    destruct (indexOf_LF b); [discriminate|]. by rewrite IH.
Qed.

Lemma slice_to_app (b t : string) : slice_to (String.length b) (b ++ t) = b.
Proof.
  induction b as [|c b IH]; [by destruct t|].
  rewrite str_app_cons. simpl. by rewrite IH.
Qed.

Lemma slice_from_app (b : string) (c : ascii) (t : string) :
  slice_from (S (String.length b)) (b ++ String c t) = t.
Proof.
  induction b as [|x b IH]; [by destruct t|].
  rewrite str_app_cons. exact IH.
Qed.

Lemma is_LF_eq (c : ascii) : is_LF c = true -> c = ascii_of_nat 10.
Proof. unfold is_LF. apply Ascii.eqb_eq. Qed.

Lemma app_snoc_cons (b : string) (c : ascii) (t : string) :
  (b ++ String c "") ++ t = b ++ String c t.
Proof. by rewrite string_app_assoc. Qed.

Lemma cut_lines_pending (text : string) :
  forall pending, indexOf_LF pending = None -> indexOf_LF (cut_lines pending text).2 = None.
Proof.
  induction text as [|c text IH]; intros pending Hp; [assumption|].
  cbn [cut_lines]. destruct (is_LF c) eqn:Hc.
  - cbn [snd]. by apply IH.
  - apply IH. by apply indexOf_LF_snoc.
Qed.

Lemma cut_lines_app (t1 t2 : string) :
  forall pending,
    cut_lines pending (t1 ++ t2) =
    (((cut_lines pending t1).1 ++ (cut_lines (cut_lines pending t1).2 t2).1)%list,
     (cut_lines (cut_lines pending t1).2 t2).2).
Proof.
  induction t1 as [|c t1 IH]; intros pending.
  - rewrite str_app_nil. cbn [cut_lines fst snd app]. by destruct (cut_lines pending t2).
  - rewrite str_app_cons. cbn [cut_lines]. destruct (is_LF c).
    + rewrite IH. reflexivity.
    + apply IH.
Qed.

Section ParseStreamLinesFacts.

Context {A : Type} (JSON_parse : string -> option A).

Lemma yield_all_app (l1 l2 : list string) :
  yield_all JSON_parse (l1 ++ l2) = (yield_all JSON_parse l1 ++ yield_all JSON_parse l2)%list.
Proof. apply flat_map_app. Qed.

(** The inner loop yields the complete lines of the buffer, and its fuel
    is enough. *)
Lemma drain_spec (text : string) :
  forall (pending : string) (fuel : nat),
    indexOf_LF pending = None ->
    (String.length (pending ++ text) <= fuel)%nat ->
    drain JSON_parse fuel (pending ++ text)
      = (yield_all JSON_parse (cut_lines pending text).1, (cut_lines pending text).2).
Proof.
  induction text as [|c text IH]; intros pending fuel Hp Hfuel.
  - rewrite string_app_nil_r. cbn [cut_lines fst snd flat_map].
    destruct fuel; [reflexivity|]. cbn [drain]. by rewrite Hp.
  - cbn [cut_lines]. destruct (is_LF c) eqn:Hc.
    + apply is_LF_eq in Hc as ->.
      rewrite string_length_app in Hfuel. simpl in Hfuel.
      destruct fuel as [|fuel]; [lia|].
      cbn [drain]. rewrite indexOf_LF_app by assumption.
      rewrite slice_to_app, slice_from_app.
      assert (Hrec := IH "" fuel eq_refl). rewrite str_app_nil in Hrec.
      rewrite Hrec by lia. reflexivity.
    + rewrite <- app_snoc_cons.
      apply IH; [by apply indexOf_LF_snoc|].
      by rewrite app_snoc_cons.
Qed.

Lemma on_chunk_spec (ys : list A) (b chunk : string) :
  indexOf_LF b = None ->
  on_chunk JSON_parse (ys, b) chunk
    = ((ys ++ yield_all JSON_parse (cut_lines b chunk).1)%list, (cut_lines b chunk).2).
Proof.
  intros Hb. unfold on_chunk. cbn [fst snd]. by rewrite drain_spec.
Qed.

Lemma fold_on_chunk_spec (chunks : list string) :
  forall (ys : list A) (b : string),
    indexOf_LF b = None ->
    fold_left (on_chunk JSON_parse) chunks (ys, b)
      = ((ys ++ yield_all JSON_parse (cut_lines b (concat_chunks chunks)).1)%list,
         (cut_lines b (concat_chunks chunks)).2).
Proof.
  induction chunks as [|chunk chunks IH]; intros ys b Hb.
  - cbn. by rewrite app_nil_r.
  - cbn [fold_left concat_chunks fold_right]. rewrite on_chunk_spec by assumption.
    rewrite IH by (by apply cut_lines_pending).
    fold (concat_chunks chunks). rewrite cut_lines_app. cbn [fst snd].
    by rewrite yield_all_app, app_assoc.
Qed.

Lemma parseStreamLines_spec (chunks : list string) :
  parseStreamLines JSON_parse chunks
    = yield_all JSON_parse ((cut_lines "" (concat_chunks chunks)).1
              ++ [(cut_lines "" (concat_chunks chunks)).2]).
Proof.
  unfold parseStreamLines. rewrite fold_on_chunk_spec by reflexivity.
  cbn [fst snd app]. rewrite yield_all_app. f_equal.
  unfold yield_all. cbn [flat_map]. by rewrite app_nil_r.
Qed.

End ParseStreamLinesFacts.

(** X15. The values that [parseStreamLines] yields are those of the
    lines of the whole output, in order: each complete line and the text
    after the last line feed is trimmed, dropped when empty or not valid
    JSON, and parsed otherwise. They do not depend on how the output is
    cut into chunks. *)
Theorem X15_lines_of_the_whole_output {A : Type} (JSON_parse : string -> option A) :
  (forall chunks : list string,
      parseStreamLines JSON_parse chunks
        = yield_all JSON_parse
            ((cut_lines "" (concat_chunks chunks)).1
             ++ [(cut_lines "" (concat_chunks chunks)).2]))
  /\ (forall chunks chunks' : list string,
      concat_chunks chunks = concat_chunks chunks' ->
      parseStreamLines JSON_parse chunks = parseStreamLines JSON_parse chunks').
Proof.
  split.
  - apply parseStreamLines_spec.
  - intros chunks chunks' H. by rewrite !parseStreamLines_spec, H.
Qed.

Lemma X15_witness :
  parseStreamLines sample_parse [" {"; "}" ++ LF ++ "no"; "ise" ++ LF ++ LF ++ "[] "]
  = parseStreamLines sample_parse [" {}" ++ LF ++ "noise" ++ LF ++ LF ++ "[] "].
Proof.
  apply (proj2 (X15_lines_of_the_whole_output sample_parse)). reflexivity.
Defined.

Example parseStreamLines_sample :
  parseStreamLines sample_parse [" {"; "}" ++ LF ++ "no"; "ise" ++ LF ++ LF ++ "[] "]
  = [true; false].
Proof. reflexivity. Qed.

(** ** The prompt and the arguments of the agent *)

Example getTextContentWithImages_sample :
  getTextContentWithImages sample_platform
    (ContentParts [ text_part "look"; image_part "data:image/jpeg;base64,AAAA";
                    image_part "https://x.test/y.png";
                    image_part "data:image/svg+xml;base64,AAAA" ])
    image_state0
  = Some ("look" ++ LF
          ++ image_saved_note "/tmp/claude-code-proxy-images/uuid-0.jpg" ++ LF
          ++ image_url_note "https://x.test/y.png",
          {| drawn := 1;
             files := [("/tmp/claude-code-proxy-images/uuid-0.jpg", "AAAA")] |}).
Proof. reflexivity. Qed.

Lemma collect_parts_text (pf : ImagePlatform) (ps : list OAIContentPart) :
  forall (acc : list string) (st : ImageState),
    forallb (fun p => negb (is_image_part p)) ps = true ->
    collect_parts pf ps acc st
      = Some ((acc ++ map (fun p => default "" (part_text p)) (filter is_text_part ps))%list,
              st).
Proof.
  induction ps as [|p ps IH]; intros acc st Hps.
  - cbn [collect_parts]. by rewrite filter_nil, app_nil_r.
  - cbn [forallb] in Hps. apply andb_true_iff in Hps as [Hp Hps].
    cbn [collect_parts]. unfold is_image_part in Hp.
    destruct (is_text_part p) eqn:Ht.
    + rewrite filter_cons_True by (by_bool Ht).
      rewrite IH by assumption. cbn [map]. by rewrite <- app_assoc.
    + rewrite filter_cons_False by (by_bool Ht).
      cbn [negb andb] in Hp.
      destruct (part_type p); [by apply IH|].
      destruct (part_image_url p) as [img|]; [|by apply IH].
      destruct (truthy (url img)); [discriminate|by apply IH].
Qed.

Lemma getTextContentWithImages_text (pf : ImagePlatform) (c : Content) (st : ImageState) :
  text_only c = true ->
  getTextContentWithImages pf c st = Some (getTextContent c, st).
Proof.
  destruct c as [s|ps]; [reflexivity|]. intros Hc.
  unfold getTextContentWithImages. by rewrite collect_parts_text.
Qed.

Lemma label_parts_text (pf : ImagePlatform) (msgs : list OAIMessage) :
  forall (acc : list string) (st : ImageState),
    Forall (fun m => text_only (content m) = true) msgs ->
    exists texts, label_parts pf msgs acc st = Some (texts, st).
Proof.
  induction msgs as [|m msgs IH]; intros acc st Hall; [by eexists|].
  inversion Hall as [|? ? Hm Hrest]; subst.
  cbn [label_parts]. rewrite getTextContentWithImages_text by assumption.
  by apply IH.
Qed.

(** X16. On content without image parts the extractor that handles
    images agrees with [getTextContent]: it returns the same text, saves
    no file, draws no identifier and cannot fail, whatever the state of
    the temporary directory. A prompt built from such messages leaves the
    file system alone, and building it fails only on an empty list with a
    session. *)
Theorem X16_text_only_content (pf : ImagePlatform) (st : ImageState) :
  (forall c : Content,
      text_only c = true ->
      getTextContentWithImages pf c st = Some (getTextContent c, st))
  /\ (forall (messages : list OAIMessage) (hasSession : bool),
      Forall (fun m => text_only (content m) = true) messages ->
      messages <> [] ->
      exists prompt, buildPrompt pf messages hasSession st = Some (prompt, st))
  /\ (forall messages : list OAIMessage,
      Forall (fun m => text_only (content m) = true) messages ->
      exists prompt, buildPrompt pf messages false st = Some (prompt, st)).
Proof.
  split; [intros c; apply getTextContentWithImages_text|].
  assert (Hnosess : forall messages : list OAIMessage,
    Forall (fun m => text_only (content m) = true) messages ->
    (length messages =? 1)%nat = false ->
    exists prompt, buildPrompt pf messages false st = Some (prompt, st)).
  { intros messages Hall Hlen. unfold buildPrompt. rewrite Hlen.
    assert (Hns : Forall (fun m => text_only (content m) = true)
                    (filter (fun m => negb (is_system m)) messages)).
    { apply List.Forall_forall. intros m Hm.
      apply list_elem_of_In, list_elem_of_filter in Hm as [_ Hm].
      apply list_elem_of_In in Hm. revert m Hm. by apply List.Forall_forall. }
    destruct (filter (fun m => negb (is_system m)) messages) as [|m [|m' rest]] eqn:Hf.
    - by eexists.
    - inversion Hns; subst. rewrite getTextContentWithImages_text by assumption.
      by eexists.
    - destruct (label_parts_text pf (m :: m' :: rest) [] st Hns) as (texts & ->).
      by eexists. }
  assert (Hlast : forall messages : list OAIMessage,
    Forall (fun m => text_only (content m) = true) messages ->
    messages <> [] ->
    exists m, last messages = Some m /\ text_only (content m) = true).
  { intros messages Hall Hne.
    destruct messages as [|x l] using rev_ind; [done|].
    exists x. rewrite last_snoc. split; [reflexivity|].
    apply Forall_app in Hall as [_ Hx]. by inversion Hx. }
  split.
  - intros messages hasSession Hall Hne.
    destruct (Hlast messages Hall Hne) as (m & Hm & Hc).
    destruct hasSession.
    + unfold buildPrompt. rewrite Hm, getTextContentWithImages_text by assumption.
      by eexists.
    + destruct (length messages =? 1)%nat eqn:Hlen; [|by apply Hnosess].
      unfold buildPrompt. rewrite Hlen, Hm, getTextContentWithImages_text by assumption.
      by eexists.
  - intros messages Hall.
    destruct messages as [|m0 ms] eqn:Hms; [by eexists|].
    destruct (Hlast (m0 :: ms) Hall) as (m & Hm & Hc); [done|].
    destruct (length (m0 :: ms) =? 1)%nat eqn:Hlen; [|by apply Hnosess].
    unfold buildPrompt. rewrite Hlen, Hm, getTextContentWithImages_text by assumption.
    by eexists.
Qed.

Lemma X16_witness :
  getTextContentWithImages sample_platform
    (ContentParts [text_part "a"; text_part ""; text_part "b"]) image_state0
  = Some (getTextContent (ContentParts [text_part "a"; text_part ""; text_part "b"]),
          image_state0).
Proof.
  apply (proj1 (X16_text_only_content sample_platform image_state0)). reflexivity.
Defined.

Lemma strip_prefix_app (p s : string) : strip_prefix p (p ++ s) = Some s.
Proof.
  induction p as [|c p IH]; [reflexivity|].
  rewrite str_app_cons. cbn [strip_prefix]. by rewrite Ascii.eqb_refl.
Qed.

Lemma span_word_stop (w : string) (c : ascii) (rest : string) :
  all_word w = true -> is_word c = false ->
  span_word (w ++ String c rest) = (w, String c rest).
Proof.
  intros Hw Hc. induction w as [|x w IH].
  - rewrite str_app_nil. cbn [span_word]. by rewrite Hc.
  - cbn [all_word] in Hw. apply andb_true_iff in Hw as [Hx Hw].
    rewrite str_app_cons. cbn [span_word]. rewrite Hx, (IH Hw). reflexivity.
Qed.

Lemma match_data_url_base64 (ext payload : string) :
  all_word ext = true -> truthy ext = true ->
  truthy payload = true -> has_line_terminator payload = false ->
  match_data_url ("data:image/" ++ ext ++ ";base64," ++ payload) = Some (ext, payload).
Proof.
  intros Hw He Hp Hl. unfold match_data_url.
  rewrite strip_prefix_app.
  change (";base64," ++ payload) with (String ";" ("base64," ++ payload)).
  rewrite span_word_stop by done. cbn [fst snd]. rewrite He.
  change (String ";" ("base64," ++ payload)) with (";base64," ++ payload).
  by rewrite strip_prefix_app, Hp, Hl.
Qed.

Lemma match_data_url_subtype (w : string) (c : ascii) (rest : string) :
  all_word w = true -> is_word c = false -> c <> ";"%char ->
  match_data_url ("data:image/" ++ w ++ String c rest) = None.
Proof.
  intros Hw Hc Hne. unfold match_data_url.
  rewrite strip_prefix_app, span_word_stop by done. cbn [fst snd].
  destruct (truthy w); [|reflexivity].
  cbn [strip_prefix].
  destruct (Ascii.eqb ";" c) eqn:Heq; [|reflexivity].
  apply Ascii.eqb_eq in Heq. by subst.
Qed.

Lemma collect_parts_app (pf : ImagePlatform) (ps1 ps2 : list OAIContentPart) :
  forall (acc : list string) (st : ImageState),
    collect_parts pf (ps1 ++ ps2) acc st =
    match collect_parts pf ps1 acc st with
    | Some (acc', st') => collect_parts pf ps2 acc' st'
    | None => None
    end.
Proof.
  induction ps1 as [|p ps1 IH]; intros acc st; [reflexivity|].
  cbn [app collect_parts].
  destruct (is_text_part p); [apply IH|].
  destruct (part_type p); [apply IH|].
  destruct (part_image_url p) as [img|]; [|apply IH].
  destruct (truthy (url img)); [|apply IH].
  destruct (startsWith "data:image/" (url img)); [|apply IH].
  destruct (saveBase64Image pf (url img) st) as [[filePath st']|]; [|reflexivity].
  destruct (truthy filePath); apply IH.
Qed.

Lemma collect_parts_dropped (pf : ImagePlatform) (acc : list string) (st : ImageState)
  (after : list OAIContentPart) (w : string) (c : ascii) (rest : string) :
  mkdir_ok pf = true ->
  all_word w = true -> is_word c = false -> c <> ";"%char ->
  collect_parts pf (image_part ("data:image/" ++ w ++ String c rest) :: after) acc st
    = collect_parts pf after acc st.
Proof.
  intros Hmk Hw Hc Hne.
  cbn [collect_parts is_text_part image_part part_type part_text part_image_url url].
  assert (Ht : truthy ("data:image/" ++ w ++ String c rest) = true) by reflexivity.
  rewrite Ht, startsWith_app. unfold saveBase64Image.
  rewrite Hmk. cbn [negb]. by rewrite match_data_url_subtype.
Qed.

(** X17. Image parts. A data URL of the form
    [data:image/<ext>;base64,<payload>], with [ext] made of word
    characters and a payload without line terminators, is saved under a
    fresh identifier with extension [ext] ([jpg] for [jpeg]), one file
    being written with that payload, and its path is returned. A data URL
    whose subtype goes on with a character that is neither a word
    character nor a semicolon (as in [svg+xml]) matches nothing: no file
    is written and the part adds nothing to the text. *)
Theorem X17_image_parts (pf : ImagePlatform) (st : ImageState) :
  mkdir_ok pf = true ->
  (forall ext payload : string,
      all_word ext = true -> truthy ext = true ->
      truthy payload = true -> has_line_terminator payload = false ->
      let filePath :=
        path_join pf (IMAGE_TMP_DIR pf)
          (randomUUID pf (drawn st) ++ "."
           ++ (if (ext =? "jpeg")%string then "jpg" else ext)) in
      write_ok pf filePath = true ->
      saveBase64Image pf ("data:image/" ++ ext ++ ";base64," ++ payload) st
        = Some (filePath,
                {| drawn := S (drawn st);
                   files := (files st ++ [(filePath, payload)])%list |}))
  /\ (forall (w : string) (c : ascii) (rest : string) (before after : list OAIContentPart),
      all_word w = true -> is_word c = false -> c <> ";"%char ->
      forallb (fun p => negb (is_image_part p)) before = true ->
      forallb (fun p => negb (is_image_part p)) after = true ->
      getTextContentWithImages pf
        (ContentParts (before ++ image_part ("data:image/" ++ w ++ String c rest) :: after))
        st
      = Some (getTextContent (ContentParts (before ++ after)), st)).
Proof.
  intros Hmk. split.
  - intros ext payload Hw He Hp Hl filePath Hwr. unfold saveBase64Image.
    rewrite Hmk. cbn [negb]. rewrite match_data_url_base64 by assumption.
    fold filePath. by rewrite Hwr.
  - intros w c rest before after Hw Hc Hne Hb Ha.
    unfold getTextContentWithImages, getTextContent.
    rewrite collect_parts_app, collect_parts_text by assumption.
    rewrite (collect_parts_dropped pf _ _ _ w c rest) by done.
    rewrite collect_parts_text by assumption.
    by rewrite filter_app, map_app, <- app_assoc.
Qed.

Lemma X17_witness :
  saveBase64Image sample_platform ("data:image/" ++ "jpeg" ++ ";base64," ++ "AAAA")
    image_state0
  = Some ("/tmp/claude-code-proxy-images/uuid-0.jpg",
          {| drawn := 1;
             files := [("/tmp/claude-code-proxy-images/uuid-0.jpg", "AAAA")] |}).
Proof.
  apply (proj1 (X17_image_parts sample_platform image_state0 eq_refl) "jpeg" "AAAA");
    reflexivity.
Defined.

Lemma spawn_cwd_idem (config : Config) (wd : option string) :
  spawn_cwd config (Some (spawn_cwd config wd)) = spawn_cwd config wd.
Proof.
  unfold spawn_cwd. destruct wd as [w|].
  - destruct (truthy w) eqn:Hw; [by rewrite Hw|].
    by destruct (truthy (claudeWorkingDir config)).
  - by destruct (truthy (claudeWorkingDir config)).
Qed.

(** What an invocation decided by the handler carries. *)
Lemma handler_invoke (env : Env) (config : Config) (st : Store)
  (messages : list OAIMessage) (cwd : string) (cm : list OAIMessage)
  (sid : option string) :
  handleChatCompletions env config st messages = Invoke cwd cm sid ->
  sid = (lookupSession (slice_init cm) st).1 /\ spawn_cwd config (Some cwd) = cwd.
Proof.
  unfold handleChatCompletions. fold (non_system messages).
  destruct (length messages =? 0)%nat; [discriminate|].
  destruct (findConfirmed env (non_system messages)
              (length (non_system messages)) 0) as [[p k]|].
  - intros [= <- <- <-]. split; [reflexivity|apply (spawn_cwd_idem config (Some p))].
  - destruct (hasRealAssistantResponse (non_system messages)).
    + intros [= <- <- <-]. split; [reflexivity|apply (spawn_cwd_idem config None)].
    + destruct (resolvePath env (lastUserText (non_system messages))) as [r|];
        [destruct (truthy r && isValidDirectory env r)|]; discriminate.
Qed.

Lemma lookup_nonempty (st : Store) (C : list OAIMessage) (sid : string) :
  ids_nonempty st -> (lookupSession C st).1 = Some sid ->
  truthy sid = true /\ C <> [].
Proof.
  intros Hst. unfold lookupSession. destruct C as [|m C]; [discriminate|].
  cbn [length Nat.eqb].
  destruct (sessions st !! hashMessages (m :: C)) as [e|] eqn:He; [|discriminate].
  cbn [fst]. intros [= <-]. split; [by apply (Hst _ _ He)|discriminate].
Qed.

(** X18. The two tests on the session id agree. [spawnClaude] builds
    the prompt with a session when the id is not [null], and passes
    [--resume] when the id is not empty. For an invocation decided by the
    handler over a store whose ids are not empty the two coincide: the
    arguments hold [--resume] with the id found exactly when the prompt
    is built with a session, and the agent runs in the directory the
    handler chose. With a session the message list is not empty, and the
    prompt is the text of its last message alone. *)
Theorem X18_session_tests_agree (pf : ImagePlatform) (cli : CliConfig)
  (env : Env) (config : Config) (st : Store) (messages : list OAIMessage)
  (cwd : string) (cm : list OAIMessage) (sid : option string) (model : string)
  (ist : ImageState) :
  ids_nonempty st ->
  handleChatCompletions env config st messages = Invoke cwd cm sid ->
  spawnClaude pf cli config cm model sid (Some cwd) ist =
    match buildPrompt pf cm (bool_decide (is_Some sid)) ist with
    | Some (prompt, ist') =>
        Some ({| spawn_command := claudePath cli;
                 spawn_args :=
                   (base_args cli prompt model
                    ++ match sid with Some s => ["--resume"; s] | None => [] end
                    ++ system_args cm)%list;
                 spawn_dir := cwd |}, ist')
    | None => None
    end
  /\ (forall s, sid = Some s ->
      exists lastMessage,
        last cm = Some lastMessage
        /\ buildPrompt pf cm true ist
           = getTextContentWithImages pf (content lastMessage) ist).
Proof.
  intros Hst Hinv. apply handler_invoke in Hinv as [Hsid Hcwd]. split.
  - unfold spawnClaude. rewrite Hcwd.
    destruct (buildPrompt pf cm (bool_decide (is_Some sid)) ist) as [[prompt ist']|];
      [|reflexivity].
    do 3 f_equal. unfold resume_args. destruct sid as [s|]; [|reflexivity].
    symmetry in Hsid. apply (lookup_nonempty st) in Hsid as [-> _]; done.
  - intros s ->. symmetry in Hsid.
    apply (lookup_nonempty st) in Hsid as [_ Hne]; [|assumption].
    destruct cm as [|x l] using rev_ind; [done|]. clear IHl.
    exists x. rewrite last_snoc. split; [reflexivity|].
    unfold buildPrompt. by rewrite last_snoc.
Qed.

Lemma X18_witness :
  spawnClaude sample_platform sample_cli sample_config
    [sample_user "hello"; assistant_turn "Hello!"; sample_user "and then?"]
    "claude-opus-4-6" (Some "sess-42") (Some "/tmp") image_state0
  = Some ({| spawn_command := "claude";
             spawn_args :=
               (base_args sample_cli "and then?" "claude-opus-4-6"
                ++ ["--resume"; "sess-42"])%list;
             spawn_dir := "/tmp" |}, image_state0).
Proof.
  apply (proj1 (X18_session_tests_agree sample_platform sample_cli tmp_env
                  sample_config
                  (store_result [sample_user "hello"] (Some "sess-42") "Hello!" 7
                     empty_store)
                  (tmp_history ++ [assistant_turn "Hello!"; sample_user "and then?"])
                  "/tmp"
                  [sample_user "hello"; assistant_turn "Hello!"; sample_user "and then?"]
                  (Some "sess-42") "claude-opus-4-6" image_state0
                  ltac:(apply store_result_ids; intros h e H; vm_compute in H;
                        discriminate)
                  ltac:(vm_compute; reflexivity))).
Defined.

(** Without a session the same request is sent whole, and not resumed. *)
Example spawnClaude_without_session :
  spawnClaude sample_platform sample_cli sample_config
    [sample_user "hello"; assistant_turn "Hello!"; sample_user "and then?"]
    "claude-opus-4-6" None (Some "/tmp") image_state0
  = Some ({| spawn_command := "claude";
             spawn_args :=
               base_args sample_cli
                 ("User: hello" ++ LF ++ LF ++ "Assistant: Hello!" ++ LF ++ LF
                  ++ "User: and then?")
                 "claude-opus-4-6";
             spawn_dir := "/tmp" |}, image_state0).
Proof. reflexivity. Qed.

(** With an empty id, which the invariant excludes, the two tests part:
    the prompt is reduced to the last message and nothing is resumed. *)
Example spawnClaude_with_empty_id :
  spawnClaude sample_platform sample_cli sample_config
    [sample_user "hello"; assistant_turn "Hello!"; sample_user "and then?"]
    "claude-opus-4-6" (Some "") (Some "/tmp") image_state0
  = Some ({| spawn_command := "claude";
             spawn_args := base_args sample_cli "and then?" "claude-opus-4-6";
             spawn_dir := "/tmp" |}, image_state0).
Proof. reflexivity. Qed.

(** X19. A request that holds nothing but a confirmed pair reaches the
    agent with no message and no session: [spawnClaude] then passes an
    empty prompt, in the confirmed directory. *)
Theorem X19_bare_pair_empty_prompt (env : Env) (config : Config) (st : Store)
  (u a : OAIMessage) (p : string) :
  role u = user ->
  resolveValid env (trim (getTextContent (content u))) = Some p ->
  role a = assistant ->
  handleChatCompletions env config st [u; a] = Invoke p [] None
  /\ forall (pf : ImagePlatform) (cli : CliConfig) (model : string) (ist : ImageState),
      spawnClaude pf cli config [] model None (Some p) ist
      = Some ({| spawn_command := claudePath cli;
                 spawn_args := base_args cli "" model;
                 spawn_dir := p |}, ist).
Proof.
  intros Hu Hv Ha.
  assert (Hsu : is_system u = false) by (unfold is_system; by rewrite Hu).
  assert (Hsa : is_system a = false) by (unfold is_system; by rewrite Ha).
  assert (Hns : non_system [u; a] = [u; a]).
  { by rewrite !non_system_keep. }
  split.
  - rewrite (resume_general env config st [u; a] 0 p).
    + rewrite Hns, !filter_system_skip by assumption. reflexivity.
    + rewrite Hns. by exists u, a.
    + intros j q Hj. lia.
  - intros pf cli model ist. unfold spawnClaude.
    rewrite (spawn_cwd_some config p (resolveValid_truthy _ _ _ Hv)).
    reflexivity.
Qed.

Lemma X19_witness :
  handleChatCompletions tmp_env sample_config sample_store
    [sample_user "/tmp"; assistant_turn "ack"] = Invoke "/tmp" [] None.
Proof.
  apply (X19_bare_pair_empty_prompt tmp_env sample_config sample_store
           (sample_user "/tmp") (assistant_turn "ack") "/tmp"); reflexivity.
Defined.

(** ** Authentication and routing *)

Example checkAuth_samples :
  checkAuth (sample_request (Some "Bearer secret")) "secret" = true
  /\ checkAuth (sample_request (Some ("bEARER " ++ String (ascii_of_nat 9) "secret")))
       "secret" = true
  /\ checkAuth (sample_request (Some "secret")) "secret" = true
  /\ checkAuth (sample_request (Some "Bearersecret")) "secret" = false
  /\ checkAuth (sample_request (Some "Basic secret")) "secret" = false
  /\ checkAuth (sample_request None) "secret" = false
  /\ checkAuth (sample_request (Some "Bearer  secret")) " secret" = false.
Proof. repeat split. Qed.

Lemma strip_prefix_Some (p s r : string) : strip_prefix p s = Some r -> s = p ++ r.
Proof.
  revert s. induction p as [|a p IH]; intros s H.
  - by injection H as ->.
  - destruct s as [|b s]; [discriminate|]. cbn [strip_prefix] in H.
    destruct (Ascii.eqb a b) eqn:Hab; [|discriminate].
    apply Ascii.eqb_eq in Hab as <-. rewrite str_app_cons. f_equal. by apply IH.
Qed.

Lemma strip_prefix_ci_Some (p s r : string) :
  strip_prefix_ci p s = Some r ->
  exists pre, s = pre ++ r /\ String.length pre = String.length p
              /\ strip_prefix_ci p pre = Some "".
Proof.
  revert s. induction p as [|a p IH]; intros s H.
  - injection H as ->. by exists "".
  - destruct s as [|b s]; [discriminate|]. cbn [strip_prefix_ci] in H.
    destruct (Ascii.eqb (fold_case a) (fold_case b)) eqn:Hab; [|discriminate].
    destruct (IH _ H) as (pre & -> & Hlen & Hpre).
    exists (String b pre). rewrite str_app_cons. split; [reflexivity|].
    split; [simpl; by rewrite Hlen|]. cbn [strip_prefix_ci]. by rewrite Hab.
Qed.

Lemma strip_prefix_ci_app (p pre r : string) :
  strip_prefix_ci p pre = Some "" -> strip_prefix_ci p (pre ++ r) = Some r.
Proof.
  revert pre. induction p as [|a p IH]; intros pre H.
  - by injection H as ->.
  - destruct pre as [|b pre]; [discriminate|]. cbn [strip_prefix_ci] in H.
    rewrite str_app_cons. cbn [strip_prefix_ci].
    destruct (Ascii.eqb (fold_case a) (fold_case b)); [by apply IH|discriminate].
Qed.

Lemma drop_space_Some (s r : string) :
  drop_space s = Some r -> exists w, In w space_encodings /\ s = w ++ r.
Proof.
  unfold drop_space.
  induction space_encodings as [|w ws IH]; [discriminate|].
  cbn [fold_right]. destruct (strip_prefix w s) as [r'|] eqn:Hw.
  - intros [= <-]. exists w. split; [by left|by apply strip_prefix_Some].
  - intros H. destruct (IH H) as (w' & Hin & Hs). exists w'. split; [by right|assumption].
Qed.

Lemma drop_space_app (w s : string) :
  In w space_encodings -> drop_space (w ++ s) = Some s.
Proof.
  intros Hin. unfold space_encodings in Hin. cbv zeta in Hin.
  repeat (destruct Hin as [<-|Hin]; [reflexivity|]). destruct Hin.
Qed.

Lemma drop_space_shorter (s r : string) :
  drop_space s = Some r -> (String.length r < String.length s)%nat.
Proof.
  intros (w & Hin & ->)%drop_space_Some. rewrite string_length_app.
  assert (0 < String.length w)%nat; [|lia].
  unfold space_encodings in Hin. cbv zeta in Hin.
  repeat (destruct Hin as [<-|Hin]; [simpl; lia|]). destruct Hin.
Qed.

(** The run that [skip_spaces] removes, and where it stops. *)
Lemma skip_spaces_spec (fuel : nat) :
  forall s, (String.length s <= fuel)%nat ->
    exists ws,
      Forall (fun w => In w space_encodings) ws
      /\ s = concat_chunks ws ++ skip_spaces fuel s
      /\ drop_space (skip_spaces fuel s) = None.
Proof.
  induction fuel as [|fuel IH]; intros s Hlen.
  - destruct s; [|simpl in Hlen; lia]. by exists [].
  - cbn [skip_spaces]. destruct (drop_space s) as [s'|] eqn:Hs.
    + pose proof (drop_space_shorter _ _ Hs) as Hlt.
      destruct (drop_space_Some _ _ Hs) as (w & Hin & ->).
      destruct (IH s') as (ws & Hws & Heq & Hstop); [lia|].
      exists (w :: ws). split; [by constructor|]. split; [|assumption].
      cbn [concat_chunks fold_right]. fold (concat_chunks ws).
      rewrite string_app_assoc. by rewrite <- Heq.
    + by exists [].
Qed.

Lemma skip_spaces_run (ws : list string) (key : string) :
  Forall (fun w => In w space_encodings) ws ->
  drop_space key = None ->
  forall fuel, (length ws <= fuel)%nat ->
    skip_spaces fuel (concat_chunks ws ++ key) = key.
Proof.
  intros Hws Hkey. induction Hws as [|w ws Hw _ IH]; intros fuel Hfuel.
  - rewrite str_app_nil. destruct fuel; [reflexivity|].
    cbn [skip_spaces]. by rewrite Hkey.
  - destruct fuel as [|fuel]; [simpl in Hfuel; lia|].
    cbn [skip_spaces concat_chunks fold_right]. fold (concat_chunks ws).
    rewrite string_app_assoc, drop_space_app by assumption.
    apply IH. simpl in Hfuel. lia.
Qed.

Lemma concat_chunks_length (ws : list string) :
  Forall (fun w => In w space_encodings) ws ->
  (length ws <= String.length (concat_chunks ws))%nat.
Proof.
  induction 1 as [|w ws Hw _ IH]; [simpl; lia|].
  cbn [concat_chunks fold_right]. fold (concat_chunks ws).
  rewrite string_length_app. simpl length.
  assert (0 < String.length w)%nat; [|lia].
  unfold space_encodings in Hw. cbv zeta in Hw.
  repeat (destruct Hw as [<-|Hw]; [simpl; lia|]). destruct Hw.
Qed.

Lemma string_eqb_true (s t : string) : (s =? t)%string = true <-> s = t.
Proof. apply String.eqb_eq. Qed.

(** X20. What authenticates a request. A request is authenticated only
    if its [authorization] header is the key itself, or the key preceded
    by the word Bearer, in any case, and a run of white space; every
    header of that second form authenticates when the key does not begin
    with white space; and a request without the header is authenticated
    only when the configured key is empty. *)
Theorem X20_what_authenticates (req : Request) (apiKey : string) :
  (checkAuth req apiKey = true ->
     or_else (req_authorization req) "" = apiKey
     \/ exists scheme ws,
          req_authorization req = Some (scheme ++ concat_chunks ws ++ apiKey)
          /\ strip_prefix_ci "Bearer" scheme = Some ""
          /\ ws <> []
          /\ Forall (fun w => In w space_encodings) ws)
  /\ (forall scheme ws,
        strip_prefix_ci "Bearer" scheme = Some "" ->
        ws <> [] ->
        Forall (fun w => In w space_encodings) ws ->
        drop_space apiKey = None ->
        req_authorization req = Some (scheme ++ concat_chunks ws ++ apiKey) ->
        checkAuth req apiKey = true)
  /\ (req_authorization req = None -> checkAuth req apiKey = negb (truthy apiKey)).
Proof.
  split; [|split].
  - unfold checkAuth. intros H%string_eqb_true. unfold strip_bearer in H.
    destruct (strip_prefix_ci "Bearer" (or_else (req_authorization req) ""))
      as [rest|] eqn:Hpre; [|by left].
    destruct (drop_space rest) as [rest'|] eqn:Hsp; [|by left].
    right.
    destruct (strip_prefix_ci_Some _ _ _ Hpre) as (scheme & Hh & _ & Hscheme).
    destruct (drop_space_Some _ _ Hsp) as (w & Hw & ->).
    destruct (skip_spaces_spec (String.length rest') rest') as (ws & Hws & Hrest & _);
      [lia|].
    rewrite H in Hrest.
    exists scheme, (w :: ws). split; [|split; [assumption|split; [done|by constructor]]].
    cbn [concat_chunks fold_right]. fold (concat_chunks ws).
    rewrite string_app_assoc, <- Hrest, <- Hh.
    unfold or_else in *. destruct (req_authorization req) as [h|]; [|discriminate].
    destruct (truthy h) eqn:Hth; [reflexivity|discriminate].
  - intros scheme ws Hscheme Hne Hws Hkey Hh. unfold checkAuth.
    apply string_eqb_true. rewrite Hh.
    assert (Ht : or_else (Some (scheme ++ concat_chunks ws ++ apiKey)) ""
                 = scheme ++ concat_chunks ws ++ apiKey).
    { unfold or_else. destruct scheme; [discriminate|reflexivity]. }
    rewrite Ht. unfold strip_bearer.
    rewrite (strip_prefix_ci_app _ _ _ Hscheme).
    destruct ws as [|w ws]; [done|]. inversion Hws as [|? ? Hw Hws']; subst.
    cbn [concat_chunks fold_right]. fold (concat_chunks ws).
    rewrite string_app_assoc, drop_space_app by assumption.
    apply skip_spaces_run; [assumption|assumption|].
    rewrite string_length_app. pose proof (concat_chunks_length ws Hws'). lia.
  - intros Hnone. unfold checkAuth. rewrite Hnone. cbn [or_else].
    change (strip_bearer "") with "". by destruct apiKey.
Qed.

Lemma X20_witness :
  checkAuth (sample_request (Some ("bearer" ++ concat_chunks [" "; " "] ++ "secret")))
    "secret" = true.
Proof.
  apply (proj1 (proj2 (X20_what_authenticates
           (sample_request (Some ("bearer" ++ concat_chunks [" "; " "] ++ "secret")))
           "secret")) "bearer" [" "; " "]).
  - reflexivity.
  - discriminate.
  - apply List.Forall_cons; [do 5 right; by left|].
    apply List.Forall_cons; [do 5 right; by left|]. apply List.Forall_nil.
  - reflexivity.
  - reflexivity.
Defined.

(** X21. The authentication gate. The models list and the completions
    handler are reached only by authenticated requests; a request for a
    URL under [/v1/] that is not authenticated gets 401 unless its method
    is OPTIONS; OPTIONS requests and the health URLs are answered without
    a look at the key. *)
Theorem X21_auth_gate (apiKey : string) (req : Request) :
  (route apiKey req = reply_models_200 \/ route apiKey req = call_handleChatCompletions ->
     checkAuth req apiKey = true)
  /\ (or_else (req_method req) "GET" <> "OPTIONS" ->
      startsWith "/v1/" (or_else (req_url req) "/") = true ->
      checkAuth req apiKey = false ->
      route apiKey req = reply_unauthorized_401)
  /\ (or_else (req_method req) "GET" = "OPTIONS" -> route apiKey req = reply_options_204)
  /\ (or_else (req_method req) "GET" <> "OPTIONS" ->
      or_else (req_url req) "/" = "/health" \/ or_else (req_url req) "/" = "/health/" ->
      route apiKey req = reply_health_200).
Proof.
  unfold route.
  set (url := or_else (req_url req) "/"). set (method := or_else (req_method req) "GET").
  split; [|split; [|split]].
  - destruct (method =? "OPTIONS")%string; [by intros [|]|].
    destruct ((url =? "/health")%string || (url =? "/health/")%string); [by intros [|]|].
    destruct (checkAuth req apiKey); [done|]. rewrite andb_true_r.
    destruct (startsWith "/v1/" url) eqn:Hv1; [by intros [|]|].
    destruct (url =? "/v1/models")%string eqn:H1.
    { apply string_eqb_true in H1. rewrite H1 in Hv1. discriminate. }
    destruct (url =? "/v1/models/")%string eqn:H2.
    { apply string_eqb_true in H2. rewrite H2 in Hv1. discriminate. }
    destruct (url =? "/v1/chat/completions")%string eqn:H3.
    { apply string_eqb_true in H3. rewrite H3 in Hv1. discriminate. }
    destruct (url =? "/v1/chat/completions/")%string eqn:H4.
    { apply string_eqb_true in H4. rewrite H4 in Hv1. discriminate. }
    by intros [|].
  - intros Hm Hv1 Hauth.
    destruct (method =? "OPTIONS")%string eqn:Hopt;
      [by apply string_eqb_true in Hopt|].
    destruct (url =? "/health")%string eqn:H1.
    { apply string_eqb_true in H1. rewrite H1 in Hv1. discriminate. }
    destruct (url =? "/health/")%string eqn:H2.
    { apply string_eqb_true in H2. rewrite H2 in Hv1. discriminate. }
    by rewrite Hv1, Hauth.
  - intros ->. reflexivity.
  - intros Hm Hurl.
    destruct (method =? "OPTIONS")%string eqn:Hopt;
      [by apply string_eqb_true in Hopt|].
    by destruct Hurl as [-> | ->].
Qed.

Lemma X21_witness :
  route "secret" (sample_request (Some "Bearer wrong")) = reply_unauthorized_401.
Proof.
  apply (proj1 (proj2 (X21_auth_gate "secret" (sample_request (Some "Bearer wrong")))));
    [discriminate | reflexivity | reflexivity].
Defined.

(** ** Persistence of the sessions *)

(** X22. Sessions survive a restart. When a path is set, the store has
    unsaved changes and the file can be written, [shutdownSessions]
    leaves the store clean and a file from which
    [initSessionPersistence], in a process that starts afresh, restores
    exactly the sessions held at shutdown, provided the text written
    reads back as the entries it was made from and no session is keyed
    [__proto__]. When a write throws, whatever it leaves in the file, the
    sessions and the dirty flag are kept and the other files are
    untouched, so that with the timer set the next tick writes again, and
    after a tick whose write succeeds the file restores the sessions. A
    file that cannot be read or parsed leaves the new process with no
    session. *)
Theorem X22_sessions_survive_restart
  (encode : gmap string SessionEntry -> string)
  (decode : string -> option (gmap string SessionEntry))
  (s : Persisted) (path : string) :
  p_path s = Some path ->
  truthy path = true ->
  dirty (p_store s) = true ->
  sessions (p_store s) !! "__proto__" = None ->
  decode (encode (sessions (p_store s))) = Some (sessions (p_store s)) ->
  (let s' := shutdownSessions encode write_done s in
   dirty (p_store s') = false
   /\ p_timer s' = false
   /\ forall read_ok,
        sessions (p_store (initSessionPersistence decode path read_ok (fresh (p_disk s'))))
        = if read_ok then sessions (p_store s) else ∅)
  /\ (forall left_behind,
        let s' := shutdownSessions encode (write_failed left_behind) s in
        p_store s' = p_store s
        /\ p_disk s' !! path = left_behind
        /\ forall other, other <> path -> p_disk s' !! other = p_disk s !! other)
  /\ (forall left_behind,
        p_timer s = true ->
        let s1 := flush_tick encode (write_failed left_behind) s in
        let s2 := flush_tick encode write_done s1 in
        p_store s1 = p_store s
        /\ dirty (p_store s2) = false
        /\ sessions (p_store (initSessionPersistence decode path true (fresh (p_disk s2))))
           = sessions (p_store s))
  /\ (forall disk text,
        disk !! path = Some text -> decode text = None ->
        sessions (p_store (initSessionPersistence decode path true (fresh disk))) = ∅).
Proof.
  intros Hpath Htruthy Hdirty Hproto Hcodec.
  assert (Hobj : flush_object (sessions (p_store s)) = sessions (p_store s))
    by (unfold flush_object; by apply delete_id).
  split; [|split; [|split]].
  - unfold shutdownSessions, flushSessions. cbn [p_store p_path p_timer p_disk].
    rewrite Hdirty, Hpath, Htruthy. cbn [p_store p_path p_timer p_disk dirty sessions].
    split; [reflexivity|]. split; [reflexivity|].
    intros read_ok. unfold initSessionPersistence, fresh.
    cbn [p_store p_path p_timer p_disk dirty sessions empty_store].
    rewrite lookup_insert_eq, Hobj, Hcodec.
    destruct read_ok; [|reflexivity]. by rewrite map_union_empty.
  - intros left_behind.
    unfold shutdownSessions, flushSessions. cbn [p_store p_path p_timer p_disk].
    rewrite Hdirty, Hpath, Htruthy. cbn [p_store p_path p_timer p_disk].
    split; [reflexivity|].
    destruct left_behind as [text|]; split.
    + by rewrite lookup_insert_eq.
    + intros other Hne. by rewrite lookup_insert_ne.
    + by rewrite lookup_delete_eq.
    + intros other Hne. by rewrite lookup_delete_ne.
  - intros left_behind Htimer. cbv zeta.
    set (s1 := flush_tick encode (write_failed left_behind) s).
    assert (Hs1 : p_store s1 = p_store s /\ p_path s1 = Some path /\ p_timer s1 = true).
    { subst s1. unfold flush_tick, flushSessions.
      rewrite Htimer, Hdirty, Hpath, Htruthy. cbn [andb p_store p_path p_timer].
      by repeat split. }
    destruct Hs1 as (Hst & Hp1 & Ht1).
    split; [exact Hst|].
    unfold flush_tick, flushSessions.
    rewrite Ht1, Hst, Hdirty, Hp1, Htruthy.
    cbn [andb p_store p_path p_timer p_disk dirty sessions].
    split; [reflexivity|].
    unfold initSessionPersistence, fresh.
    cbn [p_store p_path p_timer p_disk dirty sessions empty_store].
    rewrite lookup_insert_eq, Hobj, Hcodec. by rewrite map_union_empty.
  - intros disk text Hdisk Hdec. unfold initSessionPersistence, fresh.
    cbn [p_store p_path p_timer p_disk dirty sessions empty_store].
    by rewrite Hdisk, Hdec.
Qed.

Lemma X22_witness :
  sessions (p_store
    (initSessionPersistence sample_decode "/var/ccp/sessions.json" true
       (fresh (p_disk
          (flush_tick sample_encode write_done
             (flush_tick sample_encode (write_failed (Some "{sa"))
                {| p_store := {| sessions := sessions sample_store; dirty := true |};
                   p_path := Some "/var/ccp/sessions.json";
                   p_timer := true;
                   p_disk := ∅ |}))))))
  = sessions sample_store.
Proof.
  apply (proj2 (proj2 (proj1 (proj2 (proj2
           (X22_sessions_survive_restart sample_encode sample_decode
              {| p_store := {| sessions := sessions sample_store; dirty := true |};
                 p_path := Some "/var/ccp/sessions.json";
                 p_timer := true;
                 p_disk := ∅ |} "/var/ccp/sessions.json"
              eq_refl eq_refl eq_refl eq_refl eq_refl)))
           (Some "{sa") eq_refl))).
Defined.

(** ** Model names *)

Lemma eqb_string_refl (s : string) : (s =? s)%string = true.
Proof. apply String.eqb_refl. Qed.

(** X23. Model names. Each alias resolves to a model of the list that
    [/v1/models] returns. A requested name that is not empty and is no
    property name of [Object.prototype] resolves to a model name on which
    resolving again changes nothing. Without a requested name, or with an
    empty one, the default is used as it stands: an alias given as the
    default is not expanded. *)
Theorem X23_model_names (defaultModel : string) :
  (forall a full, In (a, full) aliases ->
      resolveModel (Some a) defaultModel = model_name full /\ In full MODELS)
  /\ (forall m, truthy m = true ->
      existsb (String.eqb m) object_prototype_names = false ->
      exists name,
        resolveModel (Some m) defaultModel = model_name name
        /\ truthy name = true
        /\ resolveModel (Some name) defaultModel = model_name name)
  /\ resolveModel None defaultModel = model_name defaultModel
  /\ resolveModel (Some "") defaultModel = model_name defaultModel.
Proof.
  split; [|split; [|split; reflexivity]].
  - intros a full [[= <- <-]|[[= <- <-]|[[= <- <-]|[]]]]; split;
      first [reflexivity | by left | by right; left | by right; right; left].
  - intros m Hm Hproto. unfold resolveModel.
    destruct (alias_of m aliases) as [full|] eqn:Ha.
    + exists full. split; [reflexivity|].
      cbn [alias_of aliases] in Ha.
      destruct ("sonnet" =? m)%string; [injection Ha as <-; by split|].
      destruct ("opus" =? m)%string; [injection Ha as <-; by split|].
      destruct ("haiku" =? m)%string; [injection Ha as <-; by split|].
      discriminate.
    + rewrite Hproto, Hm. exists m. split; [reflexivity|]. split; [assumption|].
      by rewrite Ha, Hproto, Hm.
Qed.

Lemma X23_witness :
  exists name,
    resolveModel (Some "gpt-4o") "claude-opus-4-6" = model_name name
    /\ truthy name = true
    /\ resolveModel (Some name) "claude-opus-4-6" = model_name name.
Proof.
  apply (proj1 (proj2 (X23_model_names "claude-opus-4-6")) "gpt-4o"); reflexivity.
Defined.

(** ** Token counts in the two modes *)

Lemma capture_counts (ev : InnerEvent) (u v : Usage) :
  same_counts u v -> same_counts (capture_usage ev u) (capture_usage ev v).
Proof.
  intros [Hp Hc]. unfold capture_usage, same_counts.
  destruct (event_type ev =? "message_start")%string;
    destruct (event_type ev =? "message_delta")%string;
    destruct (event_message ev) as [[[mu|]]|];
    destruct (event_usage ev) as [eu|];
    repeat match goal with
           | |- context [truthy_num ?x] => destruct (truthy_num x)
           end;
    cbn [prompt_tokens completion_tokens total_tokens]; rewrite ?Hp, ?Hc; by split.
Qed.

Lemma line_counts (l : ClaudeStreamLine) (a : AggState) (s : StreamState) :
  same_counts (a_usage a) (s_usage s) ->
  same_counts (a_usage (agg_line l a)) (s_usage (stream_line l s)).
Proof.
  intros H. destruct l as [ev|sid is_err res|]; unfold agg_line, stream_line.
  - pose proof (capture_counts ev _ _ H) as Hc.
    destruct (text_delta ev); [exact Hc|].
    destruct (stop_delta ev); exact Hc.
  - destruct res as [r|]; [destruct (is_err && truthy r)|]; exact H.
  - exact H.
Qed.

Lemma fold_counts (ls : list ClaudeStreamLine) :
  forall (a : AggState) (s : StreamState),
    same_counts (a_usage a) (s_usage s) ->
    same_counts (a_usage (fold_left (fun s l => agg_line l s) ls a))
                (s_usage (fold_left (fun s l => stream_line l s) ls s)).
Proof.
  induction ls as [|l ls IH]; intros a s H; [exact H|].
  simpl fold_left. apply IH. by apply line_counts.
Qed.

Lemma agg_fold_usage_kept (ls : list ClaudeStreamLine) :
  Forall not_stream_event ls ->
  forall a : AggState, a_usage (fold_left (fun s l => agg_line l s) ls a) = a_usage a.
Proof.
  induction 1 as [|l ls Hl _ IH]; intros a; [reflexivity|].
  simpl fold_left. rewrite IH. by destruct l.
Qed.

(** X24. The two modes count the same tokens. When the last stream event
    of the stream carries a stop reason, the usage of the non-streaming
    response is the usage of the chunk that the streaming mode writes for
    that event: the same prompt and completion counts with their sum as
    total, and no usage when that sum is not positive. *)
Theorem X24_usage_agrees (messages : list OAIMessage)
  (pre : list ClaudeStreamLine) (ev : InnerEvent) (r : string)
  (post : list ClaudeStreamLine) (stderr : string) (now : Z) (st : Store) :
  stop_delta ev = Some r ->
  Forall not_stream_event post ->
  exists (u : Usage) (resp : OAIChatCompletionResponse) (before after : list Frame),
    (handleStreaming messages (emitter (pre ++ stream_event ev :: post)) stderr None
       now st).1 = (before ++ data (usageChunk u) :: after)%list
    /\ streamed_content before = concat_text pre
    /\ (handleNonStreaming messages (emitter (pre ++ stream_event ev :: post)) stderr
          now st).1 = ok_200 resp
    /\ total_tokens u = prompt_tokens u + completion_tokens u
    /\ usage resp = (if total_tokens u >? 0 then Some u else None).
Proof.
  intros Hstop Hpost.
  pose proof (stop_delta_not_text _ _ Hstop) as Htext.
  set (f := fun (s : StreamState) (l : ClaudeStreamLine) => stream_line l s).
  set (g := fun (s : AggState) (l : ClaudeStreamLine) => agg_line l s).
  set (s_pre := fold_left f pre stream_init).
  set (a_pre := fold_left g pre agg_init).
  set (u := totalled (capture_usage ev (s_usage s_pre))).
  destruct (stream_fold_spec pre stream_init) as (g1 & _ & Hw1 & _ & Hsc1).
  fold f in Hw1. fold s_pre in Hw1.
  destruct (stream_fold_spec post (stream_line (stream_event ev) s_pre))
    as (g2 & _ & Hw2 & _).
  fold f in Hw2.
  exists u. eexists.
  exists (data roleChunk :: concat g1),
    (concat g2 ++ closing_frames stderr
       (s_assistantContent (fold_left f (pre ++ stream_event ev :: post) stream_init)))%list.
  split; [|split; [|split; [|split]]].
  - unfold handleStreaming, stream_final, stream_loop, emitter. cbn [lines throws fst].
    change (bool_decide (is_Some None)) with false. fold f.
    destruct (stream_epilogue_open stderr
                (fold_left f (pre ++ stream_event ev :: post) stream_init)) as (-> & _).
    rewrite fold_left_app. cbn [fold_left]. fold s_pre.
    change (f s_pre (stream_event ev)) with (stream_line (stream_event ev) s_pre).
    rewrite Hw2.
    assert (Hline : s_written (stream_line (stream_event ev) s_pre)
                    = (s_written s_pre ++ [data (usageChunk u)])%list).
    { unfold stream_line. rewrite Htext, Hstop. reflexivity. }
    rewrite Hline, Hw1. cbn [stream_init s_written].
    rewrite <- !app_assoc. reflexivity.
  - change (streamed_content (data roleChunk :: ?l)) with ("" ++ streamed_content l).
    by rewrite Hsc1.
  - rewrite handleNonStreaming_ok. reflexivity.
  - reflexivity.
  - cbn [agg_response usage]. unfold agg_loop. fold g.
    rewrite fold_left_app. cbn [fold_left]. fold a_pre.
    change (g a_pre (stream_event ev)) with (agg_line (stream_event ev) a_pre).
    rewrite agg_fold_usage_kept by assumption.
    assert (Hc : same_counts (a_usage (agg_line (stream_event ev) a_pre))
                             (capture_usage ev (s_usage s_pre))).
    { unfold agg_line. rewrite Htext, Hstop. cbn [a_usage].
      apply capture_counts. subst a_pre s_pre. by apply fold_counts. }
    destruct Hc as [Hp Hc]. unfold u, totalled. cbn [total_tokens].
    rewrite Hp, Hc. reflexivity.
Qed.

Lemma X24_witness :
  exists (u : Usage) (resp : OAIChatCompletionResponse) (before after : list Frame),
    (handleStreaming [sample_user "q"]
       (emitter ([ev_message_start (Some 10) None; ev_text "Hi"]
                 ++ stream_event
                      {| event_type := "message_delta";
                         event_delta := Some {| delta_type := None; delta_text := None;
                                                stop_reason := Some "end_turn" |};
                         event_message := None;
                         event_usage := Some {| input_tokens := None;
                                                output_tokens := Some 3 |} |}
                 :: [result "sess-1" false None])) "" None 0 empty_store).1
      = (before ++ data (usageChunk u) :: after)%list
    /\ streamed_content before = concat_text [ev_message_start (Some 10) None; ev_text "Hi"]
    /\ (handleNonStreaming [sample_user "q"]
          (emitter ([ev_message_start (Some 10) None; ev_text "Hi"]
                    ++ stream_event
                         {| event_type := "message_delta";
                            event_delta := Some {| delta_type := None; delta_text := None;
                                                   stop_reason := Some "end_turn" |};
                            event_message := None;
                            event_usage := Some {| input_tokens := None;
                                                   output_tokens := Some 3 |} |}
                    :: [result "sess-1" false None])) "" 0 empty_store).1 = ok_200 resp
    /\ total_tokens u = prompt_tokens u + completion_tokens u
    /\ usage resp = (if total_tokens u >? 0 then Some u else None).
Proof.
  apply (X24_usage_agrees [sample_user "q"]
           [ev_message_start (Some 10) None; ev_text "Hi"] _ "end_turn"
           [result "sess-1" false None] "" 0 empty_store).
  - reflexivity.
  - apply List.Forall_cons; [exact I|apply List.Forall_nil].
Defined.
